(** * Deployment adapter and build workflow: a shallow embedding

    The two scripts of the repository, [deploy-adapter.py] and [dagger.py],
    are embedded as functions of an error-and-state monad over a model of the
    process environment (environment variables, filesystem, wall clock,
    child processes, HTTP endpoint).  Everything the outside world decides
    (exit codes, command output, temporary names, HTTP replies, elapsed
    time, what the operating system refuses) is read from an oracle
    stored in the world, so that a theorem quantified over worlds speaks
    about every behaviour of the outside. *)

From Stdlib Require Import ZArith QArith Lqa String Ascii SpecFloat Sorted.
From Stdlib.Strings Require Import Byte.
From stdpp Require Import gmap strings list fin_maps pretty.

Set Warnings "-register-all".

Open Scope Z_scope.
Open Scope string_scope.

(** ** The Python runtime the scripts rely on *)

Module Py.

(** *** Text

    A Python [str] is modelled by a Rocq [string] whose characters are the
    code points U+0000..U+00FF.  [bytes] are lists of [byte]. *)

Definition nl : string := String "010" EmptyString.

Definition code (c : ascii) : N := N_of_ascii c.

(** [str.isspace] on the code points below 256. *)
Definition is_space (c : ascii) : bool :=
  let n := code c in
  ((9 <=? n) && (n <=? 13) || (28 <=? n) && (n <=? 32) || (n =? 133) || (n =? 160))%N.

Fixpoint lstrip (s : string) : string :=
  match s with
  | EmptyString => EmptyString
  | String c s' => if is_space c then lstrip s' else s
  end.

Fixpoint rstrip (s : string) : string :=
  match s with
  | EmptyString => EmptyString
  | String c s' =>
      match rstrip s' with
      | EmptyString => if is_space c then EmptyString else String c EmptyString
      | r => String c r
      end
  end.

(** [str.strip()] *)
Definition strip (s : string) : string := rstrip (lstrip s).

(** [str.lower()] on the code points below 256: A-Z and the Latin-1
    capitals move up by 32, everything else is unchanged.  Outside this
    range only U+212A lowers to an ASCII letter (k), which occurs in none
    of the words the adapter compares with. *)
Definition lower_char (c : ascii) : ascii :=
  let n := code c in
  if ((65 <=? n) && (n <=? 90) || (192 <=? n) && (n <=? 222) && negb (n =? 215))%N
  then ascii_of_N (n + 32) else c.

Fixpoint lower (s : string) : string :=
  match s with
  | EmptyString => EmptyString
  | String c s' => String (lower_char c) (lower s')
  end.

(** [sep.join(parts)] *)
Definition join (sep : string) (parts : list string) : string := String.concat sep parts.

Definition byte_of_N (n : N) : byte :=
  match Byte.of_N (n mod 256) with Some b => b | None => x00 end.

(** [str.encode()] (UTF-8) for code points below 256. *)
Definition encode_char (c : ascii) : list byte :=
  let n := code c in
  if (n <? 128)%N then [byte_of_N n]
  else [byte_of_N (N.lor 192 (N.shiftr n 6)); byte_of_N (N.lor 128 (N.land n 63))].

Fixpoint encode (s : string) : list byte :=
  match s with
  | EmptyString => []
  | String c s' => encode_char c ++ encode s'
  end.

(** A bytes literal such as [b"BEGIN"]. *)
Definition bytes_lit (s : string) : list byte := list_byte_of_string s.

Fixpoint starts_with (p l : list byte) : bool :=
  match p, l with
  | [], _ => true
  | _ :: _, [] => false
  | a :: p', b :: l' => Byte.eqb a b && starts_with p' l'
  end.

(** [p in l] for bytes: [p] occurs as a contiguous slice of [l]. *)
Fixpoint bytes_in (p l : list byte) : bool :=
  starts_with p l || match l with [] => false | _ :: l' => bytes_in p l' end.

(** *** base64

    [base64.b64decode(s)] with its defaults is [binascii.a2b_base64] in
    non-strict mode on the ASCII encoding of [s]: characters outside the
    alphabet are skipped, a padding sequence that completes a quad ends the
    input, and leftover sextets are an error.  [None] stands for the
    exception ([binascii.Error], or [ValueError] for non-ASCII text). *)

Definition b64_index (c : ascii) : option N :=
  let n := code c in
  if ((65 <=? n) && (n <=? 90))%N then Some (n - 65)%N
  else if ((97 <=? n) && (n <=? 122))%N then Some (n - 71)%N
  else if ((48 <=? n) && (n <=? 57))%N then Some (n + 4)%N
  else if (n =? 43)%N then Some 62%N
  else if (n =? 47)%N then Some 63%N
  else None.

Fixpoint a2b_loop (s : string) (quad_pos leftchar pads : N) (out : list byte)
  : option (list byte) :=
  match s with
  | EmptyString => if (quad_pos =? 0)%N then Some out else None
  | String c s' =>
      if (code c =? 61)%N then
        if (2 <=? quad_pos)%N then
          if (4 <=? quad_pos + (pads + 1))%N then Some out
          else a2b_loop s' quad_pos leftchar (pads + 1)%N out
        else a2b_loop s' quad_pos leftchar pads out
      else
        match b64_index c with
        | None => a2b_loop s' quad_pos leftchar pads out
        | Some this_ch =>
            if (quad_pos =? 0)%N then a2b_loop s' 1%N this_ch 0%N out
            else if (quad_pos =? 1)%N then
              a2b_loop s' 2%N (N.land this_ch 15) 0%N
                (out ++ [byte_of_N (N.lor (N.shiftl leftchar 2) (N.shiftr this_ch 4))])
            else if (quad_pos =? 2)%N then
              a2b_loop s' 3%N (N.land this_ch 3) 0%N
                (out ++ [byte_of_N (N.lor (N.shiftl leftchar 4) (N.shiftr this_ch 2))])
            else
              a2b_loop s' 0%N 0%N 0%N
                (out ++ [byte_of_N (N.lor (N.shiftl leftchar 6) this_ch)])
        end
  end.

Fixpoint is_ascii (s : string) : bool :=
  match s with
  | EmptyString => true
  | String c s' => (code c <? 128)%N && is_ascii s'
  end.

Definition b64decode (s : string) : option (list byte) :=
  if is_ascii s then a2b_loop s 0%N 0%N 0%N [] else None.

(** *** Values

    The objects [json.loads] produces; [VNone] is also the [None] of local
    variables. A dict is the list of its items (keys are distinct in a
    decoded object; [dict_get] reads the first binding of a key). *)

Inductive value :=
| VNone
| VBool (b : bool)
| VInt (n : Z)
| VFloat (f : spec_float)
| VStr (s : string)
| VList (l : list value)
| VDict (d : list (string * value)).

(** Truth value of an object, as [if x], [x or y] and [x and y] test it. *)
Definition truthy (v : value) : bool :=
  match v with
  | VNone => false
  | VBool b => b
  | VInt n => negb (n =? 0)%Z
  | VFloat f => match f with S754_zero _ => false | _ => true end
  | VStr s => negb (String.eqb s EmptyString)
  | VList l => match l with [] => false | _ => true end
  | VDict d => match d with [] => false | _ => true end
  end.

(** [x or y] *)
Definition py_or (x y : value) : value := if truthy x then x else y.

Fixpoint assoc (k : string) (d : list (string * value)) : option value :=
  match d with
  | [] => None
  | (k', v) :: d' => if String.eqb k k' then Some v else assoc k d'
  end.

(** [d.get(k)] on a dict: the value, or [None] when the key is absent. *)
Definition dict_get (d : list (string * value)) (k : string) : value :=
  match assoc k d with Some v => v | None => VNone end.

(** Truth value of an optional string ([None] and the empty string are
    false). *)
Definition truthy_str (o : option string) : bool :=
  match o with
  | Some s => negb (String.eqb s EmptyString)
  | None => false
  end.

Definition or_str (x y : option string) : option string :=
  if truthy_str x then x else y.

(** *** Printed text

    What reaches an output stream, or the message of an exception: the
    concatenation of literal pieces and of renderings of values, which are
    kept symbolic ([str(v)] and [json.dumps(v)]). *)

Inductive frag :=
| Lit (s : string)
| Str (v : value)
| Dumps (v : value).

Definition text := list frag.

(** *** Filesystem *)

Definition path := list string.

Fixpoint split_slash (s cur : string) : list string :=
  match s with
  | EmptyString => [cur]
  | String c s' =>
      if Ascii.eqb c "/" then cur :: split_slash s' EmptyString
      else split_slash s' (cur +:+ String c EmptyString)
  end.

Definition keep_component (c : string) : bool :=
  negb (String.eqb c EmptyString) && negb (String.eqb c ".").

(** [pathlib.Path(s)]: the components of [s], with a leading [/] component
    for an absolute path; empty and [.] components are dropped. *)
Definition Path (s : string) : path :=
  ((match s with String "/" _ => ["/"] | _ => [] end)
     ++ List.filter keep_component (split_slash s EmptyString))%list.

Inductive node :=
| File (data : list byte) (mode : Z)
| Dir.

Definition fsmap := gmap path node.

Fixpoint is_prefix (p q : path) : bool :=
  match p, q with
  | [], _ => true
  | _ :: _, [] => false
  | a :: p', b :: q' => String.eqb a b && is_prefix p' q'
  end.

Fixpoint strip_prefix (p q : path) : option path :=
  match p, q with
  | [], _ => Some q
  | _ :: _, [] => None
  | a :: p', b :: q' => if String.eqb a b then strip_prefix p' q' else None
  end.

Definition child_name (d k : path) : option string :=
  match strip_prefix d k with
  | Some [n] => Some n
  | _ => None
  end.

(** Names of the entries of directory [d]. *)
Definition children (fs : fsmap) (d : path) : list string :=
  omap (fun kv => child_name d kv.1) (map_to_list fs).

(** Everything at or below [d] removed. *)
Definition remove_tree (fs : fsmap) (d : path) : fsmap :=
  filter (fun kv => is_prefix d kv.1 = false) fs.

(** Something at or below [q] cannot be removed, [no] telling of which
    entries the removal is refused. *)
Definition blocked (fs : fsmap) (no : path -> bool) (q : path) : bool :=
  existsb (fun k => is_prefix q k && no k) (map_to_list fs).*1.

(** Everything at or below [d] removed that can be: an entry stays when
    its removal, or that of something below it, is refused. *)
Definition remove_what_can_be (fs : fsmap) (no : path -> bool) (d : path) : fsmap :=
  filter (fun kv => is_prefix d kv.1 = false \/ blocked fs no kv.1 = true) fs.

Definition rebase (src dst : path) (kv : path * node) : option (path * node) :=
  match strip_prefix src kv.1 with
  | Some rest => Some ((dst ++ rest)%list, kv.2)
  | None => None
  end.

(** The tree at [src] copied to [dst]. *)
Definition copy_tree (fs : fsmap) (src dst : path) : fsmap :=
  list_to_map (omap (rebase src dst) (map_to_list fs)) ∪ fs.

Definition parent (p : path) : path := removelast p.

(** *** The process environment *)

Inductive command :=
| Argv (argv : list string)
| Shell (line : string).

(** What a finished child process leaves: [subprocess.CompletedProcess].
    Captured output is kept as the text it decodes to; a child whose
    output is not UTF-8 text, on which [decode()] raises, is not
    modelled. *)
Record completed := {
  returncode : Z;
  stdout : option string;
  stderr : option string
}.

Record exit_info := { x_code : Z; x_out : string; x_err : string }.

Inductive http_reply :=
| TransportError (msg : string)
| Reply (status_code : Z) (body : option value).

(** Effects of the process, in the order they happen. *)
Inductive Event :=
| EvPrint (t : text)
| EvRun (cmd : command) (cwd : option string) (env : option (gmap string string))
        (capture : bool) (rc : Z)
| EvMkstemp (p : path)
| EvWrite (p : path) (data : list byte)
| EvChmod (p : path) (mode : Z)
| EvRemove (p : path)
| EvMkdtemp (p : path)
| EvIterdir (d : path) (names : list string)
| EvRmtree (p : path) (ignore_errors : bool)
| EvUnlink (p : path)
| EvCopytree (src dst : path)
| EvCopy2 (src dst : path)
| EvGet (url : string) (headers : gmap string string)
| EvSleep (secs : Z).

(** The behaviour of everything outside the process.  The first argument
    of each field is the number of events so far, so that the same request
    may be answered differently at different moments.
    - [x_run]: a child process either cannot be started ([None]) or exits
      with a code and output, possibly having changed the filesystem;
    - [x_tmpdir], [x_tmpname]: the directory of temporary files and the
      random characters [tempfile] settles on for a prefix, if any;
    - [x_http]: what the status endpoint answers;
    - [x_elapsed]: the time an operation takes beyond what was asked;
    - [x_strftime]: the formatted current time;
    - [x_refused]: whether the operating system refuses a change to a path
      (no permission, a read-only or full device, a file in use). *)
Record External := {
  x_run : nat -> command -> option string -> option (gmap string string) ->
          fsmap -> option exit_info * fsmap;
  x_tmpdir : string;
  x_tmpname : nat -> string -> option string;
  x_http : nat -> string -> gmap string string -> http_reply;
  x_elapsed : nat -> Q;
  x_strftime : Q -> string;
  x_refused : nat -> path -> bool
}.

Record World := {
  environ : gmap string string;
  fs : fsmap;
  now : Q;
  log : list Event;
  ext : External
}.

Definition set_fs (f : fsmap) (w : World) : World :=
  {| environ := environ w; fs := f; now := now w; log := log w; ext := ext w |}.

Definition emit (e : Event) (w : World) : World :=
  {| environ := environ w; fs := fs w; now := now w; log := (log w ++ [e])%list; ext := ext w |}.

Definition tick (d : Q) (w : World) : World :=
  {| environ := environ w; fs := fs w; now := (now w + d)%Q; log := log w; ext := ext w |}.

(** The operating system refuses to change [p] now. *)
Definition refused (p : path) (w : World) : bool :=
  x_refused (ext w) (length (log w)) p.

(** *** Exceptions and the monad of effects *)

(** [SystemExit] is not an [Exception]; [RequestException] is the base
    class of the errors of [requests]; [Error name] is any other subclass
    of [Exception]. *)
Inductive exn :=
| SystemExit (msg : text)
| RequestException (msg : string)
| Error (name : string).

(** A computation returns, raises, or is still running when the fuel of a
    loop is spent. *)
Inductive result (A : Type) :=
| Ok (a : A)
| Raise (e : exn)
| Diverge.
Arguments Ok {A} a.
Arguments Raise {A} e.
Arguments Diverge {A}.

Definition M (A : Type) : Type := World -> result A * World.

Definition ret {A} (a : A) : M A := fun w => (Ok a, w).

Definition raise {A} (e : exn) : M A := fun w => (Raise e, w).

Definition bind {A B} (m : M A) (k : A -> M B) : M B :=
  fun w =>
    match m w with
    | (Ok a, w') => k a w'
    | (Raise e, w') => (Raise e, w')
    | (Diverge, w') => (Diverge, w')
    end.

Notation "x <- m ;; k" := (bind m (fun x => k))
  (at level 100, m at next level, right associativity).
Notation "m ;; k" := (bind m (fun _ => k))
  (at level 100, right associativity).

(** [try: body finally: fin] *)
Definition try_finally {A} (body : M A) (fin : M unit) : M A :=
  fun w =>
    match body w with
    | (Diverge, w') => (Diverge, w')
    | (r, w') =>
        match fin w' with
        | (Ok _, w'') => (r, w'')
        | (Raise e, w'') => (Raise e, w'')
        | (Diverge, w'') => (Diverge, w'')
        end
    end.

Definition is_exception (e : exn) : bool :=
  match e with SystemExit _ => false | _ => true end.

Definition is_request_exception (e : exn) : bool :=
  match e with RequestException _ => true | _ => false end.

(** [try: body except <class> as e: handler], the class given by [catches]. *)
Definition try_except {A} (catches : exn -> bool) (body : M A) (handler : exn -> M A) : M A :=
  fun w =>
    match body w with
    | (Raise e, w') => if catches e then handler e w' else (Raise e, w')
    | rw => rw
    end.

(** [for x in l: body x] *)
Fixpoint for_each {A} (l : list A) (body : A -> M unit) : M unit :=
  match l with
  | [] => ret tt
  | x :: l' => body x ;; for_each l' body
  end.

(** *** Library calls *)

(** [print(...)]: the text written to standard output, separators and
    line end included. *)
Definition print (t : text) : M unit := fun w => (Ok tt, emit (EvPrint t) w).

(** [print(s)] for a string [s]. *)
Definition print_line (s : string) : M unit := print [Lit s; Lit nl].

(** [os.environ.get(k)] *)
Definition environ_get (k : string) : M (option string) :=
  fun w => (Ok (environ w !! k), w).

(** [os.environ.copy()] *)
Definition environ_copy : M (gmap string string) := fun w => (Ok (environ w), w).

(** [subprocess.run(cmd, cwd=cwd, shell=isinstance(cmd, str),
    capture_output=capture, env=env)] *)
Definition subprocess_run (cmd : command) (cwd : option string) (capture : bool)
    (env : option (gmap string string)) : M completed :=
  fun w =>
    let n := length (log w) in
    match x_run (ext w) n cmd cwd env (fs w) with
    | (None, _) => (Raise (Error "OSError"), w)
    | (Some o, fs') =>
        (Ok {| returncode := x_code o;
               stdout := if capture then Some (x_out o) else None;
               stderr := if capture then Some (x_err o) else None |},
         tick (x_elapsed (ext w) n)
           (emit (EvRun cmd cwd env capture (x_code o)) (set_fs fs' w)))
    end.

(** The name [tempfile] builds: directory, prefix, random characters. *)
Definition temp_path (dir prefix random : string) : string :=
  dir +:+ "/" +:+ prefix +:+ random.

(** [tempfile.mkstemp(prefix=prefix)]: a new empty file, readable and
    writable by its owner only; the descriptor is identified with the
    path. *)
Definition mkstemp (prefix : string) : M string :=
  fun w =>
    match x_tmpname (ext w) (length (log w)) prefix with
    | None => (Raise (Error "OSError"), w)
    | Some random =>
        let p := temp_path (x_tmpdir (ext w)) prefix random in
        match fs w !! Path p with
        | Some _ => (Raise (Error "FileExistsError"), w)
        | None => (Ok p, emit (EvMkstemp (Path p)) (set_fs (<[Path p := File [] 384]> (fs w)) w))
        end
    end.

(** [tempfile.mkdtemp(prefix=prefix)] *)
Definition mkdtemp (prefix : string) : M string :=
  fun w =>
    match x_tmpname (ext w) (length (log w)) prefix with
    | None => (Raise (Error "OSError"), w)
    | Some random =>
        let p := temp_path (x_tmpdir (ext w)) prefix random in
        match fs w !! Path p with
        | Some _ => (Raise (Error "FileExistsError"), w)
        | None => (Ok p, emit (EvMkdtemp (Path p)) (set_fs (<[Path p := Dir]> (fs w)) w))
        end
    end.

(** [os.write(fd, data)]: raises [OSError] and writes nothing when the
    operating system refuses. *)
Definition os_write (fd : string) (data : list byte) : M unit :=
  fun w =>
    match fs w !! Path fd with
    | Some (File old mode) =>
        if refused (Path fd) w then (Raise (Error "OSError"), w)
        else (Ok tt, emit (EvWrite (Path fd) data)
                       (set_fs (<[Path fd := File (old ++ data) mode]> (fs w)) w))
    | _ => (Raise (Error "OSError"), w)
    end.

(** [os.close(fd)] *)
Definition os_close (fd : string) : M unit := ret tt.

(** [os.chmod(p, mode)] *)
Definition os_chmod (p : string) (mode : Z) : M unit :=
  fun w =>
    match fs w !! Path p with
    | Some (File data _) =>
        if refused (Path p) w then (Raise (Error "OSError"), w)
        else (Ok tt, emit (EvChmod (Path p) mode)
                       (set_fs (<[Path p := File data mode]> (fs w)) w))
    | Some Dir =>
        if refused (Path p) w then (Raise (Error "OSError"), w)
        else (Ok tt, emit (EvChmod (Path p) mode) w)
    | None => (Raise (Error "FileNotFoundError"), w)
    end.

(** [os.path.exists(p)] *)
Definition os_path_exists (p : string) : M bool :=
  fun w => (Ok (bool_decide (is_Some (fs w !! Path p))), w).

(** [os.remove(p)] *)
Definition os_remove (p : string) : M unit :=
  fun w =>
    match fs w !! Path p with
    | Some (File _ _) =>
        if refused (Path p) w then (Raise (Error "OSError"), w)
        else (Ok tt, emit (EvRemove (Path p)) (set_fs (delete (Path p) (fs w)) w))
    | Some Dir => (Raise (Error "IsADirectoryError"), w)
    | None => (Raise (Error "FileNotFoundError"), w)
    end.

(** [p.exists()] and [p.is_dir()] for a [Path] *)
Definition path_exists (p : path) : M bool :=
  fun w => (Ok (bool_decide (is_Some (fs w !! p))), w).

Definition path_is_dir (p : path) : M bool :=
  fun w => (Ok (match fs w !! p with Some Dir => true | _ => false end), w).

(** [list(d.iterdir())] *)
Definition iterdir (d : path) : M (list string) :=
  fun w =>
    match fs w !! d with
    | Some Dir => let names := children (fs w) d in (Ok names, emit (EvIterdir d names) w)
    | Some (File _ _) => (Raise (Error "NotADirectoryError"), w)
    | None => (Raise (Error "FileNotFoundError"), w)
    end.

(** [shutil.rmtree(p, ignore_errors=ignore_errors)] deletes the tree from
    its leaves up.  With [ignore_errors] an entry whose removal fails is
    passed over in silence, and stays together with the directories above
    it; without, the failure is raised (what had been deleted before it
    is not modelled). *)
Definition rmtree (p : path) (ignore_errors : bool) : M unit :=
  fun w =>
    match fs w !! p with
    | Some Dir =>
        if blocked (fs w) (fun q => refused q w) p then
          if ignore_errors then
            (Ok tt, emit (EvRmtree p ignore_errors)
                      (set_fs (remove_what_can_be (fs w) (fun q => refused q w) p) w))
          else (Raise (Error "OSError"), w)
        else (Ok tt, emit (EvRmtree p ignore_errors) (set_fs (remove_tree (fs w) p) w))
    | Some (File _ _) =>
        if ignore_errors then (Ok tt, emit (EvRmtree p ignore_errors) w)
        else (Raise (Error "NotADirectoryError"), w)
    | None =>
        if ignore_errors then (Ok tt, emit (EvRmtree p ignore_errors) w)
        else (Raise (Error "FileNotFoundError"), w)
    end.

(** [p.unlink()] *)
Definition unlink (p : path) : M unit :=
  fun w =>
    match fs w !! p with
    | Some (File _ _) =>
        if refused p w then (Raise (Error "OSError"), w)
        else (Ok tt, emit (EvUnlink p) (set_fs (delete p (fs w)) w))
    | Some Dir => (Raise (Error "IsADirectoryError"), w)
    | None => (Raise (Error "FileNotFoundError"), w)
    end.

(** [shutil.copytree(src, dst)] *)
Definition copytree (src dst : path) : M unit :=
  fun w =>
    match fs w !! src, fs w !! dst with
    | Some Dir, None =>
        if refused dst w then (Raise (Error "OSError"), w)
        else (Ok tt, emit (EvCopytree src dst) (set_fs (copy_tree (fs w) src dst) w))
    | Some Dir, Some _ => (Raise (Error "FileExistsError"), w)
    | Some (File _ _), _ => (Raise (Error "NotADirectoryError"), w)
    | None, _ => (Raise (Error "FileNotFoundError"), w)
    end.

(** [shutil.copy2(src, dst)]: contents and metadata; into [dst] when it
    is a directory. *)
Definition copy2 (src dst : path) : M unit :=
  fun w =>
    match fs w !! src with
    | Some (File data mode) =>
        let target :=
          match fs w !! dst with
          | Some Dir => (dst ++ [List.last src EmptyString])%list
          | _ => dst
          end in
        match fs w !! parent target, fs w !! target with
        | Some Dir, Some Dir => (Raise (Error "IsADirectoryError"), w)
        | Some Dir, _ =>
            if refused target w then (Raise (Error "OSError"), w)
            else (Ok tt, emit (EvCopy2 src dst)
                           (set_fs (<[target := File data mode]> (fs w)) w))
        | _, _ => (Raise (Error "FileNotFoundError"), w)
        end
    | Some Dir => (Raise (Error "IsADirectoryError"), w)
    | None => (Raise (Error "FileNotFoundError"), w)
    end.

(** [time.time()] *)
Definition time_time : M Q := fun w => (Ok (now w), w).

(** [time.sleep(secs)]: at least [secs] seconds pass. *)
Definition time_sleep (secs : Z) : M unit :=
  fun w =>
    if (secs <? 0)%Z then (Raise (Error "ValueError"), w)
    else (Ok tt, tick (inject_Z secs + x_elapsed (ext w) (length (log w)))%Q
                   (emit (EvSleep secs) w)).

(** [time.strftime(fmt, time.gmtime())] *)
Definition strftime_now : M string := fun w => (Ok (x_strftime (ext w) (now w)), w).

(** A [requests.Response] *)
Record response := { status_code : Z; body : option value }.

(** [requests.get(url, headers=headers, timeout=10)] *)
Definition requests_get (url : string) (headers : gmap string string) : M response :=
  fun w =>
    let n := length (log w) in
    let w' := tick (x_elapsed (ext w) n) (emit (EvGet url headers) w) in
    match x_http (ext w) n url headers with
    | TransportError msg => (Raise (RequestException msg), w')
    | Reply c b => (Ok {| status_code := c; body := b |}, w')
    end.

(** [r.raise_for_status()] *)
Definition raise_for_status (r : response) : M unit :=
  if (400 <=? status_code r)%Z && (status_code r <? 600)%Z
  then raise (RequestException "HTTPError") else ret tt.

(** [r.json()]; a body that is not JSON raises
    [requests.exceptions.JSONDecodeError], a [RequestException]. *)
Definition response_json (r : response) : M value :=
  match body r with
  | Some j => ret j
  | None => raise (RequestException "JSONDecodeError")
  end.

(** [j.get(k)]: only a dict has the method. *)
Definition get_method (j : value) (k : string) : M value :=
  match j with
  | VDict d => ret (dict_get d k)
  | _ => raise (Error "AttributeError")
  end.

(** [v.lower()]: only a string has the method. *)
Definition lower_method (v : value) : M string :=
  match v with
  | VStr s => ret (lower s)
  | _ => raise (Error "AttributeError")
  end.

(** [x or <rest>], the right operand evaluated only when needed. *)
Definition or_else (x : value) (rest : M value) : M value :=
  if truthy x then ret x else rest.

(** [l.insert(i, x)] *)
Definition list_insert_at {A} (i : nat) (x : A) (l : list A) : list A :=
  (take i l ++ x :: drop i l)%list.

(** [o.decode() if o else <empty>] for captured output. *)
Definition text_or_empty (o : option string) : string :=
  match o with Some s => s | None => EmptyString end.

Definition str_in (s : string) (l : list string) : bool :=
  existsb (String.eqb s) l.

End Py.

(** ** deploy-adapter.py *)

Module DeployAdapter.
Import Py.

Definition run (cmd : command) (cwd : option string) (check capture : bool)
    (env : option (gmap string string)) : M completed :=
  let display := match cmd with Argv l => join " " l | Shell s => s end in
  print_line ("$ " +:+ display) ;;
  res <- subprocess_run cmd cwd capture env ;;
  if negb (returncode res =? 0)%Z && check then
    print [Lit (text_or_empty (stdout res))] ;;
    print [Lit (text_or_empty (stderr res))] ;;
    raise (SystemExit
      [Lit ("Command failed: " +:+ display +:+ " (exit " +:+ pretty (returncode res) +:+ ")")])
  else ret res.

Definition ensure_clean_worktree (allow_dirty : bool) : M unit :=
  res <- run (Argv ["git"; "status"; "--porcelain"]) None true true None ;;
  let dirty := strip (text_or_empty (stdout res)) in
  if truthy (VStr dirty) && negb allow_dirty then
    print [Lit ("Working tree has uncommitted changes:" +:+ nl); Lit " "; Lit dirty; Lit nl] ;;
    raise (SystemExit
      [Lit "Refusing to push with a dirty working tree. Commit or use --allow-dirty to override."])
  else if truthy (VStr dirty) && allow_dirty then
    print_line "Warning: working tree is dirty but --allow-dirty set — proceeding."
  else ret tt.

(** The bytes to store for a candidate string: its base64 decoding when
    that succeeds and shows [BEGIN] within the first 50 bytes, the encoded
    string itself otherwise (lines 83-92). *)
Definition key_bytes_of (candidate : string) : list byte :=
  match b64decode candidate with
  | Some decoded =>
      if negb (bytes_in (bytes_lit "BEGIN") (take 50 decoded)) then encode candidate
      else decoded
  | None => encode candidate
  end.

Definition write_ssh_key_if_provided (key_b64_or_raw : option string) : M (option string) :=
  if negb (truthy_str key_b64_or_raw) then ret None
  else
    let candidate := strip (text_or_empty key_b64_or_raw) in
    let key_bytes := key_bytes_of candidate in
    path <- mkstemp "git_deploy_key_" ;;
    os_write path key_bytes ;;
    os_close path ;;
    os_chmod path 384 ;;
    print_line ("Wrote temporary SSH key to " +:+ path) ;;
    ret (Some path).

Definition git_ssh_command (ssh_key_path : string) : string :=
  "ssh -i " +:+ ssh_key_path +:+ " -o StrictHostKeyChecking=no".

Definition remote_name : string := "backend_im_deploy".

Definition git_push_current_head (remote_url branch : string)
    (ssh_key_path : option string) (force : bool) : M unit :=
  env0 <- environ_copy ;;
  env <- (if truthy_str ssh_key_path then
            let gsc := git_ssh_command (text_or_empty ssh_key_path) in
            print_line ("Using GIT_SSH_COMMAND=" +:+ gsc) ;;
            ret (<["GIT_SSH_COMMAND" := gsc]> env0)
          else ret env0) ;;
  run (Argv ["git"; "remote"; "remove"; remote_name]) None false false None ;;
  run (Argv ["git"; "remote"; "add"; remote_name; remote_url]) None true false (Some env) ;;
  let push_ref := "HEAD:refs/heads/" +:+ branch in
  let push_cmd := ["git"; "push"; remote_name; push_ref] in
  let push_cmd := if force then list_insert_at 2 "--force" push_cmd else push_cmd in
  run (Argv push_cmd) None true false (Some env) ;;
  run (Argv ["git"; "remote"; "remove"; remote_name]) None false false None ;;
  ret tt.

(** Lines 140-146: one entry of the clone's working tree. *)
Definition clean_entry (tmp : string) (name : string) : M unit :=
  let p := (Path tmp ++ [name])%list in
  if String.eqb name ".git" then ret tt
  else
    d <- path_is_dir p ;;
    if d then rmtree p false else unlink p.

(** Lines 152-157: one entry of the artifact directory. *)
Definition copy_entry (tmp : string) (src : path) (name : string) : M unit :=
  let item := (src ++ [name])%list in
  let dest := (Path tmp ++ [name])%list in
  d <- path_is_dir item ;;
  if d then copytree item dest else copy2 item dest.

(** Lines 136-164: the [try] block of [git_push_artifact_dir]. *)
Definition prepare_and_push (remote_url branch artifact_dir tmp : string)
    (env : gmap string string) (commit_msg : string) (force : bool) : M unit :=
  run (Argv ["git"; "clone"; remote_url; tmp]) None true false (Some env) ;;
  run (Argv ["git"; "checkout"; "-B"; branch]) (Some tmp) true false (Some env) ;;
  names <- iterdir (Path tmp) ;;
  for_each names (clean_entry tmp) ;;
  let src := Path artifact_dir in
  present <- path_exists src ;;
  if negb present then
    raise (SystemExit [Lit ("artifact_dir " +:+ artifact_dir +:+ " does not exist")])
  else
    print_line ("Copying artifact from " +:+ artifact_dir +:+ " to temp repo...") ;;
    items <- iterdir src ;;
    for_each items (copy_entry tmp src) ;;
    run (Argv ["git"; "add"; "-A"]) (Some tmp) true false (Some env) ;;
    run (Argv ["git"; "commit"; "-m"; commit_msg]) (Some tmp) false false (Some env) ;;
    let push_cmd := ["git"; "push"; "origin"; "HEAD:refs/heads/" +:+ branch] in
    let push_cmd := if force then list_insert_at 2 "--force" push_cmd else push_cmd in
    run (Argv push_cmd) (Some tmp) true false (Some env) ;;
    ret tt.

Definition git_push_artifact_dir (remote_url branch artifact_dir : string)
    (ssh_key_path : option string) (commit_msg : string) (force : bool) : M unit :=
  env0 <- environ_copy ;;
  env <- (if truthy_str ssh_key_path then
            let gsc := git_ssh_command (text_or_empty ssh_key_path) in
            print_line ("Using GIT_SSH_COMMAND=" +:+ gsc) ;;
            ret (<["GIT_SSH_COMMAND" := gsc]> env0)
          else ret env0) ;;
  tmp <- mkdtemp "deploy_clone_" ;;
  print_line ("Cloning remote into tempdir " +:+ tmp +:+ " ...") ;;
  try_finally
    (prepare_and_push remote_url branch artifact_dir tmp env commit_msg force)
    (print_line "Cleaning up tempdir" ;;
     rmtree (Path tmp) true).

(** What one pass through the body of the polling loop decides: leave the
    function with a value, or go on with an updated [last]. *)
Inductive loop_step :=
| Return (v : value)
| Continue (last : value).

(** [j.get("status") or j.get("state") or j.get("deploy_status") or None] *)
Definition resolve_status (j : value) : M value :=
  a <- get_method j "status" ;;
  or_else a
    (b <- get_method j "state" ;;
     or_else b
       (c <- get_method j "deploy_status" ;;
        or_else c (ret VNone))).

(** [status and status.lower() in words] *)
Definition status_in (status : value) (words : list string) : M bool :=
  if truthy status then
    l <- lower_method status ;;
    ret (str_in l words)
  else ret false.

Definition exn_text (e : exn) : text :=
  match e with
  | SystemExit msg => msg
  | RequestException msg => [Lit msg]
  | Error name => [Lit name]
  end.

(** Lines 182-189: what the loop does with a decoded body. *)
Definition poll_decide (j : value) : M loop_step :=
  status <- resolve_status j ;;
  print [Lit "status ->"; Lit " "; Str status; Lit " "; Lit "payload ->"; Lit " ";
         Dumps j; Lit nl] ;;
  ok <- status_in status ["done"; "success"; "ready"] ;;
  if ok then
    print_line "Deployment finished successfully" ;;
    ret (Return j)
  else
    bad <- status_in status ["failed"; "error"] ;;
    if bad then raise (SystemExit [Lit "Deployment failed: "; Str j])
    else ret (Continue j).

(** Lines 178-191: the [try] statement inside the loop. *)
Definition poll_once (status_url : string) (headers : gmap string string)
    (last : value) : M loop_step :=
  try_except is_request_exception
    (r <- requests_get status_url headers ;;
     raise_for_status r ;;
     j <- response_json r ;;
     poll_decide j)
    (fun e =>
       print ([Lit "Status poll request error:"; Lit " "] ++ exn_text e ++ [Lit nl])%list ;;
       ret (Continue last)).

(** Lines 177-194: the [while] loop and what follows it.  [fuel] bounds
    the number of iterations the model follows. *)
Fixpoint poll_loop (fuel : nat) (status_url : string) (headers : gmap string string)
    (interval : Z) (deadline : Q) (last : value) : M value :=
  match fuel with
  | O => fun w => (Diverge, w)
  | S fuel' =>
      t <- time_time ;;
      if negb (Qle_bool deadline t) then
        step <- poll_once status_url headers last ;;
        match step with
        | Return j => ret j
        | Continue last' =>
            time_sleep interval ;;
            poll_loop fuel' status_url headers interval deadline last'
        end
      else
        print [Lit "Status poll timed out; last response:"; Lit " "; Str last; Lit nl] ;;
        ret last
  end.

Definition poll_status_url (fuel : nat) (status_url : string) (token : option string)
    (interval timeout : Z) : M value :=
  print_line ("Polling status URL: " +:+ status_url +:+ " (timeout " +:+ pretty timeout +:+ "s)") ;;
  let headers : gmap string string :=
    if truthy_str token then {["Authorization" := "Bearer " +:+ text_or_empty token]} else ∅ in
  t <- time_time ;;
  let deadline := (t + inject_Z timeout)%Q in
  poll_loop fuel status_url headers interval deadline VNone.

(** The namespace [parse_args] returns. *)
Record Args := {
  remote : string;
  branch : string;
  artifact_dir : option string;
  commit_msg : option string;
  allow_dirty : bool;
  force : bool;
  status_url : option string;
  status_timeout : Z;
  skip_poll : bool
}.

(** Lines 220-237: the [try] block of [main] after the key has been
    written. *)
Definition main_body (fuel : nat) (args : Args) (ssh_key_path : option string) : M unit :=
  (if negb (truthy_str (artifact_dir args)) then
     ensure_clean_worktree (allow_dirty args) ;;
     print_line ("Pushing current HEAD to " +:+ remote args +:+ " branch " +:+ branch args) ;;
     git_push_current_head (remote args) (branch args) ssh_key_path (force args)
   else
     msg <- (if truthy_str (commit_msg args) then ret (text_or_empty (commit_msg args))
             else stamp <- strftime_now ;; ret ("deploy: " +:+ stamp)) ;;
     git_push_artifact_dir (remote args) (branch args) (text_or_empty (artifact_dir args))
       ssh_key_path msg (force args)) ;;
  print_line ("Push to " +:+ remote args +:+ " branch " +:+ branch args +:+ " complete.") ;;
  if truthy_str (status_url args) && negb (skip_poll args) then
    token <- environ_get "BACKEND_IM_TOKEN" ;;
    poll_status_url fuel (text_or_empty (status_url args)) token 3 (status_timeout args) ;;
    ret tt
  else
    (if truthy_str (status_url args) then
       print_line "Status URL provided but polling skipped (--skip-poll set)"
     else ret tt) ;;
    print_line "Done — check Backend.im dashboard or logs for deployment status if available.".

(** Lines 241-245: the [finally] block of [main]. *)
Definition main_cleanup (ssh_key_path : option string) : M unit :=
  if truthy_str ssh_key_path then
    present <- os_path_exists (text_or_empty ssh_key_path) ;;
    if present then
      try_except is_exception (os_remove (text_or_empty ssh_key_path)) (fun _ => ret tt)
    else ret tt
  else ret tt.

(** [main], from the parsed arguments on.  [ssh_key_path] is [None] until
    the assignment at line 218 has completed, so the [finally] block sees
    [None] when writing the key raised. *)
Definition main (fuel : nat) (args : Args) : M unit :=
  fun w =>
    let git_ssh_key := or_str (environ w !! "GIT_SSH_KEY") (environ w !! "GIT_SSH_KEY_BASE64") in
    let '(written, w1) :=
      (if truthy_str git_ssh_key then write_ssh_key_if_provided git_ssh_key else ret None) w in
    let ssh_key_path := match written with Ok p => p | _ => None end in
    try_finally
      (match written with
       | Ok _ => main_body fuel args ssh_key_path
       | Raise e => raise e
       | Diverge => fun w' => (Diverge, w')
       end)
      (main_cleanup ssh_key_path) w1.

End DeployAdapter.

(** ** dagger.py *)

Module Dagger.
Import Py.

Definition run (cmd : command) (cwd : option string) (check capture : bool)
    (env : option (gmap string string)) : M completed :=
  let display := match cmd with Argv l => join " " l | Shell s => s end in
  print_line ("$ " +:+ display) ;;
  res <- subprocess_run cmd cwd capture env ;;
  if negb (returncode res =? 0)%Z && check then
    print [Lit (text_or_empty (stdout res))] ;;
    print [Lit (text_or_empty (stderr res))] ;;
    raise (SystemExit
      [Lit ("Command failed: " +:+ display +:+ " (exit " +:+ pretty (returncode res) +:+ ")")])
  else ret res.

(** [sub in s] for strings *)
Fixpoint str_contains (sub s : string) : bool :=
  String.prefix sub s || match s with EmptyString => false | String _ s' => str_contains sub s' end.

Definition docker_login_if_needed (image_ref : string) : M unit :=
  if String.prefix "ghcr.io/" image_ref then
    user <- environ_get "GHCR_USER" ;;
    token <- environ_get "GHCR_TOKEN" ;;
    if truthy_str user && truthy_str token then
      print_line "Logging in to ghcr.io..." ;;
      run (Shell ("echo " +:+ text_or_empty token +:+ " | docker login ghcr.io -u "
                  +:+ text_or_empty user +:+ " --password-stdin")) None true false None ;;
      ret tt
    else
      print_line "No GHCR credentials provided in GHCR_USER/GHCR_TOKEN — assume docker is already logged in or image is public"
  else if str_contains ":" image_ref || str_contains "/" image_ref then
    print_line "Ensure you're logged in to your container registry (docker login) if auth is required."
  else ret tt.

(** *** Library calls of the workflow *)

(** [datetime.utcnow().strftime(fmt)]: the clock as the oracle formats it;
    the script has one format, [ts%Y%m%d%H%M%S]. *)
Definition utcnow_strftime : M string := fun w => (Ok (x_strftime (ext w) (now w)), w).

Fixpoint ends_with_slash (s : string) : bool :=
  match s with
  | EmptyString => false
  | String c EmptyString => Ascii.eqb c "/"
  | String _ s' => ends_with_slash s'
  end.

(** [os.path.join(a, b)] *)
Definition path_join (a b : string) : string :=
  if String.prefix "/" b then b
  else if String.eqb a EmptyString || ends_with_slash a then a +:+ b
  else a +:+ "/" +:+ b.

(** One component in the loop of [os.path.normpath]: [initial] tells
    whether the path starts with a slash. *)
Definition norm_step (initial : bool) (new_comps : list string) (comp : string) : list string :=
  if String.eqb comp EmptyString || String.eqb comp "." then new_comps
  else if negb (String.eqb comp "..")
          || (negb initial && match new_comps with [] => true | _ => false end)
          || match last new_comps with Some l => String.eqb l ".." | None => false end
       then (new_comps ++ [comp])%list
       else removelast new_comps.

(** [os.path.normpath(path)] *)
Definition normpath (path : string) : string :=
  if String.eqb path EmptyString then "."
  else
    let initial := String.prefix "/" path in
    let slashes :=
      if String.prefix "//" path && negb (String.prefix "///" path) then "//"
      else if initial then "/" else EmptyString in
    let comps := fold_left (norm_step initial) (split_slash path EmptyString) [] in
    let p := slashes +:+ join "/" comps in
    if String.eqb p EmptyString then "." else p.

(** [os.path.abspath(path)], [cwd] being what [os.getcwd()] returns. *)
Definition abspath (cwd path : string) : string :=
  normpath (if String.prefix "/" path then path else path_join cwd path).

(** [open(p, "r", encoding="utf-8")] and reading the file to its end. *)
Definition read_file (p : string) : M (list byte) :=
  fun w =>
    match fs w !! Path p with
    | Some (File data _) => (Ok data, w)
    | Some Dir => (Raise (Error "IsADirectoryError"), w)
    | None => (Raise (Error "FileNotFoundError"), w)
    end.

(** [d.get(k, default)]: only a dict has the method. *)
Definition get_default (j : value) (k : string) (default : value) : M value :=
  match j with
  | VDict d => ret (match assoc k d with Some v => v | None => default end)
  | _ => raise (Error "AttributeError")
  end.

Definition is_str (s : string) (v : value) : bool :=
  match v with VStr s' => String.eqb s s' | _ => false end.

(** [s in v] for a string [s]: a key of a dict, an element of a list, a
    part of a string; other values do not support the test. *)
Definition contains (s : string) (v : value) : M bool :=
  match v with
  | VDict d => ret (bool_decide (is_Some (assoc s d)))
  | VList l => ret (existsb (is_str s) l)
  | VStr t => ret (str_contains s t)
  | _ => raise (Error "TypeError")
  end.

(** *** The steps of the workflow *)

Definition git_sha_short : M string :=
  try_except is_exception
    (out <- run (Argv ["git"; "rev-parse"; "--short"; "HEAD"]) None true true None ;;
     ret (strip (text_or_empty (stdout out))))
    (fun _ => utcnow_strftime).

(** The namespace [parse_args] returns. *)
Record Args := {
  image : string;
  target : string;
  project_dir : string;
  skip_tests : bool;
  no_push : bool
}.

Section PackageJson.

(** [json.loads] on the bytes of a file; [None] when they are not JSON. *)
Variable json_loads : list byte -> option value.

Definition json_load (data : list byte) : M value :=
  match json_loads data with
  | Some v => ret v
  | None => raise (Error "JSONDecodeError")
  end.

Definition npm_install_and_test (project_dir : string) : M unit :=
  present <- os_path_exists (path_join project_dir "package.json") ;;
  if negb present then
    raise (SystemExit [Lit "package.json not found in project root — aborting build"])
  else
    print_line "Installing npm dependencies (npm ci)..." ;;
    run (Argv ["npm"; "ci"]) (Some project_dir) true false None ;;
    data <- read_file (path_join project_dir "package.json") ;;
    pj <- json_load data ;;
    scripts <- get_default pj "scripts" (VDict []) ;;
    has_test <- contains "test" scripts ;;
    (if has_test then
       print_line "Running npm test..." ;;
       run (Argv ["npm"; "test"]) (Some project_dir) true false None ;;
       ret tt
     else print_line "No `test` script found in package.json — skipping tests") ;;
    has_build <- contains "build" scripts ;;
    if has_build then
      print_line "Running npm run build..." ;;
      run (Argv ["npm"; "run"; "build"]) (Some project_dir) true false None ;;
      ret tt
    else print_line "No `build` script found in package.json — skipping build step".

(** [main], from the parsed arguments on; [cwd] is the working directory
    of the process, which the script never changes. *)
Definition main (cwd : string) (args : Args) : M unit :=
  let project := abspath cwd (project_dir args) in
  print_line "Starting Dagger-style local workflow" ;;
  sha <- git_sha_short ;;
  let image_ref := image args +:+ ":" +:+ sha in
  docker_login_if_needed (image args) ;;
  (if negb (skip_tests args) then npm_install_and_test project
   else print_line "Skipping tests and install per --skip-tests") ;;
  run (Argv ["docker"; "build"; "-t"; image_ref; "."]) (Some project) true false None ;;
  (if no_push args then
     print_line ("Built image " +:+ image_ref +:+ " (not pushed, --no-push set)")
   else
     print_line "Pushing image to registry..." ;;
     run (Argv ["docker"; "push"; image_ref]) None true false None ;;
     ret tt) ;;
  print_line "Workflow complete." ;;
  print_line ("artifact:" +:+ image_ref).

End PackageJson.

End Dagger.

(** ** Reading traces *)

Module Trace.
Import Py.

(** The events a computation added to the log. *)
Definition new_events (w w' : World) : list Event := drop (length (log w)) (log w').

(** The child processes of a trace with their exit codes, in order. *)
Definition run_of (e : Event) : option (command * Z) :=
  match e with
  | EvRun c _ _ _ rc => Some (c, rc)
  | _ => None
  end.

Definition runs (l : list Event) : list (command * Z) := omap run_of l.

(** The line [run] prints before it starts a command. *)
Definition display (cmd : command) : string :=
  match cmd with Argv l => join " " l | Shell s => s end.

Definition echo (cmd : command) : Event := EvPrint [Lit ("$ " +:+ display cmd); Lit nl].

Definition failed_msg (cmd : command) (rc : Z) : text :=
  [Lit ("Command failed: " +:+ display cmd +:+ " (exit " +:+ pretty rc +:+ ")")].

Definition is_print (e : Event) : bool :=
  match e with EvPrint _ => true | _ => false end.

(** [w'] is [w] after the events [evs]. *)
Definition grows (w w' : World) (evs : list Event) : Prop :=
  log w' = (log w ++ evs)%list.

(** Every event [m] adds to the log satisfies [P]. *)
Definition emits {A} (P : Event -> Prop) (m : M A) : Prop :=
  forall w, exists evs, grows w (m w).2 evs /\ Forall P evs.

Definition not_a_run (e : Event) : Prop := run_of e = None.

(** What [run] can do: return the finished process, stop on its exit code
    when checking, or fail to start it. *)
Inductive run_outcome (cmd : command) (cwd : option string) (check capture : bool)
    (env : option (gmap string string)) (w : World) : result completed -> World -> Prop :=
| run_returns o fs' :
    x_run (ext w) (S (length (log w))) cmd cwd env (fs w) = (Some o, fs') ->
    (x_code o = 0 \/ check = false) ->
    run_outcome cmd cwd check capture env w
      (Ok {| returncode := x_code o;
             stdout := if capture then Some (x_out o) else None;
             stderr := if capture then Some (x_err o) else None |})
      {| environ := environ w; fs := fs';
         now := (now w + x_elapsed (ext w) (S (length (log w))))%Q;
         log := (log w ++ [echo cmd; EvRun cmd cwd env capture (x_code o)])%list;
         ext := ext w |}
| run_exits o fs' :
    x_run (ext w) (S (length (log w))) cmd cwd env (fs w) = (Some o, fs') ->
    x_code o <> 0 -> check = true ->
    run_outcome cmd cwd check capture env w
      (Raise (SystemExit (failed_msg cmd (x_code o))))
      {| environ := environ w; fs := fs';
         now := (now w + x_elapsed (ext w) (S (length (log w))))%Q;
         log := (log w ++ [echo cmd; EvRun cmd cwd env capture (x_code o);
                           EvPrint [Lit (if capture then x_out o else EmptyString)];
                           EvPrint [Lit (if capture then x_err o else EmptyString)]])%list;
         ext := ext w |}
| run_cannot_start fs' :
    x_run (ext w) (S (length (log w))) cmd cwd env (fs w) = (None, fs') ->
    run_outcome cmd cwd check capture env w
      (Raise (Error "OSError"))
      {| environ := environ w; fs := fs w; now := now w;
         log := (log w ++ [echo cmd])%list; ext := ext w |}.

(** [m] always returns or raises. *)
Definition total {A} (m : M A) : Prop := forall w, (m w).1 <> Diverge.

(** At moment [n] the operating system refuses the removal of nothing at
    or below [d]. *)
Definition removable (x : External) (n : nat) (d : path) : Prop :=
  forall q, is_prefix d q = true -> x_refused x n q = false.

Definition is_mkdtemp (e : Event) : bool :=
  match e with EvMkdtemp _ => true | _ => false end.

(** The event that deletes entry [n] of directory [d]. *)
Definition removal_of (d : path) (n : string) (e : Event) : Prop :=
  e = EvRmtree (d ++ [n])%list false \/ e = EvUnlink (d ++ [n])%list.

(** The entries of a listing that the cleaning loop deletes. *)
Definition to_clean (names : list string) : list string :=
  List.filter (fun n => negb (String.eqb n ".git")) names.

(** What the [try] block of [git_push_artifact_dir] can add to the log. *)
Definition is_prepare_event (e : Event) : bool :=
  match e with
  | EvPrint _ | EvRun _ _ _ _ _ | EvIterdir _ _ | EvRmtree _ false | EvUnlink _
  | EvCopytree _ _ | EvCopy2 _ _ => true
  | _ => false
  end.

(** The failures of a command or of a library call, as opposed to the
    messages the adapter raises itself. *)
Definition plain_failure (e : exn) : Prop :=
  (exists name, e = Error name) \/ (exists c rc, e = SystemExit (failed_msg c rc)).

Definition raises_plainly {A} (m : M A) : Prop :=
  forall w e w', m w = (Raise e, w') -> plain_failure e.

(** The first value of a list that is true, [None] when there is none. *)
Fixpoint first_truthy (l : list value) : value :=
  match l with
  | [] => VNone
  | v :: l' => if truthy v then v else first_truthy l'
  end.

Definition success_words : list string := ["done"; "success"; "ready"].
Definition failure_words : list string := ["failed"; "error"].

(** The status line the poller prints for a payload. *)
Definition status_line (status j : value) : Event :=
  EvPrint [Lit "status ->"; Lit " "; Str status; Lit " "; Lit "payload ->"; Lit " ";
           Dumps j; Lit nl].

(** *** The poller *)

Definition is_get (e : Event) : bool :=
  match e with EvGet _ _ => true | _ => false end.

(** Number of HTTP requests in a trace. *)
Definition polls (l : list Event) : nat := length (List.filter is_get l).

(** The ceiling of [a / b], for positive [b]. *)
Definition ceil_div (a b : Z) : Z := (- ((- a) / b))%Z.

(** No operation takes less time than asked. *)
Definition steady (x : External) : Prop := forall n, (0 <= x_elapsed x n)%Q.

(** The line printed when the deadline has passed. *)
Definition timed_out_line (v : value) : Event :=
  EvPrint [Lit "Status poll timed out; last response:"; Lit " "; Str v; Lit nl].

Definition success_line : Event :=
  EvPrint [Lit "Deployment finished successfully"; Lit nl].

(** [w'] differs from [w] in its log only. *)
Definition same_but_log (w w' : World) : Prop :=
  environ w' = environ w /\ fs w' = fs w /\ now w' = now w /\ ext w' = ext w.

Definition not_timed_out (e : Event) : Prop := forall v, e <> timed_out_line v.

(** [j] is a decoded body the endpoint answers at some moment. *)
Definition replied (x : External) (url : string) (headers : gmap string string)
    (j : value) : Prop :=
  exists n c, x_http x n url headers = Reply c (Some j).

(** Every fragment of a printed text is a literal. *)
Definition is_lit (f : frag) : bool :=
  match f with Lit _ => true | _ => false end.

Definition is_plain_print (e : Event) : bool :=
  match e with EvPrint t => forallb is_lit t | _ => false end.

(** The events of the poller. *)
Definition is_poll_event (e : Event) : bool :=
  match e with
  | EvPrint _ | EvGet _ _ | EvSleep _ => true
  | _ => false
  end.

End Trace.

(** ** Sample worlds *)

Module Sample.
Import Py.

Definition ok_exit : exit_info :=
  {| x_code := 0; x_out := EmptyString; x_err := EmptyString |}.

Definition exit_with (rc : Z) (err : string) : exit_info :=
  {| x_code := rc; x_out := EmptyString; x_err := err |}.

Definition pending : value := VDict [("status", VStr "pending")].

(** Every command succeeds, the endpoint keeps answering [pending],
    nothing takes longer than asked and the operating system refuses
    nothing. *)
Definition calm : External := {|
  x_run := fun _ _ _ _ f => (Some ok_exit, f);
  x_tmpdir := "/tmp";
  x_tmpname := fun _ _ => Some "k3y";
  x_http := fun _ _ _ => Reply 200 (Some pending);
  x_elapsed := fun _ => 0%Q;
  x_strftime := fun _ => "2026-01-01T00:00:00Z";
  x_refused := fun _ _ => false
|}.

Definition with_run (x : External)
    (r : nat -> command -> option string -> option (gmap string string) ->
         fsmap -> option exit_info * fsmap) : External :=
  {| x_run := r; x_tmpdir := x_tmpdir x; x_tmpname := x_tmpname x;
     x_http := x_http x; x_elapsed := x_elapsed x; x_strftime := x_strftime x;
     x_refused := x_refused x |}.

Definition with_http (x : External) (h : nat -> string -> gmap string string -> http_reply)
  : External :=
  {| x_run := x_run x; x_tmpdir := x_tmpdir x; x_tmpname := x_tmpname x;
     x_http := h; x_elapsed := x_elapsed x; x_strftime := x_strftime x;
     x_refused := x_refused x |}.

Definition with_refusals (x : External) (r : nat -> path -> bool) : External :=
  {| x_run := x_run x; x_tmpdir := x_tmpdir x; x_tmpname := x_tmpname x;
     x_http := x_http x; x_elapsed := x_elapsed x; x_strftime := x_strftime x;
     x_refused := r |}.

Definition start (env : gmap string string) (files : fsmap) (x : External) : World :=
  {| environ := env; fs := files; now := 0; log := []; ext := x |}.

Definition is_git (sub : string) (cmd : command) : bool :=
  match cmd with
  | Argv (g :: s :: _) => String.eqb g "git" && String.eqb s sub
  | _ => false
  end.

(** The push is rejected by the remote; everything else succeeds. *)
Definition push_rejected : External :=
  with_run calm (fun _ cmd _ _ f =>
    (Some (if is_git "push" cmd then exit_with 1 "remote: rejected" else ok_exit), f)).

(** [git commit] fails for want of an author identity (exit 128); there
    is something to commit. *)
Definition commit_broken : External :=
  with_run calm (fun _ cmd _ _ f =>
    (Some (if is_git "commit" cmd
           then exit_with 128 "fatal: unable to auto-detect email address"
           else ok_exit), f)).

(** A build output to deploy. *)
Definition dist_files : fsmap :=
  <[ ["dist"; "index.html"] := File (bytes_lit "<html></html>") 420 ]>
    (<[ ["dist"] := Dir ]> ∅).

(** [git clone url dir] fills [dir] with a repository: its metadata, a
    file and a source directory. *)
Definition cloning : External :=
  with_run calm (fun _ cmd _ _ f =>
    (Some ok_exit,
     match cmd with
     | Argv [_; "clone"; _; dir] =>
         <[ (Path dir ++ ["src"; "app.js"])%list := File (bytes_lit "main()") 420 ]>
           (<[ (Path dir ++ ["src"])%list := Dir ]>
              (<[ (Path dir ++ ["README.md"])%list := File (bytes_lit "# app") 420 ]>
                 (<[ (Path dir ++ [".git"])%list := Dir ]> f)))
     | _ => f
     end)).

(** Key material: a key in base64, a raw string followed by a line end,
    and the base64 of sixty [A] followed by [BEGIN]. *)
Definition key_b64 : string := "LS0tLS1CRUdJTiBLRVktLS0tLQ==".

Definition key_raw : string := "hello" +:+ nl.

Definition key_late_marker : string :=
  "QUFBQUFBQUFBQUFBQUFBQUFBQUFBQUFBQUFBQUFBQUFBQUFBQUFBQUFBQUFBQUFBQUFBQUFBQUFBQUFBQkVHSU4=".

(** A payload whose [status] is present but empty, with [state] done. *)
Definition empty_status_done : value :=
  VDict [("status", VStr EmptyString); ("state", VStr "done")].

Definition answering (j : value) : External :=
  with_http calm (fun _ _ _ => Reply 200 (Some j)).

Definition ready_state : value := VDict [("state", VStr "READY")].

Definition numeric_status : value := VDict [("status", VInt 1)].

(** The device is full: every change to a path that exists is refused. *)
Definition full_disk : External := with_refusals calm (fun _ _ => true).

(** The change of mode of the key file is refused: the third thing the
    adapter asks for, after the creation of the file and the write. *)
Definition chmod_refused : External := with_refusals calm (fun n _ => Nat.eqb n 2).

(** The key file can be written and restricted, but every later change to
    it is refused, its removal included. *)
Definition key_file_kept : External :=
  with_refusals calm (fun n p =>
    (3 <=? n)%nat
    && is_prefix p ["/"; "tmp"; "git_deploy_key_k3y"]
    && is_prefix ["/"; "tmp"; "git_deploy_key_k3y"] p).

(** The clone directory itself cannot be removed; its entries can. *)
Definition clone_kept : External :=
  with_refusals cloning (fun _ p =>
    is_prefix p ["/"; "tmp"; "deploy_clone_k3y"]
    && is_prefix ["/"; "tmp"; "deploy_clone_k3y"] p).

End Sample.

(** ** The claims as the specification words them *)

Module Stated.
Import Py.

(** C4 as stated: the decoded bytes when the input decodes and the
    decoding contains the marker, the bytes of the original input
    otherwise. *)
Definition stated_key_bytes (key : string) : list byte :=
  match b64decode key with
  | Some decoded =>
      if bytes_in (bytes_lit "BEGIN") decoded then decoded else encode key
  | None => encode key
  end.

(** C1 as stated: the first candidate field that is present wins. *)
Definition stated_status (d : list (string * value)) : value :=
  match assoc "status" d with
  | Some v => v
  | None =>
      match assoc "state" d with
      | Some v => v
      | None =>
          match assoc "deploy_status" d with
          | Some v => v
          | None => VNone
          end
      end
  end.

End Stated.

(** ** What a trace shows *)

Module Shown.
Import Py.

(** The literal text of a fragment; renderings of values are kept apart. *)
Definition lit_of (f : frag) : option string :=
  match f with Lit s => Some s | _ => None end.

(** [secret] can be read in what event [e] prints. *)
Definition shows (secret : string) (e : Event) : bool :=
  match e with
  | EvPrint t => existsb (Dagger.str_contains secret) (omap lit_of t)
  | _ => false
  end.

(** [secret] reaches the output somewhere in a trace. *)
Definition leaks (secret : string) (l : list Event) : bool := existsb (shows secret) l.

(** The shell line [docker_login_if_needed] hands to [run]. *)
Definition login_line (user token : string) : string :=
  "echo " +:+ token +:+ " | docker login ghcr.io -u " +:+ user +:+ " --password-stdin".

(** A registry account in the environment. *)
Definition ghcr_env (user token : string) : gmap string string :=
  <["GHCR_USER" := user]> (<["GHCR_TOKEN" := token]> ∅).

End Shown.

(** ** The steps of a deployment *)

Module Order.
Import Py Trace DeployAdapter.
Local Open Scope nat_scope.

(** The step a child process belongs to: the check of the working tree
    (2), the preparation of the payload in the clone (3), the push through
    a remote (4). *)
Definition run_phase (cmd : command) : option nat :=
  match cmd with
  | Argv (g :: sub :: _) =>
      if negb (String.eqb g "git") then None
      else if String.eqb sub "status" then Some 2
      else if str_in sub ["clone"; "checkout"; "add"; "commit"] then Some 3
      else if str_in sub ["remote"; "push"] then Some 4
      else None
  | _ => None
  end.

(** The step an event belongs to: writing the credential (1), the steps
    of child processes (2, 3, 4), work in the clone directory (3) and its
    removal (5), polling (6), removing the credential (7).  Lines of plain
    text belong to no step; a line that renders a value is output of the
    poller. *)
Definition phase (e : Event) : option nat :=
  match e with
  | EvPrint t => if forallb is_lit t then None else Some 6
  | EvMkstemp _ | EvWrite _ _ | EvChmod _ _ => Some 1
  | EvRun cmd _ _ _ _ => run_phase cmd
  | EvMkdtemp _ | EvIterdir _ _ | EvRmtree _ false | EvUnlink _
  | EvCopytree _ _ | EvCopy2 _ _ => Some 3
  | EvRmtree _ true => Some 5
  | EvGet _ _ | EvSleep _ => Some 6
  | EvRemove _ => Some 7
  end.

Definition phases (l : list Event) : list nat := omap phase l.

(** [e] is plain output or belongs to one of the steps [ps]. *)
Definition in_phases (ps : list nat) (e : Event) : bool :=
  match phase e with
  | Some q => existsb (Nat.eqb q) ps
  | None => is_print e
  end.

(** Whatever [m] does belongs to the steps [ps], and the steps never go
    back. *)
Definition ordered {A} (ps : list nat) (m : M A) : Prop :=
  forall w, exists evs,
    grows w (m w).2 evs
    /\ Forall (fun e => in_phases ps e = true) evs
    /\ StronglySorted le (phases evs).

(** The steps the arguments of a run allow after the credential. *)
Definition body_phases (args : Args) : list nat :=
  (if truthy_str (artifact_dir args) then [3; 4; 5] else [2; 4])
    ++ (if truthy_str (status_url args) && negb (skip_poll args) then [6] else []).

Definition main_phases (args : Args) : list nat := [1] ++ body_phases args ++ [7].

(** The key from the environment, as [main] reads it. *)
Definition git_ssh_key (w : World) : option string :=
  or_str (environ w !! "GIT_SSH_KEY") (environ w !! "GIT_SSH_KEY_BASE64").

End Order.

(** ** Sample runs of the adapter *)

Module Runs.
Import Py DeployAdapter.

(** A DirectHead deployment without polling. *)
Definition direct_head : Args :=
  {| remote := "git@backend.im:org/app.git"; branch := "main"; artifact_dir := None;
     commit_msg := None; allow_dirty := false; force := false; status_url := None;
     status_timeout := 300; skip_poll := false |}.

(** The working tree has an uncommitted change. *)
Definition dirty_tree : External :=
  Sample.with_run Sample.calm (fun _ cmd _ _ f =>
    (Some (if Sample.is_git "status" cmd
           then {| x_code := 0; x_out := " M app.js" +:+ nl; x_err := EmptyString |}
           else Sample.ok_exit), f)).

(** The same deployment, followed by six seconds of polling. *)
Definition polled : Args :=
  {| remote := "git@backend.im:org/app.git"; branch := "main"; artifact_dir := None;
     commit_msg := None; allow_dirty := false; force := false;
     status_url := Some "https://api.backend.im/v1/deploys/123";
     status_timeout := 6; skip_poll := false |}.

(** A key in the environment. *)
Definition with_key : gmap string string := {["GIT_SSH_KEY" := Sample.key_b64]}.

End Runs.

Module StatedOrder.

(** C8 as stated: the check of the working tree is the first step and the
    credential the second. *)
Definition stated_rank (q : nat) : nat :=
  match q with
  | 1%nat => 2%nat
  | 2%nat => 1%nat
  | _ => q
  end.

End StatedOrder.

(** ** Reading the poller *)

Module Polling.
Import Py Trace DeployAdapter.

(** [w] with [evs] added to its log and nothing else changed. *)
Definition logged (w : World) (evs : list Event) : World :=
  {| environ := environ w; fs := fs w; now := now w; log := (log w ++ evs)%list; ext := ext w |}.

(** A printed line other than the one that announces the timeout. *)
Definition report (e : Event) : Prop := is_print e = true /\ not_timed_out e.

(** [m] leaves the world as it is, and raises nothing the poller would
    take for a failed request. *)
Definition silent {A} (m : M A) : Prop :=
  forall w,
    (m w).2 = w
    /\ match (m w).1 with
       | Raise e => is_request_exception e = false
       | Diverge => False
       | Ok _ => True
       end.

(** The payload a status line shows. *)
Definition payload_of (e : Event) : option value :=
  match e with
  | EvPrint [Lit _; Lit _; Str _; Lit _; Lit _; Lit _; Dumps j; Lit _] => Some j
  | _ => None
  end.

(** The payload of the last status line of a trace, [before] when there
    is none. *)
Definition last_seen (before : value) (evs : list Event) : value :=
  default before (last (omap payload_of evs)).

(** The headers [poll_status_url] sends (lines 172-174). *)
Definition auth_headers (token : option string) : gmap string string :=
  if truthy_str token then {["Authorization" := "Bearer " +:+ text_or_empty token]} else ∅.

(** The world after [time.sleep(interval)] in [w]. *)
Definition slept (interval : Z) (w : World) : World :=
  tick (inject_Z interval + x_elapsed (ext w) (length (log w)))%Q (emit (EvSleep interval) w).

(** A reply that shows no terminal status: the request failed, the reply
    is an HTTP error or its body is not JSON (lines 190-191), or the body
    is an object whose status is missing or false, or is a string outside
    the words of success and of failure. *)
Definition not_terminal (r : http_reply) : bool :=
  match r with
  | TransportError _ => true
  | Reply _ None => true
  | Reply c (Some j) =>
      (400 <=? c)%Z && (c <? 600)%Z
      || match j with
         | VDict d =>
             match first_truthy [dict_get d "status"; dict_get d "state";
                                 dict_get d "deploy_status"] with
             | VStr s =>
                 negb (str_in (lower s) success_words)
                 && negb (str_in (lower s) failure_words)
             | v => negb (truthy v)
             end
         | _ => false
         end
  end.

End Polling.

(** ** Further sample worlds *)

Module More.
Import Py DeployAdapter.

(** The refusal of [ensure_clean_worktree]. *)
Definition refusal : exn :=
  SystemExit
    [Lit "Refusing to push with a dirty working tree. Commit or use --allow-dirty to override."].

(** [git status] cannot find a repository. *)
Definition no_repository : External :=
  Sample.with_run Sample.calm (fun _ cmd _ _ f =>
    (Some (if Sample.is_git "status" cmd
           then Sample.exit_with 128 "fatal: not a git repository"
           else Sample.ok_exit), f)).

(** A key made of a space and a line end. *)
Definition blank_key : string := " " +:+ nl.

(** The endpoint cannot be reached. *)
Definition unreachable : External :=
  Sample.with_http Sample.calm (fun _ _ _ => TransportError "connection refused").

End More.

(** ** Steps that precede a return *)

Module Before.
Import Py Trace.

(** [m] returns only after an event that satisfies [P]. *)
Definition achieves {A} (P : Event -> Prop) (m : M A) : Prop :=
  forall w a w', m w = (Ok a, w') -> Exists P (new_events w w').

(** A push that exited with zero. *)
Definition pushed (e : Event) : Prop :=
  exists rest cwd env, e = EvRun (Argv ("git" :: "push" :: rest)) cwd env false 0.

Definition anything (e : Event) : Prop := True.

End Before.

(** ** Reading the traces of the workflow *)

Module Workflow.
Import Py.

(** [e] starts [docker <sub> ...]. *)
Definition is_docker (sub : string) (e : Event) : bool :=
  match e with
  | EvRun (Argv (a :: b :: _)) _ _ _ _ => String.eqb a "docker" && String.eqb b sub
  | _ => false
  end.

(** [e] is not the start of [docker build] or [docker push]. *)
Definition no_docker (e : Event) : bool :=
  negb (is_docker "build" e) && negb (is_docker "push" e).

(** [e] starts npm. *)
Definition is_npm (e : Event) : bool :=
  match e with
  | EvRun (Argv (a :: _)) _ _ _ _ => String.eqb a "npm"
  | _ => false
  end.

(** A [package.json] with a test script and no build script, and a parser
    that knows it. *)
Definition dq : string := String "034" EmptyString.

Definition package_json : list byte :=
  bytes_lit ("{" +:+ dq +:+ "scripts" +:+ dq +:+ ": {" +:+ dq +:+ "test" +:+ dq +:+ ": "
             +:+ dq +:+ "jest" +:+ dq +:+ "}}").

Definition parsed : value := VDict [("scripts", VDict [("test", VStr "jest")])].

Definition loads (data : list byte) : option value :=
  if starts_with data package_json && starts_with package_json data then Some parsed else None.

Definition project_files : fsmap :=
  <[ ["/"; "srv"; "app"; "package.json"] := File package_json 420 ]>
    (<[ ["/"; "srv"; "app"] := Dir ]> ∅).

(** git answers with a commit, surrounded by whitespace. *)
Definition in_repository : External :=
  Sample.with_run Sample.calm (fun _ cmd _ _ f =>
    (Some (if Sample.is_git "rev-parse" cmd
           then {| x_code := 0; x_out := "abc1234" +:+ nl; x_err := EmptyString |}
           else Sample.ok_exit), f)).

(** The same, with tests that fail. *)
Definition tests_fail : External :=
  Sample.with_run in_repository (fun n cmd cwd env f =>
    match cmd with
    | Argv ["npm"; "test"] => (Some (Sample.exit_with 1 "1 failing"), f)
    | _ => x_run in_repository n cmd cwd env f
    end).

Definition build_only : Dagger.Args :=
  {| Dagger.image := "registry.example/app"; Dagger.target := "prod";
     Dagger.project_dir := "."; Dagger.skip_tests := true; Dagger.no_push := true |}.

Definition full : Dagger.Args :=
  {| Dagger.image := "registry.example/app"; Dagger.target := "prod";
     Dagger.project_dir := "."; Dagger.skip_tests := false; Dagger.no_push := false |}.

End Workflow.

(** ** How a run is given up *)

Module Exits.
Import Py Trace DeployAdapter.

(** The exit a command that failed causes: it is the last command of the
    trace, and its exit code is not zero. *)
Definition command_failed (msg : text) (evs : list Event) : Prop :=
  exists c rc, msg = failed_msg c rc /\ last (runs evs) = Some (c, rc) /\ rc <> 0%Z.

(** Every [SystemExit] of [m] is one of [own] or that of the last command
    run. *)
Definition exits_well {A} (own : text -> Prop) (m : M A) : Prop :=
  forall w, exists evs,
    grows w (m w).2 evs
    /\ forall msg, (m w).1 = Raise (SystemExit msg) -> own msg \/ command_failed msg evs.

(** [m] never raises [SystemExit]. *)
Definition no_exit {A} (m : M A) : Prop := forall w msg, (m w).1 <> Raise (SystemExit msg).

(** The exits the adapter raises itself. *)
Definition adapter_exit (msg : text) : Prop :=
  msg = [Lit "Refusing to push with a dirty working tree. Commit or use --allow-dirty to override."]
  \/ (exists dir, msg = [Lit ("artifact_dir " +:+ dir +:+ " does not exist")])
  \/ (exists j, msg = [Lit "Deployment failed: "; Str j]).

(** The exit the workflow raises itself. *)
Definition workflow_exit (msg : text) : Prop :=
  msg = [Lit "package.json not found in project root — aborting build"].

End Exits.

(** ** The command runner *)

Section Runner.
Import Py Trace DeployAdapter.

Lemma new_events_app (w w' : World) (evs : list Event) :
  log w' = (log w ++ evs)%list -> new_events w w' = evs.
Proof.
  intros H. unfold new_events. rewrite H. apply drop_app_length.
Qed.

Lemma run_cases cmd cwd check capture env w :
  run_outcome cmd cwd check capture env w
    (run cmd cwd check capture env w).1 (run cmd cwd check capture env w).2.
Proof.
  unfold run, bind, print_line, print, subprocess_run. simpl.
  rewrite length_app. simpl. replace (length (log w) + 1)%nat with (S (length (log w))) by lia.
  destruct (x_run (ext w) (S (length (log w))) cmd cwd env (fs w)) as [[o|] fs'] eqn:Hrun.
  - simpl. destruct (x_code o =? 0)%Z eqn:Hc; simpl.
    + apply Z.eqb_eq in Hc.
      unfold tick, emit, set_fs; simpl. rewrite <- app_assoc. simpl.
      eapply run_returns; eauto.
    + apply Z.eqb_neq in Hc. destruct check; simpl.
      * unfold tick, emit, set_fs, raise, failed_msg; simpl.
        rewrite <- !app_assoc. simpl.
        replace (text_or_empty (if capture then Some (x_out o) else None))
          with (if capture then x_out o else EmptyString) by (destruct capture; reflexivity).
        replace (text_or_empty (if capture then Some (x_err o) else None))
          with (if capture then x_err o else EmptyString) by (destruct capture; reflexivity).
        eapply run_exits; eauto.
      * unfold tick, emit, set_fs; simpl. rewrite <- app_assoc. simpl.
        eapply run_returns; eauto.
  - simpl. unfold emit. simpl. eapply run_cannot_start; eauto.
Qed.

End Runner.

Section DirectHead.
Import Py Trace DeployAdapter.

Lemma bind_run_inv {B} cmd cwd check capture env (k : completed -> M B) w r w' :
  bind (run cmd cwd check capture env) k w = (r, w') ->
  (exists res w1, run_outcome cmd cwd check capture env w (Ok res) w1 /\ k res w1 = (r, w'))
  \/ (exists e, run_outcome cmd cwd check capture env w (Raise e) w' /\ r = Raise e).
Proof.
  unfold bind. intros H.
  pose proof (run_cases cmd cwd check capture env w) as Hc.
  destruct (run cmd cwd check capture env w) as [[res|e|] w1]; simpl in Hc.
  - left. eauto.
  - right. inversion H; subst. eauto.
  - inversion Hc.
Qed.

Ltac log_eq := simpl; rewrite <- ?app_assoc; simpl; reflexivity.

(** C2, what the code does: when the push of HEAD through the temporary
    remote exits nonzero, [git_push_current_head] stops with [SystemExit]
    and the push is the last command it runs: the removal of the temporary
    remote written after the push is not attempted. *)
Theorem failed_push_skips_remote_removal
    (remote_url branch : string) (key : option string) (force : bool)
    (w w' : World) (r : result unit) (i : nat) (rest : list string) (rc : Z) :
  git_push_current_head remote_url branch key force w = (r, w') ->
  runs (new_events w w') !! i = Some (Argv ("git" :: "push" :: rest), rc) ->
  rc <> 0 ->
  (exists msg, r = Raise (SystemExit msg)) /\ length (runs (new_events w w')) = S i.
Proof.
  unfold git_push_current_head.
  intros Hrun Hpush Hrc.
  unfold bind at 1 in Hrun. unfold environ_copy in Hrun.
  unfold bind at 1 in Hrun.
  set (gsc := git_ssh_command (text_or_empty key)) in *.
  assert (exists pre env w0,
    (if truthy_str key
     then print_line ("Using GIT_SSH_COMMAND=" +:+ gsc) ;; ret (<["GIT_SSH_COMMAND" := gsc]> (environ w))
     else ret (environ w)) w = (Ok env, w0) /\ log w0 = (log w ++ pre)%list
    /\ runs pre = []) as (pre & env & w0 & Henv & Hlog0 & Hpre).
  { destruct (truthy_str key).
    - eexists [_], _, _. unfold bind, print_line, print, ret, emit. simpl. eauto.
    - eexists [], _, _. unfold ret. rewrite app_nil_r. eauto. }
  rewrite Henv in Hrun. clear Henv.
  apply bind_run_inv in Hrun as [(r1 & w1 & Q1 & Hrun)|(e & Q1 & ->)];
    inversion Q1; subst; clear Q1; try discriminate.
  2: { erewrite new_events_app in Hpush by (rewrite Hlog0; log_eq).
       unfold runs in *. rewrite omap_app in Hpush. 
       rewrite Hpre in Hpush. simpl in Hpush. destruct i; discriminate. }
  apply bind_run_inv in Hrun as [(r2 & w2 & Q2 & Hrun)|(e & Q2 & ->)];
    inversion Q2; subst; clear Q2; simpl in *.
  2, 3: erewrite new_events_app in Hpush by (rewrite Hlog0; log_eq);
       unfold runs in *; rewrite omap_app in Hpush;
       rewrite Hpre in Hpush; simpl in Hpush;
       destruct i as [|[|[|]]]; simpl in Hpush; discriminate.
  apply bind_run_inv in Hrun as [(r3 & w3 & Q3 & Hrun)|(e & Q3 & ->)];
    inversion Q3; subst; clear Q3; simpl in *.
  - (* the push returned: its exit code is zero *)
    apply bind_run_inv in Hrun as [(r4 & w4 & Q4 & Hrun)|(e & Q4 & ->)];
      inversion Q4; subst; clear Q4; simpl in *; try discriminate.
    + unfold ret in Hrun. inversion Hrun; subst; clear Hrun. simpl in *.
      erewrite new_events_app in Hpush by (rewrite Hlog0; log_eq).
      unfold runs in *; rewrite omap_app in Hpush; 
      rewrite Hpre in Hpush; simpl in Hpush.
      destruct i as [|[|[|[|]]]]; simpl in Hpush; try discriminate.
      destruct force; simpl in Hpush; inversion Hpush; subst.
      all: match goal with H : _ \/ _ |- _ => destruct H; [congruence | discriminate] end.
    + erewrite new_events_app in Hpush by (rewrite Hlog0; log_eq).
      unfold runs in *; rewrite omap_app in Hpush; 
      rewrite Hpre in Hpush; simpl in Hpush.
      destruct i as [|[|[|]]]; simpl in Hpush; try discriminate.
      destruct force; simpl in Hpush; inversion Hpush; subst.
      all: match goal with H : _ \/ _ |- _ => destruct H; [congruence | discriminate] end.
  - (* the push exited nonzero *)
    split; [eauto|].
    erewrite new_events_app in Hpush by (rewrite Hlog0; log_eq).
    erewrite new_events_app by (rewrite Hlog0; log_eq).
    unfold runs in *; rewrite omap_app in *.
    rewrite Hpre in *; simpl in *.
    destruct i as [|[|[|]]]; simpl in Hpush; try discriminate.
    reflexivity.
  - erewrite new_events_app in Hpush by (rewrite Hlog0; log_eq).
    unfold runs in *; rewrite omap_app in Hpush; 
    rewrite Hpre in Hpush; simpl in Hpush.
    destruct i as [|[|]]; simpl in Hpush; discriminate.
Qed.

(** The failing input of C2: the remote rejects the push. *)
Lemma failed_push_skips_remote_removal_witness :
  let w := Sample.start ∅ ∅ Sample.push_rejected in
  let rw := git_push_current_head "git@backend.im:org/app.git" "main" None false w in
  (exists msg, rw.1 = Raise (SystemExit msg)) /\ length (runs (new_events w rw.2)) = 3%nat.
Proof.
  intros w rw.
  apply (failed_push_skips_remote_removal "git@backend.im:org/app.git" "main" None false
           w rw.2 rw.1 2 ["backend_im_deploy"; "HEAD:refs/heads/main"] 1).
  - apply surjective_pairing.
  - vm_compute. reflexivity.
  - lia.
Defined.

Example rejected_push_commands :
  let w := Sample.start ∅ ∅ Sample.push_rejected in
  runs (new_events w (git_push_current_head "git@backend.im:org/app.git" "main" None false w).2)
  = [(Argv ["git"; "remote"; "remove"; "backend_im_deploy"], 0);
     (Argv ["git"; "remote"; "add"; "backend_im_deploy"; "git@backend.im:org/app.git"], 0);
     (Argv ["git"; "push"; "backend_im_deploy"; "HEAD:refs/heads/main"], 1)].
Proof. vm_compute. reflexivity. Qed.

End DirectHead.

(** ** Stepping through a computation *)

Section Steps.
Import Py Trace DeployAdapter.

Lemma grows_refl w : grows w w [].
Proof. unfold grows. by rewrite app_nil_r. Qed.

Lemma grows_trans w w0 w1 E E' :
  grows w w0 E -> grows w0 w1 E' -> grows w w1 (E ++ E').
Proof. unfold grows. intros -> ->. by rewrite app_assoc. Qed.

Lemma grows_new_events w w' E : grows w w' E -> new_events w w' = E.
Proof. apply new_events_app. Qed.

Lemma emits_ret {A} P (a : A) : emits P (ret a).
Proof. intros w. exists []. split; [apply grows_refl | constructor]. Qed.

Lemma emits_raise {A} P e : emits P (@raise A e).
Proof. intros w. exists []. split; [apply grows_refl | constructor]. Qed.

Lemma emits_pure {A} P (f : World -> result A) : emits P (fun w => (f w, w)).
Proof. intros w. exists []. split; [apply grows_refl | constructor]. Qed.

Lemma emits_bind {A B} P (m : M A) (k : A -> M B) :
  emits P m -> (forall a, emits P (k a)) -> emits P (bind m k).
Proof.
  intros Hm Hk w. unfold bind.
  destruct (Hm w) as (e1 & Hg1 & Hf1).
  destruct (m w) as [[a|e|] w1]; simpl in *.
  - destruct (Hk a w1) as (e2 & Hg2 & Hf2).
    exists (e1 ++ e2)%list. split; [eapply grows_trans; eauto | by apply Forall_app].
  - eauto.
  - eauto.
Qed.

Lemma emits_mono {A} (P Q : Event -> Prop) (m : M A) :
  (forall e, P e -> Q e) -> emits P m -> emits Q m.
Proof.
  intros HPQ Hm w. destruct (Hm w) as (evs & Hg & Hf).
  exists evs. split; [done | eapply Forall_impl; eauto].
Qed.

Lemma emits_one {A} P (m : M A) :
  (forall w, (m w).2 = w \/ exists e, P e /\ grows w (m w).2 [e]) -> emits P m.
Proof.
  intros H w. destruct (H w) as [->|(e & He & Hg)].
  - exists []. split; [apply grows_refl | constructor].
  - exists [e]. split; [done | by constructor].
Qed.

Lemma emits_print P t : P (EvPrint t) -> emits P (print t).
Proof. intros H. apply emits_one. intros w. right. exists (EvPrint t). by split. Qed.

Lemma emits_print_line P s : P (EvPrint [Lit s; Lit nl]) -> emits P (print_line s).
Proof. apply emits_print. Qed.

Lemma emits_path_is_dir P p : emits P (path_is_dir p).
Proof. apply emits_pure. Qed.

Lemma emits_path_exists P p : emits P (path_exists p).
Proof. apply emits_pure. Qed.

Lemma emits_rmtree P p b : P (EvRmtree p b) -> emits P (rmtree p b).
Proof.
  intros H. apply emits_one. intros w. unfold rmtree.
  destruct (fs w !! p) as [[|]|]; try destruct (blocked _ _ _); try destruct b; simpl; eauto;
    right; eexists; (split; [exact H | reflexivity]).
Qed.

Lemma emits_unlink P p : P (EvUnlink p) -> emits P (unlink p).
Proof.
  intros H. apply emits_one. intros w. unfold unlink.
  destruct (fs w !! p) as [[|]|]; try destruct (refused p w); simpl; eauto.
  right; eexists; (split; [exact H | reflexivity]).
Qed.

Lemma emits_copytree P src dst : P (EvCopytree src dst) -> emits P (copytree src dst).
Proof.
  intros H. apply emits_one. intros w. unfold copytree.
  destruct (fs w !! src) as [[|]|]; simpl; eauto.
  destruct (fs w !! dst); try destruct (refused dst w); simpl; eauto.
  right; eexists; (split; [exact H | reflexivity]).
Qed.

Lemma emits_copy2 P src dst : P (EvCopy2 src dst) -> emits P (copy2 src dst).
Proof.
  intros H. apply emits_one. intros w. unfold copy2.
  destruct (fs w !! src) as [[|]|]; simpl; eauto.
  match goal with |- context [fs w !! parent ?t] => destruct (fs w !! parent t) as [[|]|] end;
    simpl; eauto.
  match goal with |- context [match fs w !! ?t with _ => _ end] =>
    destruct (fs w !! t) as [[|]|] eqn:?; try destruct (refused t w) end; simpl; eauto;
    right; eexists; (split; [exact H | reflexivity]).
Qed.

Lemma emits_iterdir P d : (forall names, P (EvIterdir d names)) -> emits P (iterdir d).
Proof.
  intros H. apply emits_one. intros w. unfold iterdir.
  destruct (fs w !! d) as [[|]|]; simpl; eauto.
  right; eexists; (split; [apply H | reflexivity]).
Qed.

Lemma emits_for_each {A} P (l : list A) (f : A -> M unit) :
  (forall x, emits P (f x)) -> emits P (for_each l f).
Proof.
  intros Hf. induction l as [|x l IH]; simpl.
  - apply emits_ret.
  - apply emits_bind; [apply Hf | intros _; apply IH].
Qed.

Lemma emits_run P cmd cwd check capture env :
  P (echo cmd) -> (forall s, P (EvPrint [Lit s])) ->
  (forall rc, P (EvRun cmd cwd env capture rc)) ->
  emits P (run cmd cwd check capture env).
Proof.
  intros He Hp Hr w. pose proof (run_cases cmd cwd check capture env w) as Hc.
  destruct (run cmd cwd check capture env w) as [r w']; simpl in *.
  inversion Hc; subst; eexists; (split; [reflexivity|]);
    repeat constructor; auto.
Qed.

Lemma emits_try_finally {A} P (body : M A) (fin : M unit) :
  emits P body -> emits P fin -> emits P (try_finally body fin).
Proof.
  intros Hb Hf w. unfold try_finally.
  destruct (Hb w) as (e1 & Hg1 & Hf1).
  destruct (body w) as [rb wb]; simpl in *.
  destruct (Hf wb) as (e2 & Hg2 & Hf2).
  destruct rb; [| |by eauto];
    destruct (fin wb) as [[| |] wf]; simpl in *;
    exists (e1 ++ e2)%list; (split; [eapply grows_trans; eassumption | by apply Forall_app]).
Qed.

Lemma emits_try_except {A} P catches (body : M A) (handler : exn -> M A) :
  emits P body -> (forall e, emits P (handler e)) -> emits P (try_except catches body handler).
Proof.
  intros Hb Hh w. unfold try_except.
  destruct (Hb w) as (e1 & Hg1 & Hf1).
  destruct (body w) as [[a|e|] wb]; simpl in *; eauto.
  destruct (catches e); simpl; eauto.
  destruct (Hh e wb) as (e2 & Hg2 & Hf2).
  exists (e1 ++ e2)%list; split; [eapply grows_trans; eauto | by apply Forall_app].
Qed.

End Steps.

Section StepLemmas.
Import Py Trace DeployAdapter.

Lemma step_run {B} c cwd chk cap env (k : completed -> M B) w w0 E r w' :
  grows w w0 E ->
  bind (run c cwd chk cap env) k w0 = (r, w') ->
  (exists res w1,
      grows w w1 (E ++ [echo c; EvRun c cwd env cap (returncode res)])
      /\ (chk = true -> returncode res = 0)
      /\ fs w1 = (x_run (ext w0) (S (length (log w0))) c cwd env (fs w0)).2
      /\ ext w1 = ext w0 /\ environ w1 = environ w0
      /\ k res w1 = (r, w'))
  \/ (exists rc out err,
      chk = true /\ rc <> 0 /\ r = Raise (SystemExit (failed_msg c rc))
      /\ grows w w' (E ++ [echo c; EvRun c cwd env cap rc; EvPrint [Lit out]; EvPrint [Lit err]]))
  \/ (r = Raise (Error "OSError") /\ grows w w' (E ++ [echo c])).
Proof.
  intros Hg Hb. apply bind_run_inv in Hb as [(res & w1 & Q & Hk)|(e & Q & ->)];
    inversion Q; subst; clear Q.
  - left. eexists _, _. split_and!; revgoals; [exact Hk|done|done| | |].
    + simpl. match goal with H : x_run _ _ _ _ _ _ = _ |- _ => by rewrite H end.
    + simpl. intros ->. match goal with H : _ \/ _ |- _ => destruct H; [done|discriminate] end.
    + eapply grows_trans; [exact Hg|reflexivity].
  - right. left. eexists _, _, _. repeat split; try done.
    eapply grows_trans; [exact Hg|reflexivity].
  - right. right. split; [done|]. eapply grows_trans; [exact Hg|reflexivity].
Qed.

Lemma step_print {B} t (k : unit -> M B) w w0 E r w' :
  grows w w0 E ->
  bind (print t) k w0 = (r, w') ->
  exists w1, grows w w1 (E ++ [EvPrint t]) /\ fs w1 = fs w0 /\ ext w1 = ext w0
             /\ environ w1 = environ w0 /\ k tt w1 = (r, w').
Proof.
  intros Hg Hb. unfold bind, print in Hb. simpl in Hb.
  exists (emit (EvPrint t) w0). split; [eapply grows_trans; [exact Hg|reflexivity]|]. by simpl.
Qed.

Lemma step_quiet {A B} (m : M A) (k : A -> M B) w w0 E r w' :
  emits not_a_run m ->
  grows w w0 E ->
  bind m k w0 = (r, w') ->
  exists evs, runs evs = [] /\
    ((exists a w1, m w0 = (Ok a, w1) /\ grows w w1 (E ++ evs) /\ k a w1 = (r, w'))
     \/ (grows w w' (E ++ evs) /\ forall a, r <> Ok a)).
Proof.
  intros Hm Hg Hb. destruct (Hm w0) as (evs & Hg0 & Hf).
  exists evs. split.
  { clear -Hf. induction Hf as [|e l He _ IH]; [done|].
    unfold runs in *. simpl. rewrite He. exact IH. }
  unfold bind in Hb. destruct (m w0) as [[a|e|] w1]; simpl in *.
  - left. eexists _, _. split; [done|]. split; [eapply grows_trans; eauto|done].
  - right. inversion Hb; subst. split; [eapply grows_trans; eauto|done].
  - right. inversion Hb; subst. split; [eapply grows_trans; eauto|done].
Qed.

Lemma try_finally_inv {A} (body : M A) (fin : M unit) w r w' :
  try_finally body fin w = (r, w') ->
  exists rb wb, body w = (rb, wb) /\
    ((rb = Diverge /\ r = Diverge /\ w' = wb)
     \/ (rb <> Diverge /\ exists rf, fin wb = (rf, w') /\
         r = match rf with Ok _ => rb | Raise e => Raise e | Diverge => Diverge end)).
Proof.
  unfold try_finally. intros H.
  destruct (body w) as [rb wb]. exists rb, wb. split; [done|].
  destruct rb.
  - right. split; [done|]. destruct (fin wb) as [[| |] wf]; inversion H; subst; eexists; eauto.
  - right. split; [done|]. destruct (fin wb) as [[| |] wf]; inversion H; subst; eexists; eauto.
  - left. by inversion H.
Qed.

Lemma remove_tree_root (f : fsmap) (p : path) : remove_tree f p !! p = None.
Proof.
  unfold remove_tree. apply map_lookup_filter_None. right.
  intros x _. simpl.
  assert (is_prefix p p = true) as ->; [|done].
  induction p as [|a p IH]; simpl; [done|].
  by rewrite String.eqb_refl.
Qed.

Lemma not_blocked (f : fsmap) (no : path -> bool) (d : path) :
  (forall q, is_prefix d q = true -> no q = false) -> blocked f no d = false.
Proof.
  intros H. unfold blocked. induction ((map_to_list f).*1) as [|k l IH]; [done|].
  simpl. rewrite IH, orb_false_r.
  destruct (is_prefix d k) eqn:E; [|done]. by rewrite (H k E).
Qed.

(** The [finally] block of [git_push_artifact_dir] cannot fail: it prints
    its line and calls [rmtree], after which the directory is gone unless
    the operating system refused the removal of it or of something in
    it. *)
Lemma clone_cleanup_ok (tmp : string) w :
  exists w', (print_line "Cleaning up tempdir" ;; rmtree (Path tmp) true) w = (Ok tt, w')
    /\ grows w w' [EvPrint [Lit "Cleaning up tempdir"; Lit nl]; EvRmtree (Path tmp) true]
    /\ ext w' = ext w
    /\ (removable (ext w) (S (length (log w))) (Path tmp) ->
        fs w' !! Path tmp <> Some Dir).
Proof.
  unfold bind, print_line, print, rmtree. simpl.
  destruct (fs w !! Path tmp) as [[|]|] eqn:Hl; simpl.
  - eexists. repeat split; simpl; try done.
    + unfold grows. simpl. by rewrite <- app_assoc.
    + by rewrite Hl.
  - destruct (blocked _ _ _) eqn:Hb; simpl; eexists; repeat split; simpl; try done.
    + unfold grows. simpl. by rewrite <- app_assoc.
    + intros Hr. exfalso. rewrite not_blocked in Hb; [done|].
      intros q Hq. unfold refused. simpl. rewrite length_app. simpl.
      rewrite Nat.add_1_r. by apply Hr.
    + unfold grows. simpl. by rewrite <- app_assoc.
    + intros _. by rewrite remove_tree_root.
  - eexists. repeat split; simpl; try done.
    + unfold grows. simpl. by rewrite <- app_assoc.
    + by rewrite Hl.
Qed.

End StepLemmas.

(** ** Tactics for reading a trace *)

Import Py Trace.

Ltac quiet_runs :=
  unfold runs in *; simpl in *; rewrite ?omap_app in *; simpl in *;
  repeat match goal with
         | Hq : omap run_of ?l = [] |- _ => progress (rewrite ?Hq in * |-)
         | Hq : omap run_of ?l = [] |- _ => progress (rewrite ?Hq)
         end;
  simpl in *.

(** At the end of a path through [git_push_artifact_dir]: the whole
    trace is known, up to stretches without child processes. *)
Ltac whole_trace_of w w' :=
  match goal with
  | Hg : grows w ?wb _, Hgf : grows ?wb w' _ |- _ =>
      let Hall := fresh "Hall" in
      pose proof (grows_trans _ _ _ _ _ Hg Hgf) as Hall;
      rewrite ?(grows_new_events _ _ _ Hall) in *; clear Hall
  | Hg : grows w w' _ |- _ =>
      rewrite ?(grows_new_events _ _ _ Hg) in *
  end.

Ltac whole_trace :=
  match goal with
  | |- context [new_events ?w ?w'] => whole_trace_of w w'
  | H : context [new_events ?w ?w'] |- _ => whole_trace_of w w'
  end;
  quiet_runs.

(** ** ArtifactDir mode *)

Section ArtifactDir.
Import Py Trace DeployAdapter.

Lemma emits_mkdtemp P prefix : (forall p, P (EvMkdtemp p)) -> emits P (mkdtemp prefix).
Proof.
  intros H. apply emits_one. intros w. unfold mkdtemp.
  destruct (x_tmpname (ext w) (length (log w)) prefix); simpl; eauto.
  destruct (fs w !! _); simpl; eauto.
  right. eexists. split; [apply H|reflexivity].
Qed.

Lemma emits_clean_entry P tmp name :
  (forall p, P (EvRmtree p false)) -> (forall p, P (EvUnlink p)) -> emits P (clean_entry tmp name).
Proof.
  intros H1 H2. unfold clean_entry. destruct (String.eqb name ".git").
  - apply emits_ret.
  - apply emits_bind; [apply emits_path_is_dir|].
    intros []; [by apply emits_rmtree | by apply emits_unlink].
Qed.

Lemma emits_copy_entry P tmp src name :
  (forall a b, P (EvCopytree a b)) -> (forall a b, P (EvCopy2 a b)) ->
  emits P (copy_entry tmp src name).
Proof.
  intros H1 H2. unfold copy_entry.
  apply emits_bind; [apply emits_path_is_dir|].
  intros []; [by apply emits_copytree | by apply emits_copy2].
Qed.

(** The environment handed to git: announcing it is the only effect. *)
Lemma emits_git_env P (key : option string) (env0 : gmap string string) :
  (forall s, P (EvPrint [Lit s; Lit nl])) ->
  emits P (if truthy_str key then
             let gsc := git_ssh_command (text_or_empty key) in
             print_line ("Using GIT_SSH_COMMAND=" +:+ gsc) ;;
             ret (<["GIT_SSH_COMMAND" := gsc]> env0)
           else ret env0).
Proof.
  intros H. destruct (truthy_str key).
  - apply emits_bind; [by apply emits_print_line | intros; apply emits_ret].
  - apply emits_ret.
Qed.

Lemma artifact_finally_inv {A} (body : M A) (tmp : string) w r w' :
  try_finally body (print_line "Cleaning up tempdir" ;; rmtree (Path tmp) true) w = (r, w') ->
  exists wb fevs, body w = (r, wb) /\ grows wb w' fevs /\ runs fevs = []
    /\ (r <> Diverge ->
        (removable (ext w') (pred (length (log w'))) (Path tmp) ->
         fs w' !! Path tmp <> Some Dir)
        /\ fevs = [EvPrint [Lit "Cleaning up tempdir"; Lit nl]; EvRmtree (Path tmp) true]).
Proof.
  intros H. apply try_finally_inv in H as (rb & wb & Hb & [(-> & -> & ->)|(Hnd & rf & Hf & ->)]).
  - exists wb, []. split; [done|]. split; [apply grows_refl|]. by split.
  - destruct (clone_cleanup_ok tmp wb) as (w2 & Hc & Hg & Hx & Hfs).
    rewrite Hc in Hf. inversion Hf; subst.
    eexists wb, _. split; [done|]. split; [exact Hg|]. split; [done|]. intros _.
    split; [|done]. rewrite Hx, Hg, length_app. simpl.
    replace (pred (length (log wb) + 2)) with (S (length (log wb))) by lia. exact Hfs.
Qed.

(** C3, as the code has it: the commit is run without checking its exit
    code, so whatever that code is, the adapter goes on to the push (which
    then runs, unless git cannot be started at all). *)
Theorem commit_exit_code_is_ignored
    (remote_url branch artifact_dir : string) (key : option string) (msg : string)
    (force : bool) (w w' : World) (r : result unit) (i : nat) (rc : Z) :
  git_push_artifact_dir remote_url branch artifact_dir key msg force w = (r, w') ->
  runs (new_events w w') !! i = Some (Argv ["git"; "commit"; "-m"; msg], rc) ->
  (exists rc',
      runs (new_events w w') !! S i =
      Some (Argv (if force
                  then ["git"; "push"; "--force"; "origin"; "HEAD:refs/heads/" +:+ branch]
                  else ["git"; "push"; "origin"; "HEAD:refs/heads/" +:+ branch]), rc'))
  \/ r = Raise (Error "OSError").
Proof.
  unfold git_push_artifact_dir. intros Hrun Hi.
  unfold bind at 1 in Hrun. unfold environ_copy in Hrun.
  eapply step_quiet in Hrun;
    [|apply emits_git_env; intros; reflexivity|apply grows_refl].
  destruct Hrun as (pre & Hpre & [(env & w0 & _ & Hg0 & Hrun)|(Hg & Hne)]).
  2: { whole_trace. destruct i; discriminate. }
  eapply step_quiet in Hrun; [|apply emits_mkdtemp; intros; reflexivity|exact Hg0].
  destruct Hrun as (e1 & He1 & [(tmp & w1 & _ & Hg1 & Hrun)|(Hg & Hne)]).
  2: { whole_trace. destruct i; discriminate. }
  unfold print_line at 1 in Hrun.
  eapply step_print in Hrun; [|exact Hg1].
  destruct Hrun as (w2 & Hg2 & _ & _ & _ & Hrun).
  apply artifact_finally_inv in Hrun as (wb & fevs & Hb & Hgf & Hfq & _).
  unfold prepare_and_push in Hb.
  eapply step_run in Hb; [|exact Hg2].
  destruct Hb as [(res1 & w3 & Hg3 & _ & _ & _ & _ & Hb)|[(rc1 & o1 & x1 & _ & _ & -> & Hg)|(-> & Hg)]].
  2, 3: whole_trace; destruct i as [|[|]]; discriminate.
  eapply step_run in Hb; [|exact Hg3].
  destruct Hb as [(res2 & w4 & Hg4 & _ & _ & _ & _ & Hb)|[(rc2 & o2 & x2 & _ & _ & -> & Hg)|(-> & Hg)]].
  2, 3: whole_trace; destruct i as [|[|[|]]]; discriminate.
  eapply step_quiet in Hb; [|apply emits_iterdir; intros; reflexivity|exact Hg4].
  destruct Hb as (e2 & He2 & [(names & w5 & _ & Hg5 & Hb)|(Hg & Hne)]).
  2: { whole_trace. destruct i as [|[|[|]]]; discriminate. }
  eapply step_quiet in Hb;
    [|apply emits_for_each; intros; apply emits_clean_entry; intros; reflexivity|exact Hg5].
  destruct Hb as (e3 & He3 & [([] & w6 & _ & Hg6 & Hb)|(Hg & Hne)]).
  2: { whole_trace. destruct i as [|[|[|]]]; discriminate. }
  unfold bind at 1 in Hb. unfold path_exists at 1 in Hb.
  destruct (negb (bool_decide (is_Some (fs w6 !! Path artifact_dir)))).
  { inversion Hb; subst. whole_trace. destruct i as [|[|[|]]]; discriminate. }
  unfold print_line at 1 in Hb.
  eapply step_print in Hb; [|exact Hg6].
  destruct Hb as (w7 & Hg7 & _ & _ & _ & Hb).
  eapply step_quiet in Hb; [|apply emits_iterdir; intros; reflexivity|exact Hg7].
  destruct Hb as (e4 & He4 & [(items & w8 & _ & Hg8 & Hb)|(Hg & Hne)]).
  2: { whole_trace. destruct i as [|[|[|]]]; discriminate. }
  eapply step_quiet in Hb;
    [|apply emits_for_each; intros; apply emits_copy_entry; intros; reflexivity|exact Hg8].
  destruct Hb as (e5 & He5 & [([] & w9 & _ & Hg9 & Hb)|(Hg & Hne)]).
  2: { whole_trace. destruct i as [|[|[|]]]; discriminate. }
  eapply step_run in Hb; [|exact Hg9].
  destruct Hb as [(res3 & w10 & Hg10 & _ & _ & _ & _ & Hb)|[(rc3 & o3 & x3 & _ & _ & -> & Hg)|(-> & Hg)]].
  2, 3: whole_trace; destruct i as [|[|[|[|]]]]; discriminate.
  eapply step_run in Hb; [|exact Hg10].
  destruct Hb as [(res4 & w11 & Hg11 & _ & _ & _ & _ & Hb)|[(rc4 & o4 & x4 & Hchk & _)|(-> & Hg)]].
  2: discriminate.
  2: by right.
  eapply step_run in Hb; [|exact Hg11].
  destruct Hb as [(res5 & w12 & Hg12 & _ & _ & _ & _ & Hb)|[(rc5 & o5 & x5 & _ & _ & -> & Hg)|(-> & Hg)]].
  3: by right.
  - inversion Hb; subst. left. whole_trace.
    destruct force; destruct i as [|[|[|[|[|]]]]]; simpl in *; try discriminate; eauto.
  - left. whole_trace.
    destruct force; destruct i as [|[|[|[|[|]]]]]; simpl in *; try discriminate; eauto.
Qed.



Lemma commit_exit_code_is_ignored_witness :
  let w := Sample.start ∅ Sample.dist_files Sample.commit_broken in
  let rw := git_push_artifact_dir "git@backend.im:org/app.git" "main" "dist" None
              "deploy" false w in
  (exists rc',
      runs (new_events w rw.2) !! 4%nat =
      Some (Argv ["git"; "push"; "origin"; "HEAD:refs/heads/main"], rc'))
  \/ rw.1 = Raise (Error "OSError").
Proof.
  intros w rw.
  apply (commit_exit_code_is_ignored "git@backend.im:org/app.git" "main" "dist" None
           "deploy" false w rw.2 rw.1 3 128).
  - apply surjective_pairing.
  - vm_compute. reflexivity.
Defined.

(** C3 as stated fails: a commit that fails for another reason than an
    empty change set (exit 128, no author identity) does not abort the run;
    the adapter pushes and returns normally. *)
Lemma commit_failure_does_not_abort :
  let w := Sample.start ∅ Sample.dist_files Sample.commit_broken in
  let rw := git_push_artifact_dir "git@backend.im:org/app.git" "main" "dist" None
              "deploy" false w in
  (x_run Sample.commit_broken 0 (Argv ["git"; "commit"; "-m"; "deploy"]) None None ∅).1
    = Some (Sample.exit_with 128 "fatal: unable to auto-detect email address")
  /\ rw.1 = Ok tt
  /\ runs (new_events w rw.2)
     = [(Argv ["git"; "clone"; "git@backend.im:org/app.git"; "/tmp/deploy_clone_k3y"], 0);
        (Argv ["git"; "checkout"; "-B"; "main"], 0);
        (Argv ["git"; "add"; "-A"], 0);
        (Argv ["git"; "commit"; "-m"; "deploy"], 128);
        (Argv ["git"; "push"; "origin"; "HEAD:refs/heads/main"], 0)].
Proof. vm_compute. repeat split. Qed.

End ArtifactDir.

(** ** Termination of the loop-free parts *)

Section Totality.
Import Py Trace DeployAdapter.

Lemma total_ret {A} (a : A) : total (ret a).
Proof. intros w. discriminate. Qed.

Lemma total_raise {A} e : total (@raise A e).
Proof. intros w. discriminate. Qed.

Lemma total_bind {A B} (m : M A) (k : A -> M B) :
  total m -> (forall a, total (k a)) -> total (bind m k).
Proof.
  intros Hm Hk w. unfold bind. specialize (Hm w).
  destruct (m w) as [[a|e|] w1]; simpl in *; [apply Hk|discriminate|done].
Qed.

Lemma total_for_each {A} (l : list A) (f : A -> M unit) :
  (forall x, total (f x)) -> total (for_each l f).
Proof.
  intros Hf. induction l as [|x l IH]; simpl; [apply total_ret|].
  apply total_bind; [apply Hf | intros _; apply IH].
Qed.

Lemma total_try_finally {A} (body : M A) (fin : M unit) :
  total body -> total fin -> total (try_finally body fin).
Proof.
  intros Hb Hf w. unfold try_finally. specialize (Hb w).
  destruct (body w) as [[a|e|] wb]; simpl in *; [| |done];
    specialize (Hf wb); destruct (fin wb) as [[| |] wf]; simpl in *; done.
Qed.

Lemma total_try_except {A} catches (body : M A) (handler : exn -> M A) :
  total body -> (forall e, total (handler e)) -> total (try_except catches body handler).
Proof.
  intros Hb Hh w. unfold try_except. specialize (Hb w).
  destruct (body w) as [[a|e|] wb]; simpl in *; try done.
  destruct (catches e); [apply Hh|done].
Qed.

Ltac total_by_cases :=
  intros w; cbv beta delta [print print_line environ_get environ_copy subprocess_run mkstemp
    mkdtemp os_write os_close os_chmod os_path_exists os_remove path_exists path_is_dir
    iterdir rmtree unlink copytree copy2 time_time time_sleep strftime_now requests_get
    raise_for_status response_json get_method lower_method ret raise];
  repeat first [progress cbv zeta | case_match]; simpl; discriminate.

Lemma total_print t : total (print t).
Proof. total_by_cases. Qed.
Lemma total_print_line s : total (print_line s).
Proof. total_by_cases. Qed.
Lemma total_environ_get k : total (environ_get k).
Proof. total_by_cases. Qed.
Lemma total_environ_copy : total environ_copy.
Proof. total_by_cases. Qed.
Lemma total_subprocess_run c cwd cap env : total (subprocess_run c cwd cap env).
Proof.
  intros w. unfold subprocess_run. simpl.
  destruct (x_run (ext w) (length (log w)) c cwd env (fs w)) as [[o|] f]; discriminate.
Qed.
Lemma total_mkstemp p : total (mkstemp p).
Proof. total_by_cases. Qed.
Lemma total_mkdtemp p : total (mkdtemp p).
Proof. total_by_cases. Qed.
Lemma total_os_write p d : total (os_write p d).
Proof. total_by_cases. Qed.
Lemma total_os_close p : total (os_close p).
Proof. total_by_cases. Qed.
Lemma total_os_chmod p m : total (os_chmod p m).
Proof. total_by_cases. Qed.
Lemma total_os_path_exists p : total (os_path_exists p).
Proof. total_by_cases. Qed.
Lemma total_os_remove p : total (os_remove p).
Proof. total_by_cases. Qed.
Lemma total_path_exists p : total (path_exists p).
Proof. total_by_cases. Qed.
Lemma total_path_is_dir p : total (path_is_dir p).
Proof. total_by_cases. Qed.
Lemma total_iterdir p : total (iterdir p).
Proof. total_by_cases. Qed.
Lemma total_rmtree p b : total (rmtree p b).
Proof. total_by_cases. Qed.
Lemma total_unlink p : total (unlink p).
Proof. total_by_cases. Qed.
Lemma total_copytree a b : total (copytree a b).
Proof. total_by_cases. Qed.
Lemma total_copy2 a b : total (copy2 a b).
Proof. total_by_cases. Qed.
Lemma total_time_sleep s : total (time_sleep s).
Proof. total_by_cases. Qed.
Lemma total_requests_get u h : total (requests_get u h).
Proof. total_by_cases. Qed.

Lemma total_run c cwd chk cap env : total (run c cwd chk cap env).
Proof.
  intros w. pose proof (run_cases c cwd chk cap env w) as H.
  destruct (run c cwd chk cap env w) as [r w']. simpl in *. inversion H; discriminate.
Qed.

Lemma total_clean_entry tmp n : total (clean_entry tmp n).
Proof.
  unfold clean_entry. destruct (String.eqb n ".git"); [apply total_ret|].
  apply total_bind; [apply total_path_is_dir|]. intros []; [apply total_rmtree|apply total_unlink].
Qed.

Lemma total_copy_entry tmp src n : total (copy_entry tmp src n).
Proof.
  unfold copy_entry. apply total_bind; [apply total_path_is_dir|].
  intros []; [apply total_copytree|apply total_copy2].
Qed.

Lemma total_prepare_and_push remote_url branch artifact_dir tmp env msg force :
  total (prepare_and_push remote_url branch artifact_dir tmp env msg force).
Proof.
  unfold prepare_and_push.
  repeat first
    [ apply total_ret | apply total_raise | apply total_run | apply total_iterdir
    | apply total_path_exists | apply total_print_line
    | apply total_for_each; intros; first [apply total_clean_entry|apply total_copy_entry]
    | apply total_bind; [|intros ?]
    | match goal with |- total (if ?b then _ else _) => destruct b end ].
Qed.

End Totality.

(** ** The ephemeral clone *)

Section EphemeralClone.
Import Py Trace DeployAdapter.

Lemma step_emits {A B} P (m : M A) (k : A -> M B) w w0 E r w' :
  emits P m ->
  grows w w0 E ->
  bind m k w0 = (r, w') ->
  exists evs, Forall P evs /\
    ((exists a w1, m w0 = (Ok a, w1) /\ grows w w1 (E ++ evs) /\ k a w1 = (r, w'))
     \/ (grows w w' (E ++ evs) /\
         ((exists e, r = Raise e /\ m w0 = (Raise e, w')) \/ (r = Diverge /\ m w0 = (Diverge, w'))))).
Proof.
  intros Hm Hg Hb. destruct (Hm w0) as (evs & Hg0 & Hf).
  exists evs. split; [done|].
  unfold bind in Hb. destruct (m w0) as [[a|e|] w1]; simpl in *.
  - left. eexists _, _. split; [done|]. split; [eapply grows_trans; eauto|done].
  - right. inversion Hb; subst. split; [eapply grows_trans; eauto|]. left. eauto.
  - right. inversion Hb; subst. split; [eapply grows_trans; eauto|]. right. eauto.
Qed.

Lemma step_mkdtemp {B} prefix (k : string -> M B) w w0 E r w' :
  grows w w0 E ->
  bind (mkdtemp prefix) k w0 = (r, w') ->
  (exists tmp w1, grows w w1 (E ++ [EvMkdtemp (Path tmp)])
      /\ fs w0 !! Path tmp = None /\ fs w1 = <[Path tmp := Dir]> (fs w0)
      /\ ext w1 = ext w0 /\ environ w1 = environ w0 /\ k tmp w1 = (r, w'))
  \/ (exists name, r = Raise (Error name) /\ w' = w0).
Proof.
  intros Hg Hb. unfold bind, mkdtemp in Hb.
  destruct (x_tmpname (ext w0) (length (log w0)) prefix) as [random|].
  - simpl in Hb.
    destruct (fs w0 !! Path (temp_path (x_tmpdir (ext w0)) prefix random)) eqn:Hl.
    + right. inversion Hb; subst. eauto.
    + left. eexists _, _. split_and!; revgoals; [exact Hb|done|done|done|done|].
      eapply grows_trans; [exact Hg|reflexivity].
  - right. inversion Hb; subst. eauto.
Qed.

Lemma step_iterdir {B} d (k : list string -> M B) w w0 E r w' :
  grows w w0 E ->
  bind (iterdir d) k w0 = (r, w') ->
  (exists w1, grows w w1 (E ++ [EvIterdir d (children (fs w0) d)])
      /\ fs w1 = fs w0 /\ ext w1 = ext w0 /\ environ w1 = environ w0
      /\ k (children (fs w0) d) w1 = (r, w'))
  \/ (exists name, r = Raise (Error name) /\ w' = w0).
Proof.
  intros Hg Hb. unfold bind, iterdir in Hb.
  destruct (fs w0 !! d) as [[|]|]; simpl in Hb.
  - right. inversion Hb; subst. eauto.
  - left. eexists. split_and!; revgoals; [exact Hb|done|done|done|].
    eapply grows_trans; [exact Hg|reflexivity].
  - right. inversion Hb; subst. eauto.
Qed.

(** The cleaning loop, when it completes, has deleted every entry of the
    listing except [.git], one after the other. *)
Lemma clean_loop_ok tmp names w w' :
  for_each names (clean_entry tmp) w = (Ok tt, w') ->
  exists evs, grows w w' evs /\ Forall2 (removal_of (Path tmp)) (to_clean names) evs.
Proof.
  revert w. induction names as [|n names IH]; intros w H; simpl in H.
  - inversion H; subst. exists []. split; [apply grows_refl|constructor].
  - unfold bind in H. unfold clean_entry at 1 in H. unfold to_clean. simpl.
    destruct (String.eqb n ".git") eqn:Hn; simpl in *.
    + apply IH in H as (evs & Hg & Hf). eauto.
    + unfold bind, path_is_dir, rmtree, unlink in H. simpl in H.
      match type of H with
      | context [match ?x with Some _ => _ | None => _ end] =>
          destruct x as [[|]|] eqn:Hl
      end; simpl in H; rewrite ?Hl in H; simpl in H; try discriminate;
        match type of H with
        | context [if ?c then _ else _] => destruct c
        end; simpl in H; try discriminate;
        apply IH in H as (evs & Hg & Hf);
        eexists (_ :: evs); (split; [refine (grows_trans _ _ _ [_] _ _ Hg); reflexivity|]);
        (constructor; [|exact Hf]); [by right | by left].
Qed.

Lemma emits_prepare_and_push remote_url branch artifact_dir tmp env msg force :
  emits (fun e => is_prepare_event e = true)
    (prepare_and_push remote_url branch artifact_dir tmp env msg force).
Proof.
  unfold prepare_and_push.
  repeat first
    [ apply emits_ret | apply emits_raise
    | apply emits_run; intros; reflexivity
    | apply emits_iterdir; intros; reflexivity
    | apply emits_path_exists
    | apply emits_print_line; reflexivity
    | apply emits_for_each; intros;
        first [apply emits_clean_entry; intros; reflexivity | apply emits_copy_entry; intros; reflexivity]
    | apply emits_bind; [|intros ?]
    | match goal with |- emits _ (if ?b then _ else _) => destruct b end ].
Qed.

Lemma git_env_returns (key : option string) (env0 : gmap string string) w :
  exists env w1,
    (if truthy_str key then
       let gsc := git_ssh_command (text_or_empty key) in
       print_line ("Using GIT_SSH_COMMAND=" +:+ gsc) ;;
       ret (<["GIT_SSH_COMMAND" := gsc]> env0)
     else ret env0) w = (Ok env, w1)
    /\ fs w1 = fs w /\ ext w1 = ext w /\ environ w1 = environ w.
Proof.
  destruct (truthy_str key); eexists _, _;
    (split; [unfold bind, print_line, print, ret; simpl; reflexivity|done]).
Qed.

(** C7, as the code has it: however [git_push_artifact_dir] ends, if it
    created the clone directory then its last act is to call [rmtree] on
    that directory with errors ignored, and the function never fails to
    end.  The directory is gone afterwards unless the operating system
    refused the removal of it or of something in it, which [rmtree]
    passes over in silence.  (When no directory could be created, nothing
    but the announcement of the ssh command has happened.) *)
Theorem clone_dir_removal_is_the_last_act
    (remote_url branch artifact_dir : string) (key : option string) (msg : string)
    (force : bool) (w : World) :
  let rw := git_push_artifact_dir remote_url branch artifact_dir key msg force w in
  rw.1 <> Diverge /\
  ((Forall (fun e => is_print e = true) (new_events w rw.2)
    /\ exists name, rw.1 = Raise (Error name))
   \/ exists tmp pre mid,
        new_events w rw.2 =
          (pre ++ [EvMkdtemp (Path tmp)] ++ mid ++
           [EvPrint [Lit "Cleaning up tempdir"; Lit nl]; EvRmtree (Path tmp) true])%list
        /\ Forall (fun e => is_print e = true) pre
        /\ Forall (fun e => is_mkdtemp e = false) mid
        /\ (removable (ext rw.2) (pred (length (log rw.2))) (Path tmp) ->
            fs rw.2 !! Path tmp <> Some Dir)).
Proof.
  intros rw. subst rw.
  destruct (git_push_artifact_dir remote_url branch artifact_dir key msg force w)
    as [r w'] eqn:Hrun. simpl.
  unfold git_push_artifact_dir in Hrun.
  unfold bind at 1 in Hrun. unfold environ_copy in Hrun.
  eapply (step_emits (fun e => is_print e = true)) in Hrun;
    [|apply emits_git_env; intros; reflexivity|apply grows_refl].
  destruct Hrun as (pre & Hpre & [(env & w0 & _ & Hg0 & Hrun)|(_ & [(e & _ & Hbad)|(_ & Hbad)])]).
  2, 3: destruct (truthy_str key); unfold bind, print_line, print, ret in Hbad;
    simpl in Hbad; discriminate.
  simpl in Hg0.
  eapply step_mkdtemp in Hrun; [|exact Hg0].
  destruct Hrun as [(tmp & w1 & Hg1 & _ & _ & _ & _ & Hrun)|(name & -> & ->)].
  2: { split; [done|]. left. rewrite (grows_new_events _ _ _ Hg0). eauto. }
  unfold print_line at 1 in Hrun.
  eapply step_print in Hrun; [|exact Hg1].
  destruct Hrun as (w2 & Hg2 & _ & _ & _ & Hrun).
  apply artifact_finally_inv in Hrun as (wb & fevs & Hb & Hgf & _ & Hend).
  pose proof (total_prepare_and_push remote_url branch artifact_dir tmp env msg force w2) as Ht.
  destruct (emits_prepare_and_push remote_url branch artifact_dir tmp env msg force w2)
    as (mid & Hgm & Hmid).
  rewrite Hb in Ht, Hgm. simpl in Ht, Hgm.
  destruct (Hend Ht) as (Hgone & ->).
  split; [done|]. right.
  exists tmp, pre,
    (EvPrint [Lit ("Cloning remote into tempdir " +:+ tmp +:+ " ..."); Lit nl] :: mid).
  split_and!.
  - rewrite (grows_new_events _ _ _
               (grows_trans _ _ _ _ _ (grows_trans _ _ _ _ _ Hg2 Hgm) Hgf)).
    simpl. rewrite <- !app_assoc. reflexivity.
  - done.
  - constructor; [done|]. eapply Forall_impl; [exact Hmid|].
    intros []; simpl; congruence.
  - exact Hgone.
Qed.

(** C7 as stated fails: when the operating system refuses the removal of
    the clone directory, [rmtree] empties it and says nothing of the
    failure, the function returns as if all were well, and the directory
    is still there. *)
Lemma refused_removal_leaves_the_clone :
  let w := Sample.start ∅ Sample.dist_files Sample.clone_kept in
  let rw := git_push_artifact_dir "git@backend.im:org/app.git" "main" "dist" None
              "deploy" false w in
  rw.1 = Ok tt
  /\ last (new_events w rw.2) = Some (EvRmtree ["/"; "tmp"; "deploy_clone_k3y"] true)
  /\ fs rw.2 !! ["/"; "tmp"; "deploy_clone_k3y"] = Some Dir
  /\ fs rw.2 !! ["/"; "tmp"; "deploy_clone_k3y"; "index.html"] = None.
Proof. vm_compute. repeat split. Qed.

(** When nothing is refused, the same run leaves nothing behind. *)
Example clone_is_removed_after_a_push :
  let w := Sample.start ∅ Sample.dist_files Sample.cloning in
  let rw := git_push_artifact_dir "git@backend.im:org/app.git" "main" "dist" None
              "deploy" false w in
  rw.1 = Ok tt
  /\ last (new_events w rw.2) = Some (EvRmtree ["/"; "tmp"; "deploy_clone_k3y"] true)
  /\ fs rw.2 !! ["/"; "tmp"; "deploy_clone_k3y"] = None
  /\ fs rw.2 !! ["/"; "tmp"; "deploy_clone_k3y"; "index.html"] = None.
Proof. vm_compute. repeat split. Qed.

End EphemeralClone.

(** ** Which exceptions escape *)

Section Failures.
Import Py Trace DeployAdapter.

Lemma plainly_ret {A} (a : A) : raises_plainly (ret a).
Proof. intros w e w' H. discriminate. Qed.

Lemma plainly_bind {A B} (m : M A) (k : A -> M B) :
  raises_plainly m -> (forall a, raises_plainly (k a)) -> raises_plainly (bind m k).
Proof.
  intros Hm Hk w e w' H. unfold bind in H.
  destruct (m w) as [[a|e0|] w1] eqn:Hmw.
  - eapply Hk; eauto.
  - inversion H; subst. eapply Hm; eauto.
  - discriminate.
Qed.

Lemma plainly_for_each {A} (l : list A) (f : A -> M unit) :
  (forall x, raises_plainly (f x)) -> raises_plainly (for_each l f).
Proof.
  intros Hf. induction l as [|x l IH]; simpl; [apply plainly_ret|].
  apply plainly_bind; [apply Hf | intros _; apply IH].
Qed.

Lemma plainly_run c cwd chk cap env : raises_plainly (run c cwd chk cap env).
Proof.
  intros w e w' H. pose proof (run_cases c cwd chk cap env w) as Hc.
  rewrite H in Hc. simpl in Hc. inversion Hc; subst.
  - right. eauto.
  - left. eauto.
Qed.

Ltac plainly_by_cases :=
  intros w e w' H;
  cbv beta delta [print print_line path_exists path_is_dir iterdir rmtree unlink copytree
    copy2 mkdtemp mkstemp os_write os_close os_chmod os_path_exists os_remove ret] in H;
  repeat first [progress cbv zeta in H | case_match];
  simpl in H; inversion H; subst; left; eauto.

Lemma plainly_print_line s : raises_plainly (print_line s).
Proof. plainly_by_cases. Qed.
Lemma plainly_path_exists p : raises_plainly (path_exists p).
Proof. plainly_by_cases. Qed.
Lemma plainly_path_is_dir p : raises_plainly (path_is_dir p).
Proof. plainly_by_cases. Qed.
Lemma plainly_iterdir p : raises_plainly (iterdir p).
Proof. plainly_by_cases. Qed.
Lemma plainly_rmtree p b : raises_plainly (rmtree p b).
Proof. plainly_by_cases. Qed.
Lemma plainly_unlink p : raises_plainly (unlink p).
Proof. plainly_by_cases. Qed.
Lemma plainly_copytree a b : raises_plainly (copytree a b).
Proof. plainly_by_cases. Qed.
Lemma plainly_copy2 a b : raises_plainly (copy2 a b).
Proof. plainly_by_cases. Qed.

Lemma plainly_clean_entry tmp n : raises_plainly (clean_entry tmp n).
Proof.
  unfold clean_entry. destruct (String.eqb n ".git"); [apply plainly_ret|].
  apply plainly_bind; [apply plainly_path_is_dir|].
  intros []; [apply plainly_rmtree|apply plainly_unlink].
Qed.

Lemma plainly_copy_entry tmp src n : raises_plainly (copy_entry tmp src n).
Proof.
  unfold copy_entry. apply plainly_bind; [apply plainly_path_is_dir|].
  intros []; [apply plainly_copytree|apply plainly_copy2].
Qed.

Lemma missing_dir_not_plain (artifact_dir : string) :
  ~ plain_failure (SystemExit [Lit ("artifact_dir " +:+ artifact_dir +:+ " does not exist")]).
Proof.
  intros [(name & H)|(c & rc & H)]; [discriminate|].
  unfold failed_msg in H. simpl in H. discriminate.
Qed.

End Failures.

(** ** A missing artifact directory *)

Section MissingArtifactDir.
Import Py Trace DeployAdapter.

Lemma step_clean_loop {B} tmp names (k : unit -> M B) w w0 E r w' :
  grows w w0 E ->
  bind (for_each names (clean_entry tmp)) k w0 = (r, w') ->
  (exists w1 evs, Forall2 (removal_of (Path tmp)) (to_clean names) evs
      /\ grows w w1 (E ++ evs) /\ k tt w1 = (r, w'))
  \/ (exists e, plain_failure e /\ r = Raise e).
Proof.
  intros Hg Hb. unfold bind in Hb.
  destruct (for_each names (clean_entry tmp) w0) as [[[]|e|] w1] eqn:Hl.
  - left. apply clean_loop_ok in Hl as (evs & Hg1 & Hf).
    exists w1, evs. split; [done|]. split; [eapply grows_trans; eauto|done].
  - right. inversion Hb; subst. exists e. split; [|done].
    eapply (plainly_for_each names (clean_entry tmp)); [apply plainly_clean_entry|exact Hl].
  - exfalso. eapply (total_for_each names (clean_entry tmp)); [apply total_clean_entry|].
    rewrite Hl. reflexivity.
Qed.

Ltac not_missing Hr :=
  first [ discriminate Hr
        | unfold failed_msg in Hr; simpl in Hr; discriminate Hr
        | exfalso; eapply missing_dir_not_plain; injection Hr as <-; eassumption ].

(** When the run ends on the missing-directory error, the trace is: the
    directory is made, the remote is cloned into it and the branch checked
    out (both exit 0), the clone is listed and all its entries but [.git]
    are deleted, and the removal of the directory is called for. *)
Lemma missing_dir_trace
    (remote_url branch artifact_dir : string) (key : option string) (msg : string)
    (force : bool) (w w' : World) (r : result unit) :
  git_push_artifact_dir remote_url branch artifact_dir key msg force w = (r, w') ->
  r = Raise (SystemExit [Lit ("artifact_dir " +:+ artifact_dir +:+ " does not exist")]) ->
  exists tmp pre env names cleaned,
    new_events w w' =
      (pre ++
       [EvMkdtemp (Path tmp);
        EvPrint [Lit ("Cloning remote into tempdir " +:+ tmp +:+ " ..."); Lit nl];
        echo (Argv ["git"; "clone"; remote_url; tmp]);
        EvRun (Argv ["git"; "clone"; remote_url; tmp]) None (Some env) false 0;
        echo (Argv ["git"; "checkout"; "-B"; branch]);
        EvRun (Argv ["git"; "checkout"; "-B"; branch]) (Some tmp) (Some env) false 0;
        EvIterdir (Path tmp) names] ++
       cleaned ++
       [EvPrint [Lit "Cleaning up tempdir"; Lit nl]; EvRmtree (Path tmp) true])%list
    /\ Forall (fun e => is_print e = true) pre
    /\ Forall2 (removal_of (Path tmp)) (to_clean names) cleaned.
Proof.
  intros Hrun Hr. unfold git_push_artifact_dir in Hrun.
  unfold bind at 1 in Hrun. unfold environ_copy in Hrun.
  eapply (step_emits (fun e => is_print e = true)) in Hrun;
    [|apply emits_git_env; intros; reflexivity|apply grows_refl].
  destruct Hrun as (pre & Hpre & [(env & w0 & _ & Hg0 & Hrun)|(_ & [(e & _ & Hbad)|(_ & Hbad)])]).
  2, 3: destruct (truthy_str key); unfold bind, print_line, print, ret in Hbad;
    simpl in Hbad; discriminate.
  simpl in Hg0.
  eapply step_mkdtemp in Hrun; [|exact Hg0].
  destruct Hrun as [(tmp & w1 & Hg1 & _ & _ & _ & _ & Hrun)|(name & -> & ->)];
    [|discriminate].
  unfold print_line at 1 in Hrun.
  eapply step_print in Hrun; [|exact Hg1].
  destruct Hrun as (w2 & Hg2 & _ & _ & _ & Hrun).
  apply artifact_finally_inv in Hrun as (wb & fevs & Hb & Hgf & _ & Hend).
  destruct Hend as (_ & ->); [by rewrite Hr|].
  unfold prepare_and_push in Hb.
  eapply step_run in Hb; [|exact Hg2].
  destruct Hb as [(res1 & w3 & Hg3 & Hz1 & _ & _ & _ & Hb)|[(rc1 & o1 & x1 & _ & _ & -> & _)|(-> & _)]];
    [|not_missing Hr..].
  rewrite (Hz1 eq_refl) in Hg3.
  eapply step_run in Hb; [|exact Hg3].
  destruct Hb as [(res2 & w4 & Hg4 & Hz2 & _ & _ & _ & Hb)|[(rc2 & o2 & x2 & _ & _ & -> & _)|(-> & _)]];
    [|not_missing Hr..].
  rewrite (Hz2 eq_refl) in Hg4.
  eapply step_iterdir in Hb; [|exact Hg4].
  destruct Hb as [(w5 & Hg5 & _ & _ & _ & Hb)|(name & -> & _)]; [|discriminate].
  eapply step_clean_loop in Hb; [|exact Hg5].
  destruct Hb as [(w6 & cleaned & Hcl & Hg6 & Hb)|(e & He & ->)]; [|not_missing Hr].
  unfold bind at 1 in Hb. unfold path_exists at 1 in Hb.
  destruct (negb (bool_decide (is_Some (fs w6 !! Path artifact_dir)))).
  - inversion Hb; subst.
    eexists tmp, pre, env, _, cleaned. split; [|by split].
    rewrite (grows_new_events _ _ _ (grows_trans _ _ _ _ _ Hg6 Hgf)).
    simpl. rewrite <- !app_assoc. reflexivity.
  - exfalso. subst r.
    match type of Hb with
    | ?m _ = _ => assert (raises_plainly m) as Hp
    end.
    { repeat first
        [ apply plainly_ret | apply plainly_run | apply plainly_iterdir
        | apply plainly_print_line
        | apply plainly_for_each; intros; apply plainly_copy_entry
        | apply plainly_bind; [|intros ?] ]. }
    eapply missing_dir_not_plain. eapply Hp. exact Hb.
Qed.

(** A clone that exits nonzero decides the outcome, whether or not the
    artifact directory exists. *)
Lemma clone_failure_first
    (remote_url branch artifact_dir : string) (key : option string) (msg : string)
    (force : bool) (w w' : World) (r : result unit) (i : nat) (tmp : string) (rc : Z) :
  git_push_artifact_dir remote_url branch artifact_dir key msg force w = (r, w') ->
  runs (new_events w w') !! i = Some (Argv ["git"; "clone"; remote_url; tmp], rc) ->
  rc <> 0 ->
  r = Raise (SystemExit (failed_msg (Argv ["git"; "clone"; remote_url; tmp]) rc)).
Proof.
  intros Hrun Hi Hrc. unfold git_push_artifact_dir in Hrun.
  unfold bind at 1 in Hrun. unfold environ_copy in Hrun.
  eapply step_quiet in Hrun;
    [|apply emits_git_env; intros; reflexivity|apply grows_refl].
  destruct Hrun as (pre & Hpre & [(env & w0 & _ & Hg0 & Hrun)|(Hg & Hne)]).
  2: { whole_trace. destruct i; discriminate. }
  eapply step_quiet in Hrun; [|apply emits_mkdtemp; intros; reflexivity|exact Hg0].
  destruct Hrun as (e1 & He1 & [(tmp' & w1 & _ & Hg1 & Hrun)|(Hg & Hne)]).
  2: { whole_trace. destruct i; discriminate. }
  unfold print_line at 1 in Hrun.
  eapply step_print in Hrun; [|exact Hg1].
  destruct Hrun as (w2 & Hg2 & _ & _ & _ & Hrun).
  apply artifact_finally_inv in Hrun as (wb & fevs & Hb & Hgf & Hfq & _).
  unfold prepare_and_push in Hb.
  eapply step_run in Hb; [|exact Hg2].
  destruct Hb as [(res1 & w3 & Hg3 & Hz1 & _ & _ & _ & Hb)|[(rc1 & o1 & x1 & _ & _ & -> & Hg)|(-> & Hg)]].
  2: { whole_trace. destruct i as [|[|]]; simpl in Hi; try discriminate.
       by inversion Hi; subst. }
  2: { whole_trace. destruct i; discriminate. }
  rewrite (Hz1 eq_refl) in Hg3.
  eapply step_run in Hb; [|exact Hg3].
  destruct Hb as [(res2 & w4 & Hg4 & _ & _ & _ & _ & Hb)|[(rc2 & o2 & x2 & _ & _ & -> & Hg)|(-> & Hg)]].
  2, 3: whole_trace; destruct i as [|[|[|]]]; simpl in Hi; try discriminate;
    inversion Hi; subst; done.
  eapply step_quiet in Hb; [|apply emits_iterdir; intros; reflexivity|exact Hg4].
  destruct Hb as (e2 & He2 & [(names & w5 & _ & Hg5 & Hb)|(Hg & Hne)]).
  2: { whole_trace. destruct i as [|[|[|]]]; simpl in Hi; try discriminate.
       inversion Hi; subst; done. }
  eapply step_quiet in Hb;
    [|apply emits_for_each; intros; apply emits_clean_entry; intros; reflexivity|exact Hg5].
  destruct Hb as (e3 & He3 & [([] & w6 & _ & Hg6 & Hb)|(Hg & Hne)]).
  2: { whole_trace. destruct i as [|[|[|]]]; simpl in Hi; try discriminate.
       inversion Hi; subst; done. }
  unfold bind at 1 in Hb. unfold path_exists at 1 in Hb.
  destruct (negb (bool_decide (is_Some (fs w6 !! Path artifact_dir)))).
  { inversion Hb; subst. whole_trace.
    destruct i as [|[|[|]]]; simpl in Hi; try discriminate. inversion Hi; subst; done. }
  unfold print_line at 1 in Hb.
  eapply step_print in Hb; [|exact Hg6].
  destruct Hb as (w7 & Hg7 & _ & _ & _ & Hb).
  eapply step_quiet in Hb; [|apply emits_iterdir; intros; reflexivity|exact Hg7].
  destruct Hb as (e4 & He4 & [(items & w8 & _ & Hg8 & Hb)|(Hg & Hne)]).
  2: { whole_trace. destruct i as [|[|[|]]]; simpl in Hi; try discriminate.
       inversion Hi; subst; done. }
  eapply step_quiet in Hb;
    [|apply emits_for_each; intros; apply emits_copy_entry; intros; reflexivity|exact Hg8].
  destruct Hb as (e5 & He5 & [([] & w9 & _ & Hg9 & Hb)|(Hg & Hne)]).
  2: { whole_trace. destruct i as [|[|[|]]]; simpl in Hi; try discriminate.
       inversion Hi; subst; done. }
  eapply step_run in Hb; [|exact Hg9].
  destruct Hb as [(res3 & w10 & Hg10 & _ & _ & _ & _ & Hb)|[(rc3 & o3 & x3 & _ & _ & -> & Hg)|(-> & Hg)]].
  2, 3: whole_trace; destruct i as [|[|[|[|]]]]; simpl in Hi; try discriminate;
    inversion Hi; subst; done.
  eapply step_run in Hb; [|exact Hg10].
  destruct Hb as [(res4 & w11 & Hg11 & _ & _ & _ & _ & Hb)|[(rc4 & o4 & x4 & Hchk & _)|(-> & Hg)]].
  2: discriminate.
  2: { whole_trace. destruct i as [|[|[|[|]]]]; simpl in Hi; try discriminate.
       inversion Hi; subst; done. }
  eapply step_run in Hb; [|exact Hg11].
  destruct Hb as [(res5 & w12 & Hg12 & _ & _ & _ & _ & Hb)|[(rc5 & o5 & x5 & _ & _ & -> & Hg)|(-> & Hg)]].
  - inversion Hb; subst. whole_trace.
    destruct force; destruct i as [|[|[|[|[|]]]]]; simpl in Hi; try discriminate;
      inversion Hi; subst; done.
  - whole_trace.
    destruct force; destruct i as [|[|[|[|[|]]]]]; simpl in Hi; try discriminate;
      inversion Hi; subst; done.
  - whole_trace.
    destruct force; destruct i as [|[|[|[|[|]]]]]; simpl in Hi; try discriminate;
      inversion Hi; subst; done.
Qed.

(** C10: the missing-directory error comes only at the end of a trace in
    which the remote was cloned and the branch checked out successfully
    and every entry of the clone except [.git] was deleted; and a clone
    that exits nonzero decides the outcome whatever the artifact directory
    is. *)
Theorem missing_artifact_dir_detected_after_clone
    (remote_url branch artifact_dir : string) (key : option string) (msg : string)
    (force : bool) (w w' : World) (r : result unit) :
  git_push_artifact_dir remote_url branch artifact_dir key msg force w = (r, w') ->
  (r = Raise (SystemExit [Lit ("artifact_dir " +:+ artifact_dir +:+ " does not exist")]) ->
   exists tmp pre env names cleaned,
     new_events w w' =
       (pre ++
        [EvMkdtemp (Path tmp);
         EvPrint [Lit ("Cloning remote into tempdir " +:+ tmp +:+ " ..."); Lit nl];
         echo (Argv ["git"; "clone"; remote_url; tmp]);
         EvRun (Argv ["git"; "clone"; remote_url; tmp]) None (Some env) false 0;
         echo (Argv ["git"; "checkout"; "-B"; branch]);
         EvRun (Argv ["git"; "checkout"; "-B"; branch]) (Some tmp) (Some env) false 0;
         EvIterdir (Path tmp) names] ++
        cleaned ++
        [EvPrint [Lit "Cleaning up tempdir"; Lit nl]; EvRmtree (Path tmp) true])%list
     /\ Forall (fun e => is_print e = true) pre
     /\ Forall2 (removal_of (Path tmp)) (to_clean names) cleaned)
  /\ (forall i tmp rc,
        runs (new_events w w') !! i = Some (Argv ["git"; "clone"; remote_url; tmp], rc) ->
        rc <> 0 ->
        r = Raise (SystemExit (failed_msg (Argv ["git"; "clone"; remote_url; tmp]) rc))).
Proof.
  intros Hrun. split.
  - intros Hr. eapply missing_dir_trace; eauto.
  - intros i tmp rc Hi Hrc. eapply clone_failure_first; eauto.
Qed.

Lemma missing_artifact_dir_detected_after_clone_witness :
  let w := Sample.start ∅ ∅ Sample.cloning in
  let rw := git_push_artifact_dir "git@backend.im:org/app.git" "main" "dist" None
              "deploy" false w in
  exists tmp pre env names cleaned,
    new_events w rw.2 =
      (pre ++
       [EvMkdtemp (Path tmp);
        EvPrint [Lit ("Cloning remote into tempdir " +:+ tmp +:+ " ..."); Lit nl];
        echo (Argv ["git"; "clone"; "git@backend.im:org/app.git"; tmp]);
        EvRun (Argv ["git"; "clone"; "git@backend.im:org/app.git"; tmp]) None (Some env) false 0;
        echo (Argv ["git"; "checkout"; "-B"; "main"]);
        EvRun (Argv ["git"; "checkout"; "-B"; "main"]) (Some tmp) (Some env) false 0;
        EvIterdir (Path tmp) names] ++
       cleaned ++
       [EvPrint [Lit "Cleaning up tempdir"; Lit nl]; EvRmtree (Path tmp) true])%list
    /\ Forall (fun e => is_print e = true) pre
    /\ Forall2 (removal_of (Path tmp)) (to_clean names) cleaned.
Proof.
  intros w rw.
  apply (proj1 (missing_artifact_dir_detected_after_clone
                  "git@backend.im:org/app.git" "main" "dist" None "deploy" false
                  w rw.2 rw.1 (surjective_pairing _))).
  vm_compute. reflexivity.
Defined.

Example missing_artifact_dir_run :
  let w := Sample.start ∅ ∅ Sample.cloning in
  let rw := git_push_artifact_dir "git@backend.im:org/app.git" "main" "dist" None
              "deploy" false w in
  rw.1 = Raise (SystemExit [Lit "artifact_dir dist does not exist"])
  /\ List.filter (fun e => negb (is_print e)) (new_events w rw.2) =
     [EvMkdtemp ["/"; "tmp"; "deploy_clone_k3y"];
      EvRun (Argv ["git"; "clone"; "git@backend.im:org/app.git"; "/tmp/deploy_clone_k3y"])
        None (Some ∅) false 0;
      EvRun (Argv ["git"; "checkout"; "-B"; "main"]) (Some "/tmp/deploy_clone_k3y")
        (Some ∅) false 0;
      EvIterdir ["/"; "tmp"; "deploy_clone_k3y"] [".git"; "README.md"; "src"];
      EvUnlink ["/"; "tmp"; "deploy_clone_k3y"; "README.md"];
      EvRmtree ["/"; "tmp"; "deploy_clone_k3y"; "src"] false;
      EvRmtree ["/"; "tmp"; "deploy_clone_k3y"] true]
  /\ map_to_list (fs rw.2) = [].
Proof. vm_compute. repeat split. Qed.

End MissingArtifactDir.

(** ** The credential file *)

Section Credential.
Import Py Trace DeployAdapter.

Ltac lookup_inserted :=
  match goal with
  | |- context [@lookup ?K ?A ?M ?I ?k (<[?k := ?v]> ?m)] =>
      replace (@lookup K A M I k (<[k := v]> m)) with (Some v)
        by (symmetry; apply lookup_insert_eq)
  end.

Lemma truthy_str_nonempty (s : string) : s <> EmptyString -> truthy_str (Some s) = true.
Proof.
  intros H. unfold truthy_str. destruct (String.eqb s EmptyString) eqn:E; [|done].
  apply String.eqb_eq in E. done.
Qed.

(** What [write_ssh_key_if_provided] does when [tempfile] grants a new
    name: the file is created, readable and writable by its owner only.
    When the operating system then accepts the write and the change of
    mode, the function returns the path, and the file holds
    [key_bytes_of] of the stripped input.  When it refuses the write the
    function raises and leaves the file empty; when it refuses the change
    of mode the function raises and leaves the file with the key in it. *)
Lemma write_ssh_key_run (key random : string) (w : World) :
  key <> EmptyString ->
  x_tmpname (ext w) (length (log w)) "git_deploy_key_" = Some random ->
  fs w !! Path (temp_path (x_tmpdir (ext w)) "git_deploy_key_" random) = None ->
  let p := temp_path (x_tmpdir (ext w)) "git_deploy_key_" random in
  let no_write := x_refused (ext w) (S (length (log w))) (Path p) in
  let no_chmod := x_refused (ext w) (S (S (length (log w)))) (Path p) in
  exists w',
    write_ssh_key_if_provided (Some key) w
      = (if no_write || no_chmod then Raise (Error "OSError") else Ok (Some p), w')
    /\ fs w' = <[Path p := File (if no_write then [] else key_bytes_of (strip key)) 384]> (fs w)
    /\ new_events w w' =
         EvMkstemp (Path p) ::
         (if no_write then [] else
            EvWrite (Path p) (key_bytes_of (strip key)) ::
            (if no_chmod then [] else
               [EvChmod (Path p) 384;
                EvPrint [Lit ("Wrote temporary SSH key to " +:+ p); Lit nl]]))
    /\ ext w' = ext w /\ environ w' = environ w.
Proof.
  intros Hkey Hname Hfresh p no_write no_chmod. unfold write_ssh_key_if_provided.
  rewrite (truthy_str_nonempty key Hkey). simpl.
  unfold bind, mkstemp. rewrite Hname. fold p. fold p in Hfresh. rewrite Hfresh.
  unfold os_write, refused. simpl. lookup_inserted.
  rewrite length_app. simpl. rewrite Nat.add_1_r. fold no_write.
  destruct no_write; simpl.
  { eexists. split; [reflexivity|]. simpl. split_and!; try done.
    apply new_events_app. reflexivity. }
  unfold os_close, ret, os_chmod, refused. simpl. lookup_inserted.
  rewrite !length_app. simpl. rewrite !Nat.add_1_r. fold no_chmod.
  destruct no_chmod; simpl.
  { eexists. split; [reflexivity|]. simpl. split_and!; try done.
    - apply insert_insert_eq.
    - apply new_events_app. simpl. rewrite <- !app_assoc. reflexivity. }
  unfold print_line, print. simpl.
  eexists. split; [reflexivity|]. simpl. split_and!; try done.
  - etrans; [apply insert_insert_eq|]. apply insert_insert_eq.
  - apply new_events_app. simpl. rewrite <- !app_assoc. reflexivity.
Qed.

(** C4, as the code has it: the input is stripped of surrounding
    whitespace first; the decoding of the stripped string is written when
    it shows [BEGIN] within its first 50 bytes, and the encoded stripped
    string is written otherwise.  The file is new and its mode is 0600.
    The function returns the path of the file unless the operating system
    refuses the write or the change of mode; it then raises, and the file
    is left behind, empty when it was the write that was refused. *)
Theorem key_file_holds_decoded_or_stripped (key random : string) (w : World) :
  key <> EmptyString ->
  x_tmpname (ext w) (length (log w)) "git_deploy_key_" = Some random ->
  fs w !! Path (temp_path (x_tmpdir (ext w)) "git_deploy_key_" random) = None ->
  exists p content w',
    let no_write := x_refused (ext w) (S (length (log w))) (Path p) in
    let no_chmod := x_refused (ext w) (S (S (length (log w)))) (Path p) in
    write_ssh_key_if_provided (Some key) w
      = (if no_write || no_chmod then Raise (Error "OSError") else Ok (Some p), w')
    /\ fs w !! Path p = None
    /\ fs w' = <[Path p := File (if no_write then [] else content) 384]> (fs w)
    /\ (forall decoded,
          b64decode (strip key) = Some decoded ->
          bytes_in (bytes_lit "BEGIN") (take 50 decoded) = true ->
          content = decoded)
    /\ (b64decode (strip key) = None
        \/ (exists decoded, b64decode (strip key) = Some decoded
              /\ bytes_in (bytes_lit "BEGIN") (take 50 decoded) = false) ->
        content = encode (strip key)).
Proof.
  intros Hkey Hname Hfresh.
  destruct (write_ssh_key_run key random w Hkey Hname Hfresh) as (w' & Hrun & Hfs & _).
  eexists _, _, w'. split; [exact Hrun|]. split; [exact Hfresh|]. split; [exact Hfs|].
  unfold key_bytes_of. split.
  - intros decoded -> ->. reflexivity.
  - intros [->|(decoded & -> & ->)]; reflexivity.
Qed.

Lemma key_file_holds_decoded_or_stripped_witness :
  let w := Sample.start ∅ ∅ Sample.calm in
  exists p content w',
    write_ssh_key_if_provided (Some Sample.key_b64) w = (Ok (Some p), w')
    /\ fs w !! Path p = None
    /\ fs w' = <[Path p := File content 384]> (fs w)
    /\ (forall decoded,
          b64decode (strip Sample.key_b64) = Some decoded ->
          bytes_in (bytes_lit "BEGIN") (take 50 decoded) = true ->
          content = decoded)
    /\ (b64decode (strip Sample.key_b64) = None
        \/ (exists decoded, b64decode (strip Sample.key_b64) = Some decoded
              /\ bytes_in (bytes_lit "BEGIN") (take 50 decoded) = false) ->
        content = encode (strip Sample.key_b64)).
Proof.
  intros w.
  apply (key_file_holds_decoded_or_stripped Sample.key_b64 "k3y" w).
  - discriminate.
  - reflexivity.
  - vm_compute. reflexivity.
Defined.

Example key_b64_is_decoded :
  let rw := write_ssh_key_if_provided (Some Sample.key_b64) (Sample.start ∅ ∅ Sample.calm) in
  rw.1 = Ok (Some "/tmp/git_deploy_key_k3y")
  /\ fs rw.2 !! ["/"; "tmp"; "git_deploy_key_k3y"]
     = Some (File (bytes_lit "-----BEGIN KEY-----") 384).
Proof. vm_compute. split; reflexivity. Qed.

(** C4 as stated fails twice.  A raw key followed by a line end does not
    decode, yet the file receives the stripped string, not the original;
    and a decoding that contains [BEGIN] only after its first 50 bytes is
    not written: the file receives the base64 text. *)
Lemma key_file_differs_from_stated :
  let file_of key :=
    fs (write_ssh_key_if_provided (Some key) (Sample.start ∅ ∅ Sample.calm)).2
      !! ["/"; "tmp"; "git_deploy_key_k3y"] in
  (b64decode Sample.key_raw = None
   /\ Stated.stated_key_bytes Sample.key_raw = bytes_lit ("hello" +:+ nl)
   /\ file_of Sample.key_raw = Some (File (bytes_lit "hello") 384))
  /\ (exists decoded,
        b64decode Sample.key_late_marker = Some decoded
        /\ bytes_in (bytes_lit "BEGIN") decoded = true
        /\ Stated.stated_key_bytes Sample.key_late_marker = decoded
        /\ file_of Sample.key_late_marker
           = Some (File (bytes_lit Sample.key_late_marker) 384)
        /\ decoded <> bytes_lit Sample.key_late_marker).
Proof.
  split.
  - vm_compute. repeat split.
  - eexists. split; [vm_compute; reflexivity|]. vm_compute. repeat split. discriminate.
Qed.

End Credential.

(** ** One poll *)

Section PollCycle.
Import Py Trace DeployAdapter.

Lemma bind_ok {A B} (m : M A) (k : A -> M B) w a w1 :
  m w = (Ok a, w1) -> bind m k w = k a w1.
Proof. intros H. unfold bind. by rewrite H. Qed.

Lemma bind_raise {A B} (m : M A) (k : A -> M B) w e w1 :
  m w = (Raise e, w1) -> bind m k w = (Raise e, w1).
Proof. intros H. unfold bind. by rewrite H. Qed.

Lemma resolve_status_dict (d : list (string * value)) (w : World) :
  resolve_status (VDict d) w =
  (Ok (first_truthy [dict_get d "status"; dict_get d "state"; dict_get d "deploy_status"]), w).
Proof.
  unfold resolve_status, bind, get_method, or_else, ret. simpl.
  destruct (truthy (dict_get d "status")); [done|].
  destruct (truthy (dict_get d "state")); [done|].
  destruct (truthy (dict_get d "deploy_status")); done.
Qed.

Lemma first_truthy_str_nonempty (l : list value) (s : string) :
  first_truthy l = VStr s -> truthy (VStr s) = true.
Proof.
  induction l as [|v l IH]; simpl; [discriminate|].
  destruct (truthy v) eqn:E; [intros ->; exact E|exact IH].
Qed.

Lemma success_is_not_failure (s : string) :
  str_in s success_words = true -> str_in s failure_words = false.
Proof.
  unfold str_in, success_words, failure_words. simpl.
  rewrite !orb_false_r. intros H.
  apply orb_true_iff in H as [H|H]; [|apply orb_true_iff in H as [H|H]];
    apply String.eqb_eq in H; subst; reflexivity.
Qed.

(** What one pass of the loop body does with a decoded object. *)
Lemma poll_once_on_object url headers last w code d :
  x_http (ext w) (length (log w)) url headers = Reply code (Some (VDict d)) ->
  (400 <=? code)%Z && (code <? 600)%Z = false ->
  let status :=
    first_truthy [dict_get d "status"; dict_get d "state"; dict_get d "deploy_status"] in
  let w1 := emit (status_line status (VDict d))
              (tick (x_elapsed (ext w) (length (log w))) (emit (EvGet url headers) w)) in
  (status = VNone ->
     poll_once url headers last w = (Ok (Continue (VDict d)), w1))
  /\ (forall s, status = VStr s ->
        poll_once url headers last w =
        if str_in (lower s) success_words then
          (Ok (Return (VDict d)),
           emit (EvPrint [Lit "Deployment finished successfully"; Lit nl]) w1)
        else if str_in (lower s) failure_words then
          (Raise (SystemExit [Lit "Deployment failed: "; Str (VDict d)]), w1)
        else (Ok (Continue (VDict d)), w1)).
Proof.
  intros Hhttp Hcode status w1.
  unfold poll_once, try_except.
  erewrite bind_ok by (unfold requests_get; rewrite Hhttp; reflexivity).
  erewrite bind_ok by (unfold raise_for_status; simpl; rewrite Hcode; reflexivity).
  erewrite bind_ok by reflexivity.
  unfold poll_decide.
  erewrite bind_ok by apply resolve_status_dict.
  fold status. erewrite bind_ok by reflexivity.
  fold (status_line status (VDict d)). fold w1.
  split.
  - intros Hs. rewrite Hs.
    erewrite bind_ok by reflexivity. simpl. reflexivity.
  - intros s Hs. pose proof (first_truthy_str_nonempty _ _ Hs) as Ht.
    rewrite Hs.
    erewrite bind_ok by (unfold status_in; rewrite Ht; reflexivity).
    fold success_words.
    destruct (str_in (lower s) success_words) eqn:Hok.
    + erewrite bind_ok by reflexivity. reflexivity.
    + erewrite bind_ok by (unfold status_in; rewrite Ht; reflexivity).
      fold failure_words.
      destruct (str_in (lower s) failure_words); reflexivity.
Qed.

Lemma before_deadline (deadline t : Q) : (t < deadline)%Q -> Qle_bool deadline t = false.
Proof.
  intros H. destruct (Qle_bool deadline t) eqn:E; [|done].
  apply Qle_bool_iff in E. exfalso. eapply Qlt_not_le; eauto.
Qed.

(** C1, as the code has it.  In a poll cycle that receives a reply which
    is not an HTTP error and whose body decodes to an object, the status
    is the first of [status], [state], [deploy_status] whose value is
    true (a field that is absent, null, empty, zero or false is passed
    over).  If it is a string in the success set after lowering, the
    poller returns the payload at once; if it is a string in the failure
    set, it stops with [SystemExit] carrying the payload; if it is another
    string, or no status is resolved, the poller sleeps and goes on with
    the payload as [last]. *)
Theorem poll_cycle_decides
    (fuel : nat) (url : string) (headers : gmap string string) (interval : Z)
    (deadline : Q) (last : value) (w : World) (code : Z) (d : list (string * value)) :
  (now w < deadline)%Q ->
  x_http (ext w) (length (log w)) url headers = Reply code (Some (VDict d)) ->
  (400 <=? code)%Z && (code <? 600)%Z = false ->
  let status :=
    first_truthy [dict_get d "status"; dict_get d "state"; dict_get d "deploy_status"] in
  let w1 := emit (status_line status (VDict d))
              (tick (x_elapsed (ext w) (length (log w))) (emit (EvGet url headers) w)) in
  (forall s, status = VStr s -> str_in (lower s) success_words = true ->
     poll_loop (S fuel) url headers interval deadline last w =
     (Ok (VDict d), emit (EvPrint [Lit "Deployment finished successfully"; Lit nl]) w1))
  /\ (forall s, status = VStr s -> str_in (lower s) failure_words = true ->
        poll_loop (S fuel) url headers interval deadline last w =
        (Raise (SystemExit [Lit "Deployment failed: "; Str (VDict d)]), w1))
  /\ (status = VNone
      \/ (exists s, status = VStr s /\ str_in (lower s) success_words = false
                    /\ str_in (lower s) failure_words = false) ->
      poll_loop (S fuel) url headers interval deadline last w =
      (time_sleep interval ;; poll_loop fuel url headers interval deadline (VDict d)) w1).
Proof.
  intros Hnow Hhttp Hcode status w1.
  destruct (poll_once_on_object url headers last w code d Hhttp Hcode) as [Hnone Hstr].
  fold status in Hnone, Hstr. fold w1 in Hnone, Hstr.
  assert (forall r w2, poll_once url headers last w = (r, w2) ->
            poll_loop (S fuel) url headers interval deadline last w =
            match r with
            | Ok (Return j) => (Ok j, w2)
            | Ok (Continue last') =>
                (time_sleep interval ;; poll_loop fuel url headers interval deadline last') w2
            | Raise e => (Raise e, w2)
            | Diverge => (Diverge, w2)
            end) as Hloop.
  { intros r w2 Hr. simpl. unfold bind at 1, time_time.
    rewrite (before_deadline _ _ Hnow). simpl.
    unfold bind at 1. rewrite Hr. destruct r as [[j|l]| |]; reflexivity. }
  split_and!.
  - intros s Hs Hok. pose proof (Hstr s Hs) as Hp. rewrite Hok in Hp.
    rewrite (Hloop _ _ Hp). reflexivity.
  - intros s Hs Hbad.
    assert (str_in (lower s) success_words = false) as Hok.
    { destruct (str_in (lower s) success_words) eqn:E; [|done].
      apply success_is_not_failure in E. congruence. }
    pose proof (Hstr s Hs) as Hp. rewrite Hok, Hbad in Hp.
    rewrite (Hloop _ _ Hp). reflexivity.
  - intros [Hs|(s & Hs & Hok & Hbad)].
    + rewrite (Hloop _ _ (Hnone Hs)). reflexivity.
    + pose proof (Hstr s Hs) as Hp. rewrite Hok, Hbad in Hp.
      rewrite (Hloop _ _ Hp). reflexivity.
Qed.

Lemma poll_cycle_decides_witness :
  let w := Sample.start ∅ ∅ (Sample.answering Sample.ready_state) in
  poll_loop 1 "https://api.backend.im/v1/deploys/123" ∅ 3 6 VNone w =
  (Ok Sample.ready_state,
   emit (EvPrint [Lit "Deployment finished successfully"; Lit nl])
     (emit (status_line (VStr "READY") Sample.ready_state)
        (tick (x_elapsed (ext w) (length (log w)))
           (emit (EvGet "https://api.backend.im/v1/deploys/123" ∅) w)))).
Proof.
  intros w.
  refine (proj1 (poll_cycle_decides 0 "https://api.backend.im/v1/deploys/123" ∅ 3 6 VNone w
                   200 [("state", VStr "READY")] _ _ _) "READY" _ _);
    reflexivity.
Defined.

(** C1 as stated fails: in this payload [status] is present, so it would
    win, and being empty it is in neither set, so the poller would go on
    polling; the code passes over it, resolves [state] and returns. *)
Lemma empty_status_is_passed_over :
  let d := [("status", VStr EmptyString); ("state", VStr "done")] in
  let w := Sample.start ∅ ∅ (Sample.answering (VDict d)) in
  Stated.stated_status d = VStr EmptyString
  /\ str_in (lower EmptyString) success_words = false
  /\ str_in (lower EmptyString) failure_words = false
  /\ (poll_loop 1 "https://api.backend.im/v1/deploys/123" ∅ 3 6 VNone w).1 = Ok (VDict d).
Proof. vm_compute. repeat split. Qed.

(** A status that is true but not a string has no [lower]: the poller
    ends on an [AttributeError], which the [except] clause does not
    catch. *)
Example numeric_status_raises :
  let w := Sample.start ∅ ∅ (Sample.answering Sample.numeric_status) in
  (poll_loop 1 "https://api.backend.im/v1/deploys/123" ∅ 3 6 VNone w).1
  = Raise (Error "AttributeError").
Proof. vm_compute. reflexivity. Qed.

End PollCycle.

(** ** Registry login *)

Section RegistryLogin.
Import Py Trace Shown.

Lemma prefix_append (a b : string) : String.prefix a (a +:+ b) = true.
Proof.
  induction a as [|c a IH]; simpl; [by destruct b|].
  destruct (ascii_dec c c); [exact IH|done].
Qed.

Lemma str_contains_append (a sub b : string) :
  Dagger.str_contains sub (a +:+ (sub +:+ b)) = true.
Proof.
  induction a as [|c a IH].
  - change (EmptyString +:+ (sub +:+ b)) with (sub +:+ b).
    pose proof (prefix_append sub b) as H.
    destruct (sub +:+ b); cbn [Dagger.str_contains]; by rewrite H.
  - change (String c a +:+ (sub +:+ b)) with (String c (a +:+ (sub +:+ b))).
    simpl. rewrite IH. apply orb_true_r.
Qed.

Lemma dagger_run_is_run cmd cwd check capture env :
  Dagger.run cmd cwd check capture env = DeployAdapter.run cmd cwd check capture env.
Proof. reflexivity. Qed.

(** C9.  With a registry account in the environment and an image on
    ghcr.io, [docker_login_if_needed] announces the login and then hands
    the token to [run] inside a shell line, which [run] echoes: the token
    can be read in the second line of the output, before the command is
    started, whatever the command then does. *)
Theorem registry_token_is_echoed (image_ref user token : string) (w : World) :
  String.prefix "ghcr.io/" image_ref = true ->
  environ w !! "GHCR_USER" = Some user -> user <> EmptyString ->
  environ w !! "GHCR_TOKEN" = Some token -> token <> EmptyString ->
  exists rest,
    new_events w (Dagger.docker_login_if_needed image_ref w).2
      = (EvPrint [Lit "Logging in to ghcr.io..."; Lit nl]
         :: echo (Shell (login_line user token)) :: rest)%list
    /\ shows token (echo (Shell (login_line user token))) = true
    /\ leaks token (new_events w (Dagger.docker_login_if_needed image_ref w).2) = true.
Proof.
  intros Hp Hu Hun Ht Htn.
  assert (exists rest,
    new_events w (Dagger.docker_login_if_needed image_ref w).2
      = (EvPrint [Lit "Logging in to ghcr.io..."; Lit nl]
         :: echo (Shell (login_line user token)) :: rest)%list) as [rest Hrest].
  { destruct (Dagger.docker_login_if_needed image_ref w) as [r w'] eqn:Hrun.
    unfold Dagger.docker_login_if_needed in Hrun. rewrite Hp in Hrun.
    unfold bind at 1, environ_get at 1 in Hrun. cbv beta iota in Hrun.
    unfold bind at 1, environ_get at 1 in Hrun. cbv beta iota in Hrun.
    rewrite Hu, Ht in Hrun.
    rewrite !truthy_str_nonempty in Hrun by done. cbv beta iota in Hrun.
    change (false && false)%bool with false in Hrun.
    simpl andb in Hrun. cbv iota in Hrun.
    apply (step_print _ _ w w []) in Hrun as (w1 & Hg1 & _ & _ & _ & Hrun);
      [|apply grows_refl].
    rewrite dagger_run_is_run in Hrun.
    apply (step_run _ _ _ _ _ _ w w1 _ r w' Hg1) in Hrun
      as [(res & w2 & Hg2 & _ & _ & _ & _ & Hk)|[(rc & out & err & _ & _ & _ & Hg2)|[_ Hg2]]].
    - unfold ret in Hk. inversion Hk; subst. simpl.
      rewrite (grows_new_events _ _ _ Hg2). simpl. eauto.
    - simpl. rewrite (grows_new_events _ _ _ Hg2). simpl. eauto.
    - simpl. rewrite (grows_new_events _ _ _ Hg2). simpl. eauto. }
  assert (shows token (echo (Shell (login_line user token))) = true) as Hs.
  { unfold shows, echo, display, login_line. simpl omap. simpl existsb.
    rewrite orb_false_r. apply orb_true_iff. left.
    apply (str_contains_append "$ echo " token). }
  exists rest. split; [exact Hrest|]. split; [exact Hs|].
  rewrite Hrest. unfold leaks. apply existsb_exists.
  eexists. split; [right; left; reflexivity | exact Hs].
Qed.

Lemma registry_token_is_echoed_witness :
  exists rest,
    new_events (Sample.start (ghcr_env "deployer" "ghp_s3cr3t") ∅ Sample.calm)
      (Dagger.docker_login_if_needed "ghcr.io/org/app"
         (Sample.start (ghcr_env "deployer" "ghp_s3cr3t") ∅ Sample.calm)).2
      = (EvPrint [Lit "Logging in to ghcr.io..."; Lit nl]
         :: echo (Shell (login_line "deployer" "ghp_s3cr3t")) :: rest)%list
    /\ shows "ghp_s3cr3t" (echo (Shell (login_line "deployer" "ghp_s3cr3t"))) = true
    /\ leaks "ghp_s3cr3t"
         (new_events (Sample.start (ghcr_env "deployer" "ghp_s3cr3t") ∅ Sample.calm)
            (Dagger.docker_login_if_needed "ghcr.io/org/app"
               (Sample.start (ghcr_env "deployer" "ghp_s3cr3t") ∅ Sample.calm)).2) = true.
Proof.
  apply (registry_token_is_echoed "ghcr.io/org/app" "deployer" "ghp_s3cr3t");
    [reflexivity | vm_compute; reflexivity | discriminate | vm_compute; reflexivity | discriminate].
Defined.

(** The run of the sample: the token is the second thing printed. *)
Example registry_login_output :
  new_events (Sample.start (ghcr_env "deployer" "ghp_s3cr3t") ∅ Sample.calm)
    (Dagger.docker_login_if_needed "ghcr.io/org/app"
       (Sample.start (ghcr_env "deployer" "ghp_s3cr3t") ∅ Sample.calm)).2
  = [EvPrint [Lit "Logging in to ghcr.io..."; Lit nl];
     EvPrint [Lit "$ echo ghp_s3cr3t | docker login ghcr.io -u deployer --password-stdin"; Lit nl];
     EvRun (Shell "echo ghp_s3cr3t | docker login ghcr.io -u deployer --password-stdin")
       None None false 0].
Proof. vm_compute. reflexivity. Qed.

End RegistryLogin.

(** ** The order of the steps *)

Section OrderOfSteps.
Import Py Trace DeployAdapter Order.

Lemma sorted_app (l1 l2 : list nat) :
  StronglySorted le l1 -> StronglySorted le l2 ->
  (forall p q, In p l1 -> In q l2 -> (p <= q)%nat) ->
  StronglySorted le (l1 ++ l2).
Proof.
  intros H1 H2. induction H1 as [|a l H1 IH Ha]; simpl; intros Hle; [done|].
  constructor.
  - apply IH. intros p q Hp Hq. apply Hle; [by right|done].
  - apply Forall_app. split; [done|].
    apply List.Forall_forall. intros q Hq. apply Hle; [by left|done].
Qed.

Lemma sorted_constant (p : nat) (l : list nat) :
  Forall (fun q => q = p) l -> StronglySorted le l.
Proof.
  induction 1 as [|q l -> Hl IH]; constructor; [done|].
  eapply Forall_impl; [exact Hl|]. intros ? ->. done.
Qed.

Lemma phases_app (a b : list Event) : phases (a ++ b) = (phases a ++ phases b)%list.
Proof. apply omap_app. Qed.

Lemma phases_within (ps : list nat) (evs : list Event) :
  Forall (fun e => in_phases ps e = true) evs ->
  forall q, In q (phases evs) -> In q ps.
Proof.
  induction 1 as [|e l He Hl IH]; simpl; [done|].
  intros q. unfold phases. simpl. fold (phases l).
  unfold in_phases in He. destruct (phase e) as [p|]; [|apply IH].
  intros [<-|Hq]; [|by apply IH].
  apply existsb_exists in He as (x & Hx & Hpx). apply Nat.eqb_eq in Hpx. by subst.
Qed.

Lemma in_phases_incl (ps ps' : list nat) (e : Event) :
  incl ps ps' -> in_phases ps e = true -> in_phases ps' e = true.
Proof.
  unfold in_phases. intros Hi. destruct (phase e); [|done].
  intros (x & Hx & Hp)%existsb_exists. apply existsb_exists. eauto.
Qed.

Lemma ordered_emits {A} (p : nat) (m : M A) :
  emits (fun e => in_phases [p] e = true) m -> ordered [p] m.
Proof.
  intros Hm w. destruct (Hm w) as (evs & Hg & Hf). exists evs. split_and!; [done..|].
  apply (sorted_constant p). apply List.Forall_forall. intros q Hq.
  apply (phases_within [p]) in Hq; [|done]. destruct Hq as [<-|[]]. done.
Qed.

Lemma ordered_silent {A} (ps : list nat) (m : M A) :
  emits (fun e => in_phases [] e = true) m -> ordered ps m.
Proof.
  intros Hm w. destruct (Hm w) as (evs & Hg & Hf). exists evs. split_and!; [done| |].
  - eapply Forall_impl; [exact Hf|]. intros e. apply in_phases_incl. by intros ?.
  - assert (phases evs = []) as ->; [|constructor].
    destruct (phases evs) as [|q l] eqn:E; [done|].
    destruct (phases_within [] evs Hf q). rewrite E. by left.
Qed.

Lemma ordered_weaken {A} (ps ps' : list nat) (m : M A) :
  incl ps ps' -> ordered ps m -> ordered ps' m.
Proof.
  intros Hi Hm w. destruct (Hm w) as (evs & Hg & Hf & Hs). exists evs. split_and!; [done| |done].
  eapply Forall_impl; [exact Hf|]. intros e. by apply in_phases_incl.
Qed.

Lemma ordered_ret {A} ps (a : A) : ordered ps (ret a).
Proof. intros w. exists []. split_and!; [apply grows_refl|constructor|constructor]. Qed.

Lemma ordered_raise {A} ps e : ordered ps (@raise A e).
Proof. intros w. exists []. split_and!; [apply grows_refl|constructor|constructor]. Qed.

Lemma ordered_join (ps1 ps2 ps : list nat) (w w1 w2 : World) (e1 e2 : list Event) :
  (forall p q, In p ps1 -> In q ps2 -> (p <= q)%nat) -> incl ps1 ps -> incl ps2 ps ->
  grows w w1 e1 -> Forall (fun e => in_phases ps1 e = true) e1 -> StronglySorted le (phases e1) ->
  grows w1 w2 e2 -> Forall (fun e => in_phases ps2 e = true) e2 -> StronglySorted le (phases e2) ->
  grows w w2 (e1 ++ e2)
  /\ Forall (fun e => in_phases ps e = true) (e1 ++ e2)
  /\ StronglySorted le (phases (e1 ++ e2)).
Proof.
  intros Hle H1 H2 Hg1 Hf1 Hs1 Hg2 Hf2 Hs2. split_and!.
  - eapply grows_trans; eauto.
  - apply Forall_app. split; (eapply Forall_impl; [eassumption|]); intros e;
      by apply in_phases_incl.
  - rewrite phases_app. apply sorted_app; [done..|].
    intros p q Hp Hq. apply Hle; eapply phases_within; eauto.
Qed.

Lemma ordered_here (ps : list nat) (w : World) :
  grows w w [] /\ Forall (fun e => in_phases ps e = true) [] /\ StronglySorted le (phases []).
Proof. split_and!; [apply grows_refl|constructor|constructor]. Qed.

Lemma ordered_bind {A B} (ps1 ps2 ps : list nat) (m : M A) (k : A -> M B) :
  ordered ps1 m -> (forall a, ordered ps2 (k a)) ->
  (forall p q, In p ps1 -> In q ps2 -> (p <= q)%nat) -> incl ps1 ps -> incl ps2 ps ->
  ordered ps (bind m k).
Proof.
  intros Hm Hk Hle H1 H2 w. unfold bind.
  destruct (Hm w) as (e1 & Hg1 & Hf1 & Hs1).
  destruct (m w) as [[a|e|] w1]; simpl in *.
  - destruct (Hk a w1) as (e2 & Hg2 & Hf2 & Hs2).
    exists (e1 ++ e2)%list. eapply ordered_join; eauto.
  - exists e1. split_and!; [done| |done].
    eapply Forall_impl; [exact Hf1|]. intros ?. by apply in_phases_incl.
  - exists e1. split_and!; [done| |done].
    eapply Forall_impl; [exact Hf1|]. intros ?. by apply in_phases_incl.
Qed.

Lemma ordered_try_finally {A} (ps1 ps2 ps : list nat) (body : M A) (fin : M unit) :
  ordered ps1 body -> ordered ps2 fin ->
  (forall p q, In p ps1 -> In q ps2 -> (p <= q)%nat) -> incl ps1 ps -> incl ps2 ps ->
  ordered ps (try_finally body fin).
Proof.
  intros Hb Hf Hle H1 H2 w. unfold try_finally.
  destruct (Hb w) as (e1 & Hg1 & Hf1 & Hs1).
  destruct (body w) as [rb wb]; simpl in *.
  destruct (Hf wb) as (e2 & Hg2 & Hf2 & Hs2).
  destruct rb; [| |exists e1; split_and!; [done| |done];
                   eapply Forall_impl; [exact Hf1|]; intros ?; by apply in_phases_incl];
    destruct (fin wb) as [[| |] wf]; simpl in *;
    exists (e1 ++ e2)%list; eapply ordered_join; eauto.
Qed.

End OrderOfSteps.

Section EventsOfFunctions.
Import Py Trace DeployAdapter Order.

Lemma emits_mkstemp P prefix : (forall p, P (EvMkstemp p)) -> emits P (mkstemp prefix).
Proof.
  intros H. apply emits_one. intros w. unfold mkstemp.
  destruct (x_tmpname (ext w) (length (log w)) prefix); simpl; eauto.
  destruct (fs w !! _); simpl; eauto.
  right. eexists. split; [apply H|reflexivity].
Qed.

Lemma emits_os_write P fd data : (forall p, P (EvWrite p data)) -> emits P (os_write fd data).
Proof.
  intros H. apply emits_one. intros w. unfold os_write.
  destruct (fs w !! Path fd) as [[|]|]; try destruct (refused (Path fd) w); simpl; eauto.
  right. eexists. split; [apply H|reflexivity].
Qed.

Lemma emits_os_chmod P p mode : (forall q, P (EvChmod q mode)) -> emits P (os_chmod p mode).
Proof.
  intros H. apply emits_one. intros w. unfold os_chmod.
  destruct (fs w !! Path p) as [[|]|]; try destruct (refused (Path p) w); simpl; eauto;
    right; eexists; (split; [apply H|reflexivity]).
Qed.

Lemma emits_os_remove P p : (forall q, P (EvRemove q)) -> emits P (os_remove p).
Proof.
  intros H. apply emits_one. intros w. unfold os_remove.
  destruct (fs w !! Path p) as [[|]|]; try destruct (refused (Path p) w); simpl; eauto.
  right. eexists. split; [apply H|reflexivity].
Qed.

Lemma emits_requests_get P url headers :
  P (EvGet url headers) -> emits P (requests_get url headers).
Proof.
  intros H. apply emits_one. intros w. unfold requests_get. right.
  exists (EvGet url headers). split; [done|].
  destruct (x_http _ _ _ _); reflexivity.
Qed.

Lemma emits_time_sleep P secs : P (EvSleep secs) -> emits P (time_sleep secs).
Proof.
  intros H. apply emits_one. intros w. unfold time_sleep.
  destruct (secs <? 0)%Z; simpl; eauto.
  right. eexists. split; [exact H|reflexivity].
Qed.

Lemma emits_get_method P j k : emits P (get_method j k).
Proof. destruct j; first [apply emits_ret | apply emits_raise]. Qed.

Lemma emits_lower_method P v : emits P (lower_method v).
Proof. destruct v; first [apply emits_ret | apply emits_raise]. Qed.

Lemma emits_status_in P status words : emits P (status_in status words).
Proof.
  unfold status_in. destruct (truthy status); [|apply emits_ret].
  apply emits_bind; [apply emits_lower_method | intros; apply emits_ret].
Qed.

Lemma emits_resolve_status P j : emits P (resolve_status j).
Proof.
  unfold resolve_status, or_else.
  repeat first
    [ apply emits_ret | apply emits_get_method
    | apply emits_bind; [|intros ?]
    | match goal with |- emits _ (if ?b then _ else _) => destruct b end ].
Qed.

(** Whatever a line says, it may be output of the poller. *)
Lemma print_in_poll (t : text) : in_phases [6%nat] (EvPrint t) = true.
Proof. unfold in_phases. simpl. destruct (forallb is_lit t); reflexivity. Qed.

End EventsOfFunctions.

Ltac by_cases :=
  repeat match goal with |- emits _ (if ?b then _ else _) => destruct b end.

Ltac emits_steps :=
  repeat first
    [ apply emits_ret | apply emits_raise | apply emits_pure
    | apply emits_print_line; first [reflexivity | apply print_in_poll]
    | apply emits_print; first [reflexivity | apply print_in_poll]
    | apply emits_run; intros; reflexivity
    | apply emits_mkstemp; intros; reflexivity
    | apply emits_os_write; intros; reflexivity
    | apply emits_os_chmod; intros; reflexivity
    | apply emits_os_remove; intros; reflexivity
    | apply emits_mkdtemp; intros; reflexivity
    | apply emits_iterdir; intros; reflexivity
    | apply emits_rmtree; reflexivity
    | apply emits_path_exists
    | apply emits_requests_get; reflexivity
    | apply emits_time_sleep; reflexivity
    | apply emits_resolve_status | apply emits_status_in
    | apply emits_git_env; intros; reflexivity
    | apply emits_for_each; intros;
        first [apply emits_clean_entry; intros; reflexivity
              | apply emits_copy_entry; intros; reflexivity]
    | apply emits_bind; [|intros ?]
    | apply emits_try_except; [|intros ?]
    | apply emits_try_finally
    | match goal with |- emits _ (if ?b then _ else _) => destruct b end ].

Ltac side_conditions :=
  first [ intros ? ? ? ?; simpl in *; lia
        | intros ? ?; simpl in *; tauto ].

Section StepsOfFunctions.
Import Py Trace DeployAdapter Order.

Lemma write_key_events key :
  emits (fun e => in_phases [1%nat] e = true) (write_ssh_key_if_provided key).
Proof. unfold write_ssh_key_if_provided, os_close. emits_steps. Qed.

Lemma clean_worktree_events allow :
  emits (fun e => in_phases [2%nat] e = true) (ensure_clean_worktree allow).
Proof. unfold ensure_clean_worktree. emits_steps. Qed.

Lemma push_head_events remote_url branch key force :
  emits (fun e => in_phases [4%nat] e = true) (git_push_current_head remote_url branch key force).
Proof. unfold git_push_current_head, environ_copy. destruct force; emits_steps. Qed.

Lemma poll_once_events url headers last :
  emits (fun e => in_phases [6%nat] e = true) (poll_once url headers last).
Proof.
  unfold poll_once, raise_for_status, response_json, poll_decide.
  apply emits_try_except.
  - apply emits_bind; [apply emits_requests_get; reflexivity|]. intros r.
    apply emits_bind; [by_cases; emits_steps|]. intros _.
    apply emits_bind; [destruct (body r); emits_steps|]. intros j. emits_steps.
  - intros e. emits_steps.
Qed.

Lemma poll_loop_events fuel url headers interval deadline last :
  emits (fun e => in_phases [6%nat] e = true) (poll_loop fuel url headers interval deadline last).
Proof.
  revert last. induction fuel as [|fuel IH]; intros last; simpl; [apply emits_pure|].
  unfold time_time. apply emits_bind; [apply emits_pure|]. intros t.
  destruct (negb (Qle_bool deadline t)); [|emits_steps].
  apply emits_bind; [apply poll_once_events|]. intros [j|last']; [apply emits_ret|].
  apply emits_bind; [apply emits_time_sleep; reflexivity|]. intros _. apply IH.
Qed.

Lemma poll_events fuel url token interval timeout :
  emits (fun e => in_phases [6%nat] e = true) (poll_status_url fuel url token interval timeout).
Proof.
  unfold poll_status_url, time_time.
  apply emits_bind; [apply emits_print_line; reflexivity|]. intros _.
  apply emits_bind; [apply emits_pure|]. intros t. apply poll_loop_events.
Qed.

Lemma cleanup_events key :
  emits (fun e => in_phases [7%nat] e = true) (main_cleanup key).
Proof. unfold main_cleanup, os_path_exists. emits_steps. Qed.

Lemma prepare_and_push_ordered remote_url branch artifact_dir tmp env msg force :
  ordered [3; 4]%nat (prepare_and_push remote_url branch artifact_dir tmp env msg force).
Proof.
  unfold prepare_and_push.
  repeat first
    [ apply ordered_raise
    | apply (ordered_weaken [4%nat]); [side_conditions|];
        apply ordered_emits; destruct force; solve [emits_steps]
    | eapply (ordered_bind [3%nat] [3; 4]%nat);
        [apply ordered_emits; solve [emits_steps] | intros ? | side_conditions..]
    | match goal with |- ordered _ (if ?b then _ else _) => destruct b end ].
Qed.

Lemma artifact_dir_ordered remote_url branch artifact_dir key msg force :
  ordered [3; 4; 5]%nat (git_push_artifact_dir remote_url branch artifact_dir key msg force).
Proof.
  unfold git_push_artifact_dir, environ_copy.
  eapply (ordered_bind [] [3; 4; 5]%nat);
    [apply ordered_silent; emits_steps | intros env0 | side_conditions..].
  eapply (ordered_bind [] [3; 4; 5]%nat);
    [apply ordered_silent; emits_steps | intros env | side_conditions..].
  eapply (ordered_bind [3%nat] [3; 4; 5]%nat);
    [apply ordered_emits; emits_steps | intros tmp | side_conditions..].
  eapply (ordered_bind [] [3; 4; 5]%nat);
    [apply ordered_silent; emits_steps | intros _ | side_conditions..].
  eapply (ordered_try_finally [3; 4]%nat [5%nat]);
    [apply prepare_and_push_ordered | apply ordered_emits; emits_steps | side_conditions..].
Qed.

Lemma ordered_events {A} (ps : list nat) (m : M A) :
  ordered ps m -> emits (fun e => in_phases ps e = true) m.
Proof. intros H w. destruct (H w) as (evs & Hg & Hf & _). eauto. Qed.

(** Lines 220-227: the push, in either mode. *)
Lemma push_part_ordered args key :
  ordered (if truthy_str (artifact_dir args) then [3; 4; 5]%nat else [2; 4]%nat)
    (if negb (truthy_str (artifact_dir args)) then
       ensure_clean_worktree (allow_dirty args) ;;
       print_line ("Pushing current HEAD to " +:+ remote args +:+ " branch " +:+ branch args) ;;
       git_push_current_head (remote args) (branch args) key (force args)
     else
       msg <- (if truthy_str (commit_msg args) then ret (text_or_empty (commit_msg args))
               else stamp <- strftime_now ;; ret ("deploy: " +:+ stamp)) ;;
       git_push_artifact_dir (remote args) (branch args) (text_or_empty (artifact_dir args))
         key msg (force args)).
Proof.
  unfold strftime_now.
  destruct (truthy_str (artifact_dir args)); simpl negb; cbv iota.
  - eapply (ordered_bind [] [3; 4; 5]%nat);
      [apply ordered_silent; emits_steps | intros msg | side_conditions..].
    apply artifact_dir_ordered.
  - eapply (ordered_bind [2%nat] [4%nat] [2; 4]%nat);
      [apply ordered_emits; apply clean_worktree_events | intros _ | side_conditions..].
    eapply (ordered_bind [] [4%nat]);
      [apply ordered_silent; emits_steps | intros _ | side_conditions..].
    apply ordered_emits. apply push_head_events.
Qed.

Lemma main_body_ordered fuel args key :
  ordered (body_phases args) (main_body fuel args key).
Proof.
  unfold main_body, body_phases, environ_get.
  eapply (ordered_bind
            (if truthy_str (artifact_dir args) then [3; 4; 5]%nat else [2; 4]%nat)
            (if truthy_str (status_url args) && negb (skip_poll args) then [6%nat] else [])).
  - apply push_part_ordered.
  - intros _.
    eapply (ordered_bind [] _);
      [apply ordered_silent; emits_steps | intros _ | side_conditions | side_conditions
      | apply incl_refl ].
    destruct (truthy_str (status_url args) && negb (skip_poll args)).
    + apply ordered_emits. apply emits_bind; [apply emits_pure|]. intros token.
      apply emits_bind; [apply poll_events|]. intros; apply emits_ret.
    + apply ordered_silent. emits_steps.
  - destruct (truthy_str (artifact_dir args)),
      (truthy_str (status_url args) && negb (skip_poll args)); side_conditions.
  - apply incl_appl, incl_refl.
  - apply incl_appr, incl_refl.
Qed.

Lemma body_phases_range args (q : nat) : In q (body_phases args) -> (2 <= q <= 6)%nat.
Proof.
  unfold body_phases.
  destruct (truthy_str (artifact_dir args)), (truthy_str (status_url args) && negb (skip_poll args));
    simpl; lia.
Qed.

(** [main] is the sequence: write the key if there is one, then the body
    under the [finally] block that removes it. *)
Lemma main_unfold fuel args w :
  main fuel args w
  = bind (if truthy_str (git_ssh_key w) then write_ssh_key_if_provided (git_ssh_key w)
          else ret None)
      (fun key => try_finally (main_body fuel args key) (main_cleanup key)) w.
Proof.
  unfold main, bind, git_ssh_key.
  set (key0 := or_str _ _).
  destruct ((if truthy_str key0 then write_ssh_key_if_provided key0 else ret None) w)
    as [[key|e|] w1]; reflexivity.
Qed.

Lemma body_and_cleanup_ordered fuel args key :
  ordered (body_phases args ++ [7%nat])
    (try_finally (main_body fuel args key) (main_cleanup key)).
Proof.
  eapply (ordered_try_finally (body_phases args) [7%nat]);
    [apply main_body_ordered | apply ordered_emits, cleanup_events | |
     apply incl_appl, incl_refl | apply incl_appr, incl_refl].
  intros p q Hp%body_phases_range Hq. simpl in Hq. lia.
Qed.

Lemma main_ordered fuel args : ordered (main_phases args) (main fuel args).
Proof.
  intros w. rewrite main_unfold.
  pose proof (ordered_bind [1%nat] (body_phases args ++ [7%nat]) (main_phases args)
                (if truthy_str (git_ssh_key w) then write_ssh_key_if_provided (git_ssh_key w)
                 else ret None)
                (fun key => try_finally (main_body fuel args key) (main_cleanup key))) as H.
  apply H; clear H.
  - destruct (truthy_str (git_ssh_key w)); [|apply ordered_ret].
    apply ordered_emits, write_key_events.
  - intros key. apply body_and_cleanup_ordered.
  - intros p q Hp [Hq%body_phases_range|Hq]%in_app_or; simpl in *; lia.
  - apply incl_appl, incl_refl.
  - apply incl_appr, incl_refl.
Qed.

End StepsOfFunctions.

Section Orchestration.
Import Py Trace DeployAdapter Order.

(** C8, as the code has it: the events of every run of [main] come in the
    order credential (1), check of the working tree (2), preparation of the
    payload (3), push (4), removal of the clone (5), polling (6), removal
    of the credential (7), and only the steps the arguments call for occur:
    the check of the working tree in DirectHead mode only, polling only
    with a status URL and without [--skip-poll].  The credential is written
    before the working tree is checked. *)
Theorem steps_run_in_code_order (fuel : nat) (args : Args) (w : World) :
  let evs := new_events w (main fuel args w).2 in
  StronglySorted le (phases evs)
  /\ (forall q, In q (phases evs) -> In q (main_phases args)).
Proof.
  intros evs. subst evs.
  destruct (main_ordered fuel args w) as (evs & Hg & Hf & Hs).
  rewrite (grows_new_events _ _ _ Hg). split; [exact Hs|].
  by apply phases_within.
Qed.

(** C8 as stated fails: with a key in the environment and a dirty
    working tree, the key file has been created, filled and restricted
    before [git status] is started; the run then stops on the dirty tree.
    Ranked as the specification orders the steps, the run goes back. *)
Lemma credential_written_before_dirty_check :
  let w := Sample.start Runs.with_key ∅ Runs.dirty_tree in
  let rw := main 0 Runs.direct_head w in
  rw.1 = Raise (SystemExit
           [Lit "Refusing to push with a dirty working tree. Commit or use --allow-dirty to override."])
  /\ new_events w rw.2 =
       [EvMkstemp ["/"; "tmp"; "git_deploy_key_k3y"];
        EvWrite ["/"; "tmp"; "git_deploy_key_k3y"] (bytes_lit "-----BEGIN KEY-----");
        EvChmod ["/"; "tmp"; "git_deploy_key_k3y"] 384;
        EvPrint [Lit "Wrote temporary SSH key to /tmp/git_deploy_key_k3y"; Lit nl];
        EvPrint [Lit "$ git status --porcelain"; Lit nl];
        EvRun (Argv ["git"; "status"; "--porcelain"]) None None true 0;
        EvPrint [Lit ("Working tree has uncommitted changes:" +:+ nl); Lit " ";
                 Lit "M app.js"; Lit nl];
        EvRemove ["/"; "tmp"; "git_deploy_key_k3y"]]
  /\ phases (new_events w rw.2) = [1; 1; 1; 2; 7]%nat
  /\ ~ StronglySorted le (map StatedOrder.stated_rank (phases (new_events w rw.2))).
Proof.
  split_and!; [vm_compute; reflexivity..|].
  assert (map StatedOrder.stated_rank
            (phases (new_events (Sample.start Runs.with_key ∅ Runs.dirty_tree)
               (main 0 Runs.direct_head (Sample.start Runs.with_key ∅ Runs.dirty_tree)).2))
          = [2; 2; 2; 1; 7]%nat) as -> by (vm_compute; reflexivity).
  intros H. apply StronglySorted_inv in H as [_ H].
  apply Forall_inv_tail, Forall_inv_tail, Forall_inv in H. lia.
Qed.

End Orchestration.

(** ** The credential file *)

Section CredentialLifetime.
Import Py Trace DeployAdapter Order.

Lemma temp_path_nonempty dir prefix random : temp_path dir prefix random <> EmptyString.
Proof. unfold temp_path. destruct dir; discriminate. Qed.

(** The [finally] block of [main] never raises, and leaves no file at the
    path it was given unless the operating system refuses the removal:
    [os.remove] then raises, the exception is dropped and nothing has
    changed.  (A directory found there is not removed either.) *)
Lemma cleanup_removes (p : string) (w : World) :
  p <> EmptyString ->
  (main_cleanup (Some p) w).1 = Ok tt
  /\ (fs (main_cleanup (Some p) w).2 !! Path p = None
      \/ fs (main_cleanup (Some p) w).2 !! Path p = Some Dir
      \/ refused (Path p) (main_cleanup (Some p) w).2 = true).
Proof.
  intros Hp. unfold main_cleanup. rewrite (truthy_str_nonempty p Hp).
  unfold bind, os_path_exists, try_except, os_remove. simpl.
  destruct (fs w !! Path p) as [[data mode|]|] eqn:E; simpl; rewrite ?E; simpl.
  - destruct (refused (Path p) w) eqn:R; simpl.
    + split; [done|]. right. by right.
    + split; [done|]. left. apply lookup_delete_eq.
  - split; [done|]. right. by left.
  - split; [done|]. by left.
Qed.

(** C6, where the code departs from it: a key file that has been created
    is not removed when the writing of the key fails.  When the operating
    system refuses the write (line 95), or the change of mode after it
    (line 97), [write_ssh_key_if_provided] raises although [mkstemp] has
    created the file.  [main] has then not been given the path (the
    assignment of line 218 did not happen), so its [finally] block finds
    [None] and removes nothing: [main] ends with the error, nothing
    happens after the failed call, and the file is still there, with the
    key in it when it was the change of mode that was refused. *)
Theorem key_file_left_when_writing_fails
    (fuel : nat) (args : Args) (w : World) (key random : string) :
  git_ssh_key w = Some key -> key <> EmptyString ->
  x_tmpname (ext w) (length (log w)) "git_deploy_key_" = Some random ->
  fs w !! Path (temp_path (x_tmpdir (ext w)) "git_deploy_key_" random) = None ->
  let p := temp_path (x_tmpdir (ext w)) "git_deploy_key_" random in
  let no_write := x_refused (ext w) (S (length (log w))) (Path p) in
  let no_chmod := x_refused (ext w) (S (S (length (log w)))) (Path p) in
  no_write || no_chmod = true ->
  (main fuel args w).1 = Raise (Error "OSError")
  /\ new_events w (main fuel args w).2
     = EvMkstemp (Path p) ::
       (if no_write then [] else [EvWrite (Path p) (key_bytes_of (strip key))])
  /\ fs (main fuel args w).2 !! Path p
     = Some (File (if no_write then [] else key_bytes_of (strip key)) 384).
Proof.
  intros Hk Hkey Hname Hfresh p no_write no_chmod Href.
  rewrite main_unfold. unfold bind. rewrite Hk, (truthy_str_nonempty key Hkey).
  destruct (write_ssh_key_run key random w Hkey Hname Hfresh) as (w1 & Hrun & Hfs & Hev & _).
  fold p in Hrun, Hfs, Hev. fold no_write in Hrun, Hfs, Hev. fold no_chmod in Hrun, Hev.
  rewrite Hrun, Href. simpl. split; [done|]. split.
  - rewrite Hev. destruct no_write; [done|]. simpl in Href. by rewrite Href.
  - rewrite Hfs. apply lookup_insert_eq.
Qed.

Lemma key_file_left_when_writing_fails_witness :
  let w := Sample.start Runs.with_key ∅ Sample.full_disk in
  (main 0 Runs.direct_head w).1 = Raise (Error "OSError")
  /\ new_events w (main 0 Runs.direct_head w).2 = [EvMkstemp ["/"; "tmp"; "git_deploy_key_k3y"]]
  /\ fs (main 0 Runs.direct_head w).2 !! ["/"; "tmp"; "git_deploy_key_k3y"]
     = Some (File [] 384).
Proof.
  intros w.
  apply (key_file_left_when_writing_fails 0 Runs.direct_head w Sample.key_b64 "k3y").
  - reflexivity.
  - discriminate.
  - reflexivity.
  - vm_compute. reflexivity.
  - reflexivity.
Defined.

(** When it is the change of mode that is refused, the run ends with the
    error and the key is left in the temporary directory. *)
Example refused_chmod_leaves_the_key :
  let w := Sample.start Runs.with_key ∅ Sample.chmod_refused in
  let rw := main 0 Runs.direct_head w in
  rw.1 = Raise (Error "OSError")
  /\ new_events w rw.2
     = [EvMkstemp ["/"; "tmp"; "git_deploy_key_k3y"];
        EvWrite ["/"; "tmp"; "git_deploy_key_k3y"] (bytes_lit "-----BEGIN KEY-----")]
  /\ fs rw.2 !! ["/"; "tmp"; "git_deploy_key_k3y"]
     = Some (File (bytes_lit "-----BEGIN KEY-----") 384).
Proof. vm_compute. repeat split. Qed.

(** A rejected push with a key in the environment: the run raises, and the
    key file is removed last. *)
Example rejected_push_removes_key :
  let w := Sample.start Runs.with_key ∅ Sample.push_rejected in
  let rw := main 0 Runs.direct_head w in
  rw.1 = Raise (SystemExit (failed_msg
           (Argv ["git"; "push"; "backend_im_deploy"; "HEAD:refs/heads/main"]) 1))
  /\ last (new_events w rw.2) = Some (EvRemove ["/"; "tmp"; "git_deploy_key_k3y"])
  /\ fs rw.2 !! ["/"; "tmp"; "git_deploy_key_k3y"] = None.
Proof. vm_compute. repeat split. Qed.

End CredentialLifetime.

(** ** The polling loop *)

Section PollLoop.
Import Py Trace DeployAdapter Order Polling.

Lemma logged_nil w : logged w [] = w.
Proof. destruct w. unfold logged. simpl. by rewrite app_nil_r. Qed.

Lemma logged_app w a b : logged (logged w a) b = logged w (a ++ b).
Proof. unfold logged. simpl. by rewrite app_assoc. Qed.

Lemma silent_ret {A} (a : A) : silent (ret a).
Proof. by intros w. Qed.

Lemma silent_raise {A} e : is_request_exception e = false -> silent (@raise A e).
Proof. by intros H w. Qed.

Lemma silent_bind {A B} (m : M A) (k : A -> M B) :
  silent m -> (forall a, silent (k a)) -> silent (bind m k).
Proof.
  intros Hm Hk w. unfold bind. destruct (Hm w) as [Hw Hr].
  destruct (m w) as [[a|e|] w1]; simpl in *; subst w1; [apply Hk|done|done].
Qed.

Lemma silent_get_method j k : silent (get_method j k).
Proof. destruct j; first [apply silent_ret | by apply silent_raise]. Qed.

Lemma silent_status_in status words : silent (status_in status words).
Proof.
  unfold status_in. destruct (truthy status); [|apply silent_ret].
  apply silent_bind; [|intros; apply silent_ret].
  destruct status; first [apply silent_ret | by apply silent_raise].
Qed.

Lemma silent_resolve_status j : silent (resolve_status j).
Proof.
  unfold resolve_status, or_else.
  repeat first
    [ apply silent_ret | apply silent_get_method
    | apply silent_bind; [|intros ?]
    | match goal with |- silent (if ?b then _ else _) => destruct b end ].
Qed.

Lemma status_line_is_report status j : report (status_line status j).
Proof. split; [done|]. intros v. discriminate. Qed.

Lemma success_line_is_report : report success_line.
Proof. split; [done|]. intros v. discriminate. Qed.

(** What the loop does with a decoded body [j]: it prints the status
    line, and then returns [j] after the line of success, or raises, or
    goes on with [j] as the last payload seen. *)
Lemma poll_decide_trace j w :
  exists evs,
    (poll_decide j w).2 = logged w evs /\ Forall report evs
    /\ match (poll_decide j w).1 with
       | Ok (Return v) => v = j
       | Ok (Continue v) => v = j /\ exists status, evs = [status_line status j]
       | Raise e => is_request_exception e = false
       | Diverge => False
       end.
Proof.
  destruct (poll_decide j w) as [r w'] eqn:H. simpl. unfold poll_decide in H.
  unfold bind at 1 in H. destruct (silent_resolve_status j w) as [Hw Hr].
  destruct (resolve_status j w) as [[status|e|] w0]; simpl in Hw, Hr; subst; [| |done].
  2: { inversion H; subst. exists []. rewrite logged_nil. split_and!; [done|constructor|done]. }
  unfold bind at 1, print at 1 in H. cbv beta iota in H.
  fold (status_line status j) in H.
  unfold bind at 1 in H.
  destruct (silent_status_in status ["done"; "success"; "ready"] (emit (status_line status j) w))
    as [Hw1 Hr1].
  destruct (status_in status ["done"; "success"; "ready"] (emit (status_line status j) w))
    as [[ok|e|] w0]; simpl in Hw1, Hr1; subst; [| |done].
  2: { inversion H; subst. exists [status_line status j].
       split_and!; [done|constructor; [apply status_line_is_report|constructor]|done]. }
  destruct ok.
  { cbn in H. inversion H; subst. exists [status_line status j; success_line].
    split_and!; [unfold logged, emit; simpl; by rewrite <- app_assoc| |done].
    constructor; [apply status_line_is_report|].
    constructor; [apply success_line_is_report|constructor]. }
  unfold bind at 1 in H.
  destruct (silent_status_in status ["failed"; "error"] (emit (status_line status j) w))
    as [Hw2 Hr2].
  destruct (status_in status ["failed"; "error"] (emit (status_line status j) w))
    as [[bad|e|] w0]; simpl in Hw2, Hr2; subst; [| |done].
  2: { inversion H; subst. exists [status_line status j].
       split_and!; [done|constructor; [apply status_line_is_report|constructor]|done]. }
  destruct bad; cbn in H; inversion H; subst; exists [status_line status j];
    (split; [done|]); (split; [constructor; [apply status_line_is_report|constructor]|]);
    [done|eauto].
Qed.

Lemma request_error_is_report e :
  report (EvPrint ([Lit "Status poll request error:"; Lit " "] ++ exn_text e ++ [Lit nl])%list).
Proof. split; [done|]. intros v. simpl. discriminate. Qed.

(** One pass through the [try] statement of the loop: one request, then
    reports; the clock advances by the time the request took.  When the
    pass goes on, [last] is the payload of the status line it printed, and
    unchanged if it printed none; a payload returned or kept is one the
    endpoint answered. *)
Lemma poll_once_step url headers last w :
  exists evs,
    (poll_once url headers last w).2
      = logged (tick (x_elapsed (ext w) (length (log w))) (emit (EvGet url headers) w)) evs
    /\ Forall report evs
    /\ match (poll_once url headers last w).1 with
       | Ok (Return j) => replied (ext w) url headers j
       | Ok (Continue last') =>
           last_seen last evs = last'
           /\ (last' = last \/ replied (ext w) url headers last')
       | Raise e => True
       | Diverge => False
       end.
Proof.
  destruct (poll_once url headers last w) as [r w'] eqn:H. simpl.
  unfold poll_once, try_except in H. unfold bind at 1 in H. unfold requests_get in H.
  set (w0 := tick (x_elapsed (ext w) (length (log w))) (emit (EvGet url headers) w)) in *.
  destruct (x_http (ext w) (length (log w)) url headers) as [msg|c b] eqn:Hh.
  - cbn in H. inversion H; subst r w'. eexists [_]. split; [reflexivity|].
    split; [constructor; [apply (request_error_is_report (RequestException msg))|constructor]|].
    split; [reflexivity|by left].
  - unfold bind at 1 in H. unfold raise_for_status in H. cbn [status_code] in H.
    destruct ((400 <=? c)%Z && (c <? 600)%Z).
    { cbn in H. inversion H; subst r w'. eexists [_]. split; [reflexivity|].
      split; [constructor; [apply (request_error_is_report (RequestException "HTTPError"))
                           |constructor]|].
      split; [reflexivity|by left]. }
    cbn [ret] in H. unfold bind at 1 in H. unfold response_json in H. cbn [body] in H.
    destruct b as [j|].
    2: { cbn in H. inversion H; subst r w'. eexists [_]. split; [reflexivity|].
         split; [constructor; [apply (request_error_is_report (RequestException "JSONDecodeError"))
                              |constructor]|].
         split; [reflexivity|by left]. }
    cbn [ret] in H. destruct (poll_decide_trace j w0) as (evs & Hw & Hf & Hr).
    assert (replied (ext w) url headers j) as Hrep by (by exists (length (log w)), c).
    destruct (poll_decide j w0) as [[s|e|] w1]; simpl in Hw, Hr; [| |done].
    + inversion H; subst r w'.
      exists evs. split; [exact Hw|]. split; [exact Hf|].
      destruct s as [v|v]; [by subst|]. destruct Hr as (-> & status & ->).
      split; [reflexivity|by right].
    + rewrite Hr in H. inversion H; subst r w'.
      exists evs. split; [exact Hw|]. by split.
Qed.

(** One turn of the [while] loop. *)
Lemma poll_loop_step fuel url headers interval deadline last w :
  poll_loop (S fuel) url headers interval deadline last w
  = if Qle_bool deadline (now w) then (Ok last, emit (timed_out_line last) w)
    else match poll_once url headers last w with
         | (Ok (Return j), w1) => (Ok j, w1)
         | (Ok (Continue last'), w1) =>
             if (interval <? 0)%Z then (Raise (Error "ValueError"), w1)
             else poll_loop fuel url headers interval deadline last' (slept interval w1)
         | (Raise e, w1) => (Raise e, w1)
         | (Diverge, w1) => (Diverge, w1)
         end.
Proof.
  cbn [poll_loop]. unfold bind at 1, time_time.
  destruct (Qle_bool deadline (now w)); cbn [negb]; [reflexivity|].
  unfold bind at 1. destruct (poll_once url headers last w) as [[[j|l]|e|] w1]; try reflexivity.
  unfold bind, time_sleep, slept. destruct (interval <? 0)%Z; reflexivity.
Qed.

Lemma polls_app (a b : list Event) : polls (a ++ b) = (polls a + polls b)%nat.
Proof. unfold polls. by rewrite List.filter_app, length_app. Qed.

Lemma polls_reports (evs : list Event) : Forall report evs -> polls evs = 0%nat.
Proof.
  induction 1 as [|e l [He _] _ IH]; [done|].
  unfold polls in *. simpl. destruct e; try discriminate. exact IH.
Qed.

Lemma no_timeout_in_reports (evs : list Event) v :
  Forall report evs -> ~ In (timed_out_line v) evs.
Proof.
  intros Hf Hin. rewrite List.Forall_forall in Hf. destruct (Hf _ Hin) as [_ Hn].
  by apply (Hn v).
Qed.

Lemma timed_out_line_inj v v' : timed_out_line v = timed_out_line v' -> v = v'.
Proof. unfold timed_out_line. intros H. by inversion H. Qed.

Lemma last_seen_app before a b : last_seen before (a ++ b) = last_seen (last_seen before a) b.
Proof.
  unfold last_seen. rewrite omap_app.
  destruct (omap payload_of b) as [|x l] eqn:E using rev_ind.
  - by rewrite app_nil_r.
  - by rewrite app_assoc, !last_snoc.
Qed.

(** The line that announces the timeout is printed only when the loop
    ends normally, and the value it shows is the one returned: the payload
    of the last status line, or [last] as it was at the start when there
    is none; it is [last] or a body the endpoint answered. *)
Lemma poll_loop_timed_out url headers interval deadline fuel :
  forall last w,
  exists evs,
    grows w (poll_loop fuel url headers interval deadline last w).2 evs
    /\ forall v, In (timed_out_line v) evs ->
         (poll_loop fuel url headers interval deadline last w).1 = Ok v
         /\ v = last_seen last evs
         /\ (v = last \/ replied (ext w) url headers v).
Proof.
  induction fuel as [|fuel IH]; intros last w.
  - exists []. split; [apply grows_refl|]. intros v [].
  - rewrite poll_loop_step. destruct (Qle_bool deadline (now w)).
    { exists [timed_out_line last]. split; [reflexivity|].
      intros v [Hv|[]]. apply timed_out_line_inj in Hv as <-. auto. }
    destruct (poll_once_step url headers last w) as (evs1 & Hw & Hf & Hr).
    assert (forall r, exists evs,
              grows w (r : result value, (poll_once url headers last w).2).2 evs
              /\ forall v, In (timed_out_line v) evs ->
                   r = Ok v /\ v = last_seen last evs
                   /\ (v = last \/ replied (ext w) url headers v)) as Hstop.
    { intros r. exists (EvGet url headers :: evs1). rewrite Hw. split.
      - unfold grows. simpl. by rewrite <- app_assoc.
      - intros v [Hv|Hv]; [discriminate|]. by apply no_timeout_in_reports in Hv. }
    destruct (poll_once url headers last w) as [[[j|last']|e|] w1]; simpl in Hw; try apply Hstop.
    destruct (interval <? 0)%Z; [apply Hstop|].
    destruct (IH last' (slept interval w1)) as (evs2 & Hg2 & Hv2).
    exists ((EvGet url headers :: evs1) ++ EvSleep interval :: evs2)%list. split.
    + unfold grows in *. rewrite Hg2. subst w1. simpl. rewrite <- !app_assoc. reflexivity.
    + intros v [[Hv|Hv]|[Hv|Hv]]%in_app_or; try discriminate.
      { by apply no_timeout_in_reports in Hv. }
      destruct (Hv2 v Hv) as (Hok & Hseen & Hwhich). split; [exact Hok|].
      destruct Hr as [Hlast Hrep].
      assert (ext (slept interval w1) = ext w) as He by (subst w1; reflexivity).
      rewrite He in Hwhich. split.
      * rewrite last_seen_app.
        change (last_seen last (EvGet url headers :: evs1)) with (last_seen last evs1).
        rewrite Hlast. exact Hseen.
      * destruct Hwhich as [->|?]; [|by right]. exact Hrep.
Qed.

(** With at most [n] intervals left before the deadline, the loop ends
    after at most [n] requests. *)
Lemma poll_loop_bounded url headers interval deadline :
  (0 < interval)%Z ->
  forall n fuel last w,
    steady (ext w) -> (n < fuel)%nat ->
    (deadline <= now w + inject_Z (Z.of_nat n * interval))%Q ->
    (poll_loop fuel url headers interval deadline last w).1 <> Diverge
    /\ exists evs,
         grows w (poll_loop fuel url headers interval deadline last w).2 evs
         /\ (polls evs <= n)%nat.
Proof.
  intros Hi. induction n as [|n IH]; intros fuel last w Hs Hfuel Hd;
    (destruct fuel as [|fuel]; [lia|]); rewrite poll_loop_step;
    destruct (Qle_bool deadline (now w)) eqn:Hq;
    try (split; [done|]; exists [timed_out_line last]; split; [reflexivity|]; unfold polls; simpl; lia).
  - exfalso. assert (Qle_bool deadline (now w) = true) as Hq'; [|congruence].
    apply Qle_bool_iff. change (inject_Z (Z.of_nat 0 * interval)) with 0%Q in Hd. lra.
  - assert (~ (deadline <= now w)%Q) as Hlt.
    { intros H. apply Qle_bool_iff in H. congruence. }
    destruct (poll_once_step url headers last w) as (evs1 & Hw & Hf & Hr).
    assert (forall r : result value, r <> Diverge ->
              r <> Diverge /\ exists evs,
                grows w (r, (poll_once url headers last w).2).2 evs /\ (polls evs <= S n)%nat)
      as Hstop.
    { intros r Hr'. split; [done|]. exists (EvGet url headers :: evs1). rewrite Hw. split.
      - unfold grows. simpl. by rewrite <- app_assoc.
      - change (EvGet url headers :: evs1) with ([EvGet url headers] ++ evs1)%list.
        rewrite polls_app, (polls_reports evs1 Hf). unfold polls. simpl. lia. }
    destruct (poll_once url headers last w) as [[[j|last']|e|] w1]; simpl in Hw, Hr;
      try (by apply Hstop); try done.
    assert ((interval <? 0)%Z = false) as -> by lia.
    destruct (IH fuel last' (slept interval w1)) as (Hnd & evs2 & Hg2 & Hp2).
    + subst w1. exact Hs.
    + lia.
    + subst w1. simpl.
      replace (Z.of_nat (S n) * interval)%Z with (Z.of_nat n * interval + interval)%Z in Hd
        by lia.
      rewrite inject_Z_plus in Hd.
      pose proof (Hs (length (log w))) as H1.
      pose proof (Hs (length ((log w ++ [EvGet url headers]) ++ evs1))) as H2.
      lra.
    + split; [exact Hnd|].
      exists (([EvGet url headers] ++ evs1) ++ [EvSleep interval] ++ evs2)%list. split.
      * unfold grows in *. rewrite Hg2. subst w1. simpl. rewrite <- !app_assoc. reflexivity.
      * rewrite !polls_app, (polls_reports evs1 Hf). unfold polls at 1 2. simpl. lia.
Qed.

End PollLoop.

(** ** Timing out *)

Section Timeout.
Import Py Trace DeployAdapter Order Polling.

Lemma ceil_div_covers (timeout interval : Z) :
  (0 < interval)%Z ->
  (timeout <= Z.of_nat (Z.to_nat (ceil_div timeout interval)) * interval)%Z.
Proof.
  intros Hi. unfold ceil_div.
  pose proof (Z.div_mod (- timeout) interval ltac:(lia)) as Hdm.
  pose proof (Z.mod_pos_bound (- timeout) interval Hi) as Hb.
  destruct (Z.le_gt_cases 0 (- (- timeout / interval))) as [Hq|Hq].
  - rewrite Z2Nat.id by exact Hq. nia.
  - assert (Z.to_nat (- (- timeout / interval)) = 0%nat) as -> by lia. nia.
Qed.

Lemma poll_status_url_unfold fuel url token interval timeout w :
  poll_status_url fuel url token interval timeout w
  = poll_loop fuel url (auth_headers token) interval (now w + inject_Z timeout)%Q VNone
      (emit (EvPrint [Lit ("Polling status URL: " +:+ url +:+ " (timeout "
                           +:+ pretty timeout +:+ "s)"); Lit nl]) w).
Proof. reflexivity. Qed.

Lemma poller_bounded fuel url token interval timeout w :
  (0 < interval)%Z -> steady (ext w) ->
  (Z.to_nat (ceil_div timeout interval) < fuel)%nat ->
  (poll_status_url fuel url token interval timeout w).1 <> Diverge
  /\ (polls (new_events w (poll_status_url fuel url token interval timeout w).2)
      <= Z.to_nat (ceil_div timeout interval))%nat.
Proof.
  intros Hi Hs Hfuel. rewrite poll_status_url_unfold.
  set (w0 := emit _ w).
  destruct (poll_loop_bounded url (auth_headers token) interval (now w + inject_Z timeout)%Q Hi
              (Z.to_nat (ceil_div timeout interval)) fuel VNone w0) as (Hnd & evs & Hg & Hp).
  - exact Hs.
  - exact Hfuel.
  - simpl. pose proof (ceil_div_covers timeout interval Hi) as Hc.
    apply Qplus_le_r. rewrite <- Zle_Qle. exact Hc.
  - split; [exact Hnd|].
    assert (grows w w0 [EvPrint [Lit ("Polling status URL: " +:+ url +:+ " (timeout "
                                      +:+ pretty timeout +:+ "s)"); Lit nl]]) as Hg0
      by reflexivity.
    rewrite (grows_new_events _ _ _ (grows_trans _ _ _ _ _ Hg0 Hg)).
    rewrite polls_app. unfold polls at 1. simpl. exact Hp.
Qed.

Lemma poller_timed_out fuel url token interval timeout w v :
  In (timed_out_line v) (new_events w (poll_status_url fuel url token interval timeout w).2) ->
  (poll_status_url fuel url token interval timeout w).1 = Ok v
  /\ v = last_seen VNone (new_events w (poll_status_url fuel url token interval timeout w).2)
  /\ (v = VNone \/ replied (ext w) url (auth_headers token) v).
Proof.
  rewrite poll_status_url_unfold. set (w0 := emit _ w).
  destruct (poll_loop_timed_out url (auth_headers token) interval
              (now w + inject_Z timeout)%Q fuel VNone w0) as (evs & Hg & Hv).
  assert (grows w w0 [EvPrint [Lit ("Polling status URL: " +:+ url +:+ " (timeout "
                                    +:+ pretty timeout +:+ "s)"); Lit nl]]) as Hg0
    by reflexivity.
  rewrite (grows_new_events _ _ _ (grows_trans _ _ _ _ _ Hg0 Hg)).
  intros [Hin|Hin]; [discriminate|].
  destruct (Hv v Hin) as (Hok & Hseen & Hwhich). split; [exact Hok|]. split; [|exact Hwhich].
  rewrite last_seen_app. exact Hseen.
Qed.

Lemma main_cleanup_returns key w : (main_cleanup key w).1 = Ok tt.
Proof.
  unfold main_cleanup. destruct (truthy_str key); [|reflexivity].
  unfold bind, os_path_exists, try_except, os_remove. simpl.
  destruct (fs w !! Path (text_or_empty key)) as [[|]|] eqn:E; simpl; rewrite ?E;
    try destruct (refused (Path (text_or_empty key)) w); reflexivity.
Qed.

(** The line of the timeout is output of the poller. *)
Lemma timeout_needs_poller (ps : list nat) (evs : list Event) v :
  Forall (fun e => in_phases ps e = true) evs -> In (timed_out_line v) evs -> In 6%nat ps.
Proof.
  intros Hf Hin. rewrite List.Forall_forall in Hf. apply Hf in Hin.
  change (existsb (Nat.eqb 6) ps = true) in Hin.
  apply existsb_exists in Hin as (q & Hq & ->%Nat.eqb_eq). exact Hq.
Qed.

(** When the line of the timeout is printed within the [try] block of
    [main], the block returns. *)
Lemma main_body_timed_out fuel args key w v :
  In (timed_out_line v) (new_events w (main_body fuel args key w).2) ->
  (main_body fuel args key w).1 = Ok tt.
Proof.
  destruct (main_body fuel args key w) as [r w'] eqn:H. simpl. unfold main_body in H.
  eapply (step_emits (fun e => in_phases [2; 3; 4; 5]%nat e = true)) in H;
    [| |apply grows_refl].
  2: { eapply emits_mono; [|apply ordered_events, push_part_ordered].
       intros e. apply in_phases_incl. destruct (truthy_str (artifact_dir args)); side_conditions. }
  destruct H as (evs & Hf & [(a & w1 & _ & Hg & Hk)|(Hg & _)]); simpl in Hg.
  2: { rewrite (grows_new_events _ _ _ Hg). intros Hin%(timeout_needs_poller _ _ _ Hf).
       simpl in Hin. lia. }
  unfold print_line at 1 in Hk. eapply step_print in Hk; [|exact Hg].
  destruct Hk as (w2 & Hg2 & _ & _ & _ & Hk).
  assert (Forall (fun e => in_phases [2; 3; 4; 5]%nat e = true)
            (evs ++ [EvPrint [Lit ("Push to " +:+ remote args +:+ " branch " +:+ branch args
                                    +:+ " complete."); Lit nl]])) as Hf2.
  { apply Forall_app. split; [exact Hf|]. by repeat constructor. }
  destruct (truthy_str (status_url args) && negb (skip_poll args)).
  - unfold bind at 1, environ_get in Hk. cbv beta iota in Hk.
    pose proof (poller_timed_out fuel (text_or_empty (status_url args))
                  (environ w2 !! "BACKEND_IM_TOKEN") 3 (status_timeout args) w2 v) as Ht.
    destruct (poll_events fuel (text_or_empty (status_url args))
                (environ w2 !! "BACKEND_IM_TOKEN") 3 (status_timeout args) w2)
      as (evsp & Hgp & _).
    rewrite (grows_new_events _ _ _ Hgp) in Ht.
    unfold bind in Hk.
    destruct (poll_status_url fuel (text_or_empty (status_url args))
                (environ w2 !! "BACKEND_IM_TOKEN") 3 (status_timeout args) w2)
      as [[x|e|] w3]; simpl in Ht, Hgp; inversion Hk; subst; [done| |];
      rewrite (grows_new_events _ _ _ (grows_trans _ _ _ _ _ Hg2 Hgp));
      intros [Hin|Hin]%in_app_or;
      try (apply (timeout_needs_poller _ _ _ Hf2) in Hin; simpl in Hin; lia);
      destruct (Ht Hin) as [? _]; discriminate.
  - eapply (step_emits (fun e => in_phases [] e = true)) in Hk; [| |exact Hg2].
    2: { destruct (truthy_str (status_url args)); emits_steps. }
    destruct Hk as (evs3 & Hf3 & [(a3 & w3 & _ & Hg3 & Hk)|(Hg3 & _)]).
    + unfold print_line, print in Hk. inversion Hk; subst. done.
    + rewrite (grows_new_events _ _ _ Hg3). intros [Hin|Hin]%in_app_or.
      * apply (timeout_needs_poller _ _ _ Hf2) in Hin. simpl in Hin. lia.
      * apply (timeout_needs_poller _ _ _ Hf3) in Hin. destruct Hin.
Qed.

(** A timed-out poll is not fatal: a run of [main] that prints the line
    of the timeout returns. *)
Lemma main_timed_out fuel args w v :
  In (timed_out_line v) (new_events w (main fuel args w).2) -> (main fuel args w).1 = Ok tt.
Proof.
  rewrite main_unfold. unfold bind.
  assert (emits (fun e => in_phases [1%nat] e = true)
            (if truthy_str (git_ssh_key w) then write_ssh_key_if_provided (git_ssh_key w)
             else ret None)) as Hpre.
  { destruct (truthy_str (git_ssh_key w)); [apply write_key_events|apply emits_ret]. }
  destruct (Hpre w) as (evs1 & Hg1 & Hf1).
  destruct ((if truthy_str (git_ssh_key w) then write_ssh_key_if_provided (git_ssh_key w)
             else ret None) w) as [[key|e|] w1]; simpl in Hg1.
  2, 3: simpl; rewrite (grows_new_events _ _ _ Hg1);
        intros Hin%(timeout_needs_poller _ _ _ Hf1); simpl in Hin; lia.
  unfold try_finally.
  pose proof (main_body_timed_out fuel args key w1 v) as Hb.
  destruct (main_body_ordered fuel args key w1) as (evsb & Hgb & _).
  rewrite (grows_new_events _ _ _ Hgb) in Hb.
  destruct (main_body fuel args key w1) as [rb wb]; simpl in Hb, Hgb.
  pose proof (main_cleanup_returns key wb) as Hc.
  destruct (cleanup_events key wb) as (evsc & Hgc & Hfc).
  assert (In (timed_out_line v) (new_events w (main_cleanup key wb).2) -> rb = Ok tt) as Hall.
  { rewrite (grows_new_events _ _ _ (grows_trans _ _ _ _ _ (grows_trans _ _ _ _ _ Hg1 Hgb) Hgc)).
    intros [[Hin|Hin]%in_app_or|Hin]%in_app_or.
    - apply (timeout_needs_poller _ _ _ Hf1) in Hin. simpl in Hin. lia.
    - by apply Hb.
    - apply (timeout_needs_poller _ _ _ Hfc) in Hin. simpl in Hin. lia. }
  destruct (main_cleanup key wb) as [rc wc]; simpl in Hc, Hall; subst rc.
  destruct rb as [[]|e|]; simpl.
  - done.
  - intros Hin. apply Hall in Hin. discriminate.
  - rewrite (grows_new_events _ _ _ (grows_trans _ _ _ _ _ Hg1 Hgb)).
    intros [Hin|Hin]%in_app_or.
    + apply (timeout_needs_poller _ _ _ Hf1) in Hin. simpl in Hin. lia.
    + apply Hb in Hin. discriminate.
Qed.

End Timeout.

Section PollerTimeout.
Import Py Trace DeployAdapter Order Polling.

Lemma first_truthy_false (l : list value) :
  truthy (first_truthy l) = false -> first_truthy l = VNone.
Proof.
  induction l as [|v l IH]; simpl; [done|].
  destruct (truthy v) eqn:E; [congruence|exact IH].
Qed.

(** On a reply that shows no terminal status, a pass through the loop
    body goes on. *)
Lemma poll_once_goes_on url headers last w :
  not_terminal (x_http (ext w) (length (log w)) url headers) = true ->
  exists last', (poll_once url headers last w).1 = Ok (Continue last').
Proof.
  intros Hn.
  destruct (x_http (ext w) (length (log w)) url headers) as [msg|c b] eqn:Hh.
  { exists last. unfold poll_once, try_except, bind, requests_get. rewrite Hh. reflexivity. }
  destruct ((400 <=? c)%Z && (c <? 600)%Z) eqn:Hc.
  { exists last. unfold poll_once, try_except, bind, requests_get, raise_for_status.
    rewrite Hh. simpl. rewrite Hc. reflexivity. }
  destruct b as [j|].
  2: { exists last. unfold poll_once, try_except, bind, requests_get, raise_for_status.
       rewrite Hh. simpl. rewrite Hc. reflexivity. }
  unfold not_terminal in Hn. rewrite Hc in Hn. cbn [orb] in Hn.
  destruct j as [| | | | | |d]; try discriminate.
  destruct (poll_once_on_object url headers last w c d Hh Hc) as [Hnone Hstr].
  exists (VDict d).
  pose proof (first_truthy_false
                [dict_get d "status"; dict_get d "state"; dict_get d "deploy_status"]) as Hf.
  set (status := first_truthy [dict_get d "status"; dict_get d "state";
                               dict_get d "deploy_status"]) in *.
  destruct status as [|b|n|f|s|l|d'];
    try (exfalso; apply negb_true_iff in Hn; specialize (Hf Hn); discriminate).
  - by rewrite Hnone.
  - apply andb_true_iff in Hn as [Hok%negb_true_iff Hbad%negb_true_iff].
    rewrite (Hstr s eq_refl), Hok, Hbad. reflexivity.
Qed.

(** Against an endpoint that never shows a terminal status, the loop can
    end in one way only: it prints the line of the timeout, last, and
    returns the value the line shows. *)
Lemma poll_loop_pending url headers interval deadline :
  (0 <= interval)%Z ->
  forall fuel last w,
    (forall n, not_terminal (x_http (ext w) n url headers) = true) ->
    (poll_loop fuel url headers interval deadline last w).1 = Diverge
    \/ exists v evs,
         (poll_loop fuel url headers interval deadline last w).1 = Ok v
         /\ grows w (poll_loop fuel url headers interval deadline last w).2
              (evs ++ [timed_out_line v]).
Proof.
  intros Hi. induction fuel as [|fuel IH]; intros last w Hp; [by left|].
  rewrite poll_loop_step. destruct (Qle_bool deadline (now w)).
  { right. exists last, []. split; reflexivity. }
  destruct (poll_once_goes_on url headers last w (Hp _)) as (last' & Hgo).
  destruct (poll_once_step url headers last w) as (evs1 & Hw & _).
  destruct (poll_once url headers last w) as [r w1]. simpl in Hgo, Hw. subst r.
  assert ((interval <? 0)%Z = false) as -> by lia.
  destruct (IH last' (slept interval w1)) as [Hd|(v & evs2 & Hok & Hg2)].
  - subst w1. exact Hp.
  - by left.
  - right. exists v, ((EvGet url headers :: evs1) ++ EvSleep interval :: evs2)%list.
    split; [exact Hok|].
    unfold grows in *. rewrite Hg2. subst w1. simpl. rewrite <- !app_assoc. reflexivity.
Qed.

Lemma poller_pending fuel url token interval timeout w :
  (0 < interval)%Z -> steady (ext w) ->
  (Z.to_nat (ceil_div timeout interval) < fuel)%nat ->
  (forall n, not_terminal (x_http (ext w) n url (auth_headers token)) = true) ->
  exists v,
    (poll_status_url fuel url token interval timeout w).1 = Ok v
    /\ last (new_events w (poll_status_url fuel url token interval timeout w).2)
       = Some (timed_out_line v)
    /\ v = last_seen VNone (new_events w (poll_status_url fuel url token interval timeout w).2).
Proof.
  intros Hi Hs Hfuel Hp.
  destruct (poller_bounded fuel url token interval timeout w Hi Hs Hfuel) as [Hnd _].
  pose proof (poller_timed_out fuel url token interval timeout w) as Hto.
  revert Hnd Hto. rewrite poll_status_url_unfold. set (w0 := emit _ w). intros Hnd Hto.
  destruct (poll_loop_pending url (auth_headers token) interval
              (now w + inject_Z timeout)%Q ltac:(lia) fuel VNone w0 Hp)
    as [Hd|(v & evs & Hok & Hg)]; [done|].
  exists v. split; [exact Hok|].
  assert (grows w w0 [EvPrint [Lit ("Polling status URL: " +:+ url +:+ " (timeout "
                                    +:+ pretty timeout +:+ "s)"); Lit nl]]) as Hg0
    by reflexivity.
  specialize (Hto v).
  rewrite (grows_new_events _ _ _ (grows_trans _ _ _ _ _ Hg0 Hg)) in Hto |- *.
  split; [rewrite app_assoc; apply last_snoc|].
  apply Hto. apply in_or_app. right. apply in_or_app. right. by left.
Qed.

(** C5.  With a positive interval and a clock that does not go back, the
    poller ends, after at most ceil(timeout/interval) requests.  When no
    reply shows a terminal status, it ends by printing the line of the
    timeout and returns the payload of the last status line it printed
    ([None] when there is none).  Whenever it prints that line it
    returns, and what it returns is that payload, a body the endpoint
    answered.  A run of [main] in which the line is printed returns
    normally. *)
Theorem poller_stops_within_the_timeout
    (fuel : nat) (url : string) (token : option string) (interval timeout : Z) (w : World) :
  (0 < interval)%Z -> steady (ext w) ->
  (Z.to_nat (ceil_div timeout interval) < fuel)%nat ->
  let rw := poll_status_url fuel url token interval timeout w in
  rw.1 <> Diverge
  /\ (polls (new_events w rw.2) <= Z.to_nat (ceil_div timeout interval))%nat
  /\ ((forall n, not_terminal (x_http (ext w) n url (auth_headers token)) = true) ->
      exists v, rw.1 = Ok v
        /\ last (new_events w rw.2) = Some (timed_out_line v)
        /\ v = last_seen VNone (new_events w rw.2))
  /\ (forall v, In (timed_out_line v) (new_events w rw.2) ->
        rw.1 = Ok v
        /\ v = last_seen VNone (new_events w rw.2)
        /\ (v = VNone \/ replied (ext w) url (auth_headers token) v))
  /\ (forall fuel' args w0 v,
        In (timed_out_line v) (new_events w0 (main fuel' args w0).2) ->
        (main fuel' args w0).1 = Ok tt).
Proof.
  intros Hi Hs Hfuel rw. subst rw.
  destruct (poller_bounded fuel url token interval timeout w Hi Hs Hfuel) as [Hnd Hp].
  split; [exact Hnd|]. split; [exact Hp|]. split; [|split].
  - by apply poller_pending.
  - intros v. apply poller_timed_out.
  - intros fuel' args w0 v. apply main_timed_out.
Qed.

Lemma poller_stops_within_the_timeout_witness :
  let w := Sample.start ∅ ∅ Sample.calm in
  let rw := poll_status_url 3 "https://api.backend.im/v1/deploys/123" None 3 6 w in
  rw.1 <> Diverge
  /\ (polls (new_events w rw.2) <= Z.to_nat (ceil_div 6 3))%nat
  /\ (exists v, rw.1 = Ok v
        /\ last (new_events w rw.2) = Some (timed_out_line v)
        /\ v = last_seen VNone (new_events w rw.2)).
Proof.
  intros w.
  destruct (poller_stops_within_the_timeout 3 "https://api.backend.im/v1/deploys/123"
              None 3 6 w) as (Hnd & Hp & Hto & _).
  - lia.
  - intros n. simpl. unfold Qle. simpl. lia.
  - vm_compute. lia.
  - split; [exact Hnd|]. split; [exact Hp|]. apply Hto. intros n. reflexivity.
Defined.

(** Six seconds of polling every three seconds against an endpoint that
    keeps answering [pending]: two requests, then the timeout, and [main]
    returns. *)
Example pending_deployment_times_out :
  let w := Sample.start ∅ ∅ Sample.calm in
  let rw := main 3 Runs.polled w in
  rw.1 = Ok tt
  /\ polls (new_events w rw.2) = 2%nat
  /\ last (new_events w rw.2) = Some (timed_out_line Sample.pending).
Proof. vm_compute. repeat split. Qed.

End PollerTimeout.

(** ** The command runner, once more *)

Section RunnerProperties.
Import Py Trace DeployAdapter.

(** [run] prints the command line before anything else; it starts at most
    one child process, right after, with the directory and environment it
    was given, and whatever else it adds to the output comes after. *)
Theorem run_echoes_before_starting cmd cwd check capture env (w : World) :
  exists rest,
    new_events w (run cmd cwd check capture env w).2 = echo cmd :: rest
    /\ (rest = []
        \/ exists rc more,
             rest = EvRun cmd cwd env capture rc :: more
             /\ Forall (fun e => is_print e = true) more).
Proof.
  pose proof (run_cases cmd cwd check capture env w) as H.
  destruct (run cmd cwd check capture env w) as [r w']. simpl in *.
  inversion H; subst; eexists; (split; [apply new_events_app; reflexivity|]).
  - right. eexists _, []. split; [reflexivity|constructor].
  - right. eexists _, [_; _]. split; [reflexivity|]. by repeat constructor.
  - by left.
Qed.

(** [run] returns a process that exited with a nonzero code only when it
    was told not to check, and a process it returns was started; when
    [run] raises [SystemExit] it was checking, the process has ended with
    a nonzero code, and the message names the command and that code. *)
Theorem run_checks_the_exit_code cmd cwd check capture env (w : World) :
  match (run cmd cwd check capture env w).1 with
  | Ok res =>
      (check = true -> returncode res = 0%Z)
      /\ In (EvRun cmd cwd env capture (returncode res))
           (new_events w (run cmd cwd check capture env w).2)
  | Raise (SystemExit msg) =>
      check = true
      /\ exists rc, rc <> 0%Z /\ msg = failed_msg cmd rc
           /\ In (EvRun cmd cwd env capture rc)
                (new_events w (run cmd cwd check capture env w).2)
  | Raise _ => True
  | Diverge => False
  end.
Proof.
  pose proof (run_cases cmd cwd check capture env w) as H.
  destruct (run cmd cwd check capture env w) as [r w']. simpl in *.
  inversion H; subst; simpl.
  - split.
    + intros ->. match goal with Hc : _ \/ _ |- _ => destruct Hc; [done|discriminate] end.
    + erewrite new_events_app by reflexivity. right. by left.
  - split; [done|]. eexists. split; [eassumption|]. split; [reflexivity|].
    erewrite new_events_app by reflexivity. right. by left.
  - done.
Qed.

End RunnerProperties.

(** ** The check of the working tree *)

Section CleanWorktree.
Import Py Trace DeployAdapter More.

(** How [ensure_clean_worktree] can end, given what [git status
    --porcelain] does.  It returns only when git exited with zero and
    either its output is blank or [--allow-dirty] is set.  It raises its
    refusal only when git exited with zero, the output is not blank and
    [--allow-dirty] is not set.  Any other [SystemExit] is the failure of
    the command, raised when git exited with another code, whether or not
    [--allow-dirty] is set. *)
Theorem worktree_check_outcomes (allow : bool) (w : World) (o : exit_info) (fs' : fsmap) :
  x_run (ext w) (S (length (log w))) (Argv ["git"; "status"; "--porcelain"]) None None (fs w)
    = (Some o, fs') ->
  match (ensure_clean_worktree allow w).1 with
  | Ok _ => x_code o = 0%Z /\ (strip (x_out o) = EmptyString \/ allow = true)
  | Raise (SystemExit msg) =>
      (SystemExit msg = refusal
       /\ x_code o = 0%Z /\ strip (x_out o) <> EmptyString /\ allow = false)
      \/ (msg = failed_msg (Argv ["git"; "status"; "--porcelain"]) (x_code o)
          /\ x_code o <> 0%Z)
  | Raise _ => True
  | Diverge => False
  end.
Proof.
  intros Hx. unfold ensure_clean_worktree.
  destruct (bind (run (Argv ["git"; "status"; "--porcelain"]) None true true None) _ w)
    as [r w'] eqn:H. simpl.
  apply bind_run_inv in H as [(res & w1 & Q & Hk)|(e & Q & ->)]; inversion Q; subst; clear Q;
    match goal with Hr : x_run _ _ _ _ _ _ = _ |- _ => rewrite Hx in Hr; inversion Hr; subst end.
  - match goal with Hc : _ \/ _ |- _ => destruct Hc as [Hz|Hz]; [|discriminate] end.
    simpl in Hk.
    match type of Hz with x_code ?o1 = _ =>
      destruct (String.eqb (strip (x_out o1)) EmptyString) eqn:Hd end; simpl in Hk.
    + apply String.eqb_eq in Hd. inversion Hk; subst. auto.
    + apply String.eqb_neq in Hd.
      destruct allow; simpl in Hk; unfold bind, print_line, print in Hk; simpl in Hk;
        inversion Hk; subst; [auto|]. left. done.
  - right. done.
Qed.

Lemma worktree_check_outcomes_witness :
  let o := {| x_code := 0; x_out := " M app.js" +:+ nl; x_err := EmptyString |} in
  match (ensure_clean_worktree false (Sample.start ∅ ∅ Runs.dirty_tree)).1 with
  | Ok _ => x_code o = 0%Z /\ (strip (x_out o) = EmptyString \/ false = true)
  | Raise (SystemExit msg) =>
      (SystemExit msg = refusal
       /\ x_code o = 0%Z /\ strip (x_out o) <> EmptyString /\ false = false)
      \/ (msg = failed_msg (Argv ["git"; "status"; "--porcelain"]) (x_code o)
          /\ x_code o <> 0%Z)
  | Raise _ => True
  | Diverge => False
  end.
Proof.
  intros o.
  apply (worktree_check_outcomes false (Sample.start ∅ ∅ Runs.dirty_tree) o ∅).
  reflexivity.
Defined.

(** The three ways the check ends: a dirty tree is let through with
    [--allow-dirty] and refused without it, and a failure of [git status]
    ends the run even with [--allow-dirty]. *)
Example worktree_check_runs :
  (ensure_clean_worktree true (Sample.start ∅ ∅ Runs.dirty_tree)).1 = Ok tt
  /\ (ensure_clean_worktree false (Sample.start ∅ ∅ Runs.dirty_tree)).1 = Raise refusal
  /\ (ensure_clean_worktree true (Sample.start ∅ ∅ no_repository)).1
     = Raise (SystemExit (failed_msg (Argv ["git"; "status"; "--porcelain"]) 128)).
Proof. vm_compute. repeat split. Qed.

End CleanWorktree.

(** ** Edge cases of the credential *)

Section CredentialEdges.
Import Py Trace DeployAdapter Order More.

(** A key that consists of whitespace only counts as provided: a key file
    is created and restricted, and it is empty.  (When the operating
    system refuses the write or the change of mode the function raises
    instead of returning the path; the empty file is there all the
    same.) *)
Theorem blank_key_writes_empty_file (key random : string) (w : World) :
  key <> EmptyString -> strip key = EmptyString ->
  x_tmpname (ext w) (length (log w)) "git_deploy_key_" = Some random ->
  fs w !! Path (temp_path (x_tmpdir (ext w)) "git_deploy_key_" random) = None ->
  exists p w',
    let no_write := x_refused (ext w) (S (length (log w))) (Path p) in
    let no_chmod := x_refused (ext w) (S (S (length (log w)))) (Path p) in
    write_ssh_key_if_provided (Some key) w
      = (if no_write || no_chmod then Raise (Error "OSError") else Ok (Some p), w')
    /\ fs w' !! Path p = Some (File [] 384)
    /\ (no_write = false -> In (EvWrite (Path p) []) (new_events w w')).
Proof.
  intros Hkey Hblank Hname Hfresh.
  destruct (write_ssh_key_run key random w Hkey Hname Hfresh) as (w' & Hrun & Hfs & Hev & _).
  rewrite Hblank in Hfs, Hev. change (key_bytes_of EmptyString) with (@nil byte) in Hfs, Hev.
  eexists _, w'. split; [exact Hrun|]. split.
  - rewrite Hfs. destruct (x_refused _ _ _); apply lookup_insert_eq.
  - intros Hw. rewrite Hev, Hw. right. by left.
Qed.

Lemma blank_key_writes_empty_file_witness :
  exists p w',
    write_ssh_key_if_provided (Some blank_key) (Sample.start ∅ ∅ Sample.calm) = (Ok (Some p), w')
    /\ fs w' !! Path p = Some (File [] 384)
    /\ In (EvWrite (Path p) []) (new_events (Sample.start ∅ ∅ Sample.calm) w').
Proof.
  destruct (blank_key_writes_empty_file blank_key "k3y" (Sample.start ∅ ∅ Sample.calm))
    as (p & w' & Hrun & Hfs & Hin).
  - discriminate.
  - reflexivity.
  - reflexivity.
  - vm_compute. reflexivity.
  - exists p, w'. split; [exact Hrun|]. split; [exact Hfs|]. exact (Hin eq_refl).
Defined.

(** Without key material in the environment ([GIT_SSH_KEY] and
    [GIT_SSH_KEY_BASE64] absent or empty), a run of [main] creates no key
    file and removes none. *)
Theorem no_key_no_credential_file (fuel : nat) (args : Args) (w : World) :
  truthy_str (git_ssh_key w) = false ->
  ~ In 1%nat (phases (new_events w (main fuel args w).2))
  /\ ~ In 7%nat (phases (new_events w (main fuel args w).2)).
Proof.
  intros Hk. rewrite main_unfold. unfold bind. rewrite Hk. unfold ret.
  assert (ordered (body_phases args) (try_finally (main_body fuel args None) (main_cleanup None)))
    as Ho.
  { eapply (ordered_try_finally (body_phases args) []);
      [apply main_body_ordered | apply ordered_silent; apply emits_ret | | apply incl_refl | ].
    - intros p q _ [].
    - intros q []. }
  destruct (Ho w) as (evs & Hg & Hf & _).
  rewrite (grows_new_events _ _ _ Hg).
  split; intros Hin%(phases_within _ _ Hf)%body_phases_range; lia.
Qed.

Lemma no_key_no_credential_file_witness :
  ~ In 1%nat (phases (new_events (Sample.start ∅ ∅ Sample.calm)
                        (main 0 Runs.direct_head (Sample.start ∅ ∅ Sample.calm)).2))
  /\ ~ In 7%nat (phases (new_events (Sample.start ∅ ∅ Sample.calm)
                           (main 0 Runs.direct_head (Sample.start ∅ ∅ Sample.calm)).2)).
Proof.
  apply (no_key_no_credential_file 0 Runs.direct_head (Sample.start ∅ ∅ Sample.calm)).
  reflexivity.
Defined.

(** The [finally] block of [main] never changes how the run ends: [main]
    returns or raises exactly as writing the key followed by the [try]
    block does. *)
Theorem cleanup_keeps_the_outcome (fuel : nat) (args : Args) (w : World) :
  (main fuel args w).1
  = ((key <- (if truthy_str (git_ssh_key w) then write_ssh_key_if_provided (git_ssh_key w)
              else ret None) ;;
      main_body fuel args key) w).1.
Proof.
  rewrite main_unfold. unfold bind.
  destruct ((if truthy_str (git_ssh_key w) then write_ssh_key_if_provided (git_ssh_key w)
             else ret None) w) as [[key|e|] w1]; try reflexivity.
  unfold try_finally. destruct (main_body fuel args key w1) as [rb wb].
  pose proof (main_cleanup_returns key wb) as Hc.
  destruct (main_cleanup key wb) as [rc wc]. simpl in Hc. subst rc.
  by destruct rb.
Qed.

(** Once [write_ssh_key_if_provided] has returned the path of the key
    file, the [finally] block of [main] deals with the file however the
    run ends: in every run that ends, nothing is left at the path, unless
    the operating system refuses the removal, in which case [os.remove]
    raises, the exception is dropped and the file stays (or unless a
    child process put a directory there, which [os.remove] does not
    remove). *)
Theorem key_file_removed_once_written
    (fuel : nat) (args : Args) (w : World) (key random : string) :
  git_ssh_key w = Some key -> key <> EmptyString ->
  x_tmpname (ext w) (length (log w)) "git_deploy_key_" = Some random ->
  fs w !! Path (temp_path (x_tmpdir (ext w)) "git_deploy_key_" random) = None ->
  let p := temp_path (x_tmpdir (ext w)) "git_deploy_key_" random in
  x_refused (ext w) (S (length (log w))) (Path p) = false ->
  x_refused (ext w) (S (S (length (log w)))) (Path p) = false ->
  (main fuel args w).1 <> Diverge ->
  fs (main fuel args w).2 !! Path p = None
  \/ fs (main fuel args w).2 !! Path p = Some Dir
  \/ refused (Path p) (main fuel args w).2 = true.
Proof.
  intros Hk Hkey Hname Hfresh p Hw Hc.
  rewrite main_unfold. unfold bind. rewrite Hk, (truthy_str_nonempty key Hkey).
  destruct (write_ssh_key_run key random w Hkey Hname Hfresh) as (w1 & Hrun & _).
  fold p in Hrun. rewrite Hw, Hc in Hrun. simpl in Hrun. rewrite Hrun.
  destruct (try_finally (main_body fuel args (Some p)) (main_cleanup (Some p)) w1)
    as [r w'] eqn:HT.
  simpl. intros Hnd.
  apply try_finally_inv in HT as (rb & wb & _ & [(_ & -> & _)|(_ & rf & Hfin & _)]); [done|].
  destruct (cleanup_removes p wb (temp_path_nonempty _ _ _)) as [_ Hgone].
  rewrite Hfin in Hgone. exact Hgone.
Qed.

Lemma key_file_removed_once_written_witness :
  let w := Sample.start Runs.with_key ∅ Sample.push_rejected in
  fs (main 0 Runs.direct_head w).2 !! ["/"; "tmp"; "git_deploy_key_k3y"] = None
  \/ fs (main 0 Runs.direct_head w).2 !! ["/"; "tmp"; "git_deploy_key_k3y"] = Some Dir
  \/ refused ["/"; "tmp"; "git_deploy_key_k3y"] (main 0 Runs.direct_head w).2 = true.
Proof.
  intros w.
  apply (key_file_removed_once_written 0 Runs.direct_head w Sample.key_b64 "k3y").
  - reflexivity.
  - discriminate.
  - reflexivity.
  - vm_compute. reflexivity.
  - reflexivity.
  - reflexivity.
  - vm_compute. discriminate.
Defined.

(** When the removal is refused, the run ends as it would have, and the
    key stays in the temporary directory. *)
Example refused_removal_leaves_the_key :
  let w := Sample.start Runs.with_key ∅ Sample.key_file_kept in
  let rw := main 0 Runs.direct_head w in
  rw.1 = Ok tt
  /\ fs rw.2 !! ["/"; "tmp"; "git_deploy_key_k3y"]
     = Some (File (bytes_lit "-----BEGIN KEY-----") 384).
Proof. vm_compute. repeat split. Qed.

End CredentialEdges.

(** ** The cleaning of the clone *)

Section CleaningTheClone.
Import Py Trace DeployAdapter.

Lemma is_prefix_app_cons (t : path) (a b : string) (rest : path) :
  is_prefix (t ++ [a])%list (t ++ b :: rest)%list = String.eqb a b.
Proof.
  induction t as [|c t IH]; simpl.
  - by rewrite andb_true_r.
  - by rewrite String.eqb_refl.
Qed.

Lemma app_cons_differ (t : path) (a b : string) (rest : path) :
  a <> b -> (t ++ [a])%list <> (t ++ b :: rest)%list.
Proof. intros Hab Heq. apply app_inv_head in Heq. by inversion Heq. Qed.

Lemma clean_entry_keeps_git tmp name w rest :
  fs (clean_entry tmp name w).2 !! (Path tmp ++ ".git" :: rest)%list
  = fs w !! (Path tmp ++ ".git" :: rest)%list.
Proof.
  unfold clean_entry. destruct (String.eqb name ".git") eqn:Hn; [reflexivity|].
  apply String.eqb_neq in Hn.
  unfold bind, path_is_dir, rmtree, unlink. simpl.
  match goal with
  | |- context [match ?x with Some _ => _ | None => _ end] => destruct x as [[|]|] eqn:E
  end; simpl; rewrite ?E; simpl; try reflexivity;
    match goal with |- context [if ?c then _ else _] => destruct c end;
    simpl; try reflexivity.
  - apply lookup_delete_ne. by apply app_cons_differ.
  - unfold remove_tree.
    destruct (fs w !! (Path tmp ++ ".git" :: rest)%list) as [x|] eqn:Ex.
    + apply map_lookup_filter_Some. split; [done|]. simpl.
      rewrite is_prefix_app_cons. by apply String.eqb_neq.
    + apply map_lookup_filter_None. by left.
Qed.

(** The loop that empties the clone (lines 140-146) never touches what is
    under [.git]: whatever the listing holds and however the loop ends,
    every path at or below [.git] is as before. *)
Theorem cleaning_keeps_git_metadata (tmp : string) (names : list string) (w : World)
    (rest : path) :
  fs (for_each names (clean_entry tmp) w).2 !! (Path tmp ++ ".git" :: rest)%list
  = fs w !! (Path tmp ++ ".git" :: rest)%list.
Proof.
  revert w. induction names as [|n names IH]; intros w; [reflexivity|].
  simpl. unfold bind.
  pose proof (clean_entry_keeps_git tmp n w rest) as H1.
  destruct (clean_entry tmp n w) as [[[]|e|] w1]; simpl in *; try exact H1.
  rewrite IH. exact H1.
Qed.

End CleaningTheClone.

(** ** Edge cases of the poller *)

Section PollerEdges.
Import Py Trace DeployAdapter Order Polling More.

(** A request that fails (no connection, a 4xx or 5xx answer, a body that
    is not JSON) does not end the polling: the pass reports the error and
    goes on, and [last] stays what it was. *)
Theorem failed_request_keeps_polling url headers last (w : World) :
  match x_http (ext w) (length (log w)) url headers with
  | TransportError _ => True
  | Reply c b => (400 <= c < 600)%Z \/ b = None
  end ->
  exists msg,
    (poll_once url headers last w).1 = Ok (Continue last)
    /\ new_events w (poll_once url headers last w).2
       = [EvGet url headers;
          EvPrint [Lit "Status poll request error:"; Lit " "; Lit msg; Lit nl]].
Proof.
  intros H. destruct (poll_once url headers last w) as [r w'] eqn:Hp. simpl.
  unfold poll_once, try_except in Hp. unfold bind at 1 in Hp. unfold requests_get in Hp.
  destruct (x_http (ext w) (length (log w)) url headers) as [msg|c b].
  - exists msg. cbn in Hp. inversion Hp; subst. split; [reflexivity|].
    apply new_events_app. simpl. rewrite <- ?app_assoc. reflexivity.
  - unfold bind at 1 in Hp. unfold raise_for_status in Hp. cbn [status_code] in Hp.
    destruct ((400 <=? c)%Z && (c <? 600)%Z) eqn:Hc.
    + exists "HTTPError". cbn in Hp. inversion Hp; subst. split; [reflexivity|].
      apply new_events_app. simpl. rewrite <- ?app_assoc. reflexivity.
    + destruct H as [H| ->]; [lia|].
      exists "JSONDecodeError". cbn in Hp. inversion Hp; subst. split; [reflexivity|].
      apply new_events_app. simpl. rewrite <- ?app_assoc. reflexivity.
Qed.

Lemma failed_request_keeps_polling_witness :
  exists msg,
    (poll_once "https://api.backend.im/v1/deploys/123" ∅ Sample.pending
       (Sample.start ∅ ∅ unreachable)).1 = Ok (Continue Sample.pending)
    /\ new_events (Sample.start ∅ ∅ unreachable)
         (poll_once "https://api.backend.im/v1/deploys/123" ∅ Sample.pending
            (Sample.start ∅ ∅ unreachable)).2
       = [EvGet "https://api.backend.im/v1/deploys/123" ∅;
          EvPrint [Lit "Status poll request error:"; Lit " "; Lit msg; Lit nl]].
Proof.
  apply (failed_request_keeps_polling "https://api.backend.im/v1/deploys/123" ∅ Sample.pending
           (Sample.start ∅ ∅ unreachable)).
  exact I.
Defined.

(** A body that is JSON but not an object, or whose status is true but
    not a string, ends the polling with an [AttributeError]: the pass
    raises, and the error is not one the loop catches. *)
Theorem unexpected_body_raises url headers last (w : World) (c : Z) (j : value) :
  x_http (ext w) (length (log w)) url headers = Reply c (Some j) ->
  ~ (400 <= c < 600)%Z ->
  match j with
  | VDict d =>
      let status := first_truthy [dict_get d "status"; dict_get d "state";
                                  dict_get d "deploy_status"] in
      truthy status = true /\ forall s, status <> VStr s
  | _ => True
  end ->
  (poll_once url headers last w).1 = Raise (Error "AttributeError").
Proof.
  intros Hh Hc Hj. unfold poll_once, try_except. unfold bind at 1. unfold requests_get.
  rewrite Hh. unfold bind at 1. unfold raise_for_status. cbn [status_code].
  assert ((400 <=? c)%Z && (c <? 600)%Z = false) as -> by lia.
  cbn [ret]. unfold bind at 1. unfold response_json. cbn [body ret].
  set (w0 := tick _ _).
  assert ((poll_decide j w0).1 = Raise (Error "AttributeError")) as Hd.
  { destruct j as [|b|n|f|s|l|d]; try reflexivity.
    unfold poll_decide. erewrite bind_ok by apply resolve_status_dict.
    cbv zeta in Hj. destruct Hj as [Ht Hs].
    set (status := first_truthy _) in *.
    unfold bind at 1, print at 1. cbv beta iota.
    unfold bind at 1. unfold status_in at 1. rewrite Ht.
    destruct status; try reflexivity; try discriminate. by destruct (Hs s). }
  destruct (poll_decide j w0) as [r w1]. simpl in Hd. subst r. reflexivity.
Qed.

Lemma unexpected_body_raises_witness :
  (poll_once "https://api.backend.im/v1/deploys/123" ∅ VNone
     (Sample.start ∅ ∅ (Sample.answering (VList [VStr "done"])))).1
  = Raise (Error "AttributeError")
  /\ (poll_once "https://api.backend.im/v1/deploys/123" ∅ VNone
        (Sample.start ∅ ∅ (Sample.answering Sample.numeric_status))).1
     = Raise (Error "AttributeError").
Proof.
  split.
  - apply (unexpected_body_raises _ _ _ _ 200 (VList [VStr "done"])); [reflexivity|lia|exact I].
  - apply (unexpected_body_raises _ _ _ _ 200 Sample.numeric_status); [reflexivity|lia|].
    split; [reflexivity|discriminate].
Defined.

(** With a timeout of zero or less the poller sends no request: it
    announces the polling, reports the timeout with [None] and returns
    [None]. *)
Theorem no_time_no_request (fuel : nat) url token (interval timeout : Z) (w : World) :
  (timeout <= 0)%Z ->
  poll_status_url (S fuel) url token interval timeout w
  = (Ok VNone,
     logged w [EvPrint [Lit ("Polling status URL: " +:+ url +:+ " (timeout "
                             +:+ pretty timeout +:+ "s)"); Lit nl];
               timed_out_line VNone]).
Proof.
  intros Ht. rewrite poll_status_url_unfold, poll_loop_step.
  assert (Qle_bool (now w + inject_Z timeout) (now w) = true) as Hq.
  { apply Qle_bool_iff. rewrite <- (Qplus_0_r (now w)) at 2. apply Qplus_le_r.
    change 0%Q with (inject_Z 0). by rewrite <- Zle_Qle. }
  simpl. rewrite Hq. unfold logged, emit. simpl. by rewrite <- app_assoc.
Qed.

Lemma no_time_no_request_witness :
  poll_status_url 1 "https://api.backend.im/v1/deploys/123" None 3 0 (Sample.start ∅ ∅ Sample.calm)
  = (Ok VNone,
     logged (Sample.start ∅ ∅ Sample.calm)
       [EvPrint [Lit ("Polling status URL: " +:+ "https://api.backend.im/v1/deploys/123"
                      +:+ " (timeout " +:+ pretty 0%Z +:+ "s)"); Lit nl];
        timed_out_line VNone]).
Proof.
  apply (no_time_no_request 0 "https://api.backend.im/v1/deploys/123" None 3 0
           (Sample.start ∅ ∅ Sample.calm)).
  lia.
Defined.

End PollerEdges.

(** ** DirectHead mode, when it succeeds *)

Section DirectHeadSuccess.
Import Py Trace DeployAdapter.

(** When [git_push_current_head] returns, it has run exactly four
    commands: the removal of a remote left over (whose exit code is
    ignored), the registration of the temporary remote, the push of HEAD
    to the branch (with [--force] as its first option when asked), and the
    removal of the remote; registration and push exited with zero and
    received the environment of the process, with [GIT_SSH_COMMAND]
    pointing at the key file when there is one; the removals inherit the
    environment as it is. *)
Theorem direct_head_success_trace
    (remote_url branch : string) (key : option string) (force : bool) (w w' : World) :
  git_push_current_head remote_url branch key force w = (Ok tt, w') ->
  let env :=
    if truthy_str key
    then <["GIT_SSH_COMMAND" := git_ssh_command (text_or_empty key)]> (environ w)
    else environ w in
  let rm := Argv ["git"; "remote"; "remove"; remote_name] in
  let add := Argv ["git"; "remote"; "add"; remote_name; remote_url] in
  let push :=
    Argv (["git"; "push"] ++ (if force then ["--force"] else [])
          ++ [remote_name; "HEAD:refs/heads/" +:+ branch])%list in
  exists rc1 rc4,
    new_events w w'
    = ((if truthy_str key
        then [EvPrint [Lit ("Using GIT_SSH_COMMAND=" +:+ git_ssh_command (text_or_empty key));
                       Lit nl]]
        else [])
       ++ [echo rm; EvRun rm None None false rc1;
           echo add; EvRun add None (Some env) false 0;
           echo push; EvRun push None (Some env) false 0;
           echo rm; EvRun rm None None false rc4])%list.
Proof.
  intros Hrun env rm add push. unfold git_push_current_head in Hrun.
  unfold bind at 1 in Hrun. unfold environ_copy in Hrun.
  unfold bind at 1 in Hrun. fold env in Hrun.
  pose (pre := if truthy_str key
              then [EvPrint [Lit ("Using GIT_SSH_COMMAND=" +:+ git_ssh_command (text_or_empty key));
                             Lit nl]]
              else []).
  assert (exists w0,
    (if truthy_str key
     then print_line ("Using GIT_SSH_COMMAND=" +:+ git_ssh_command (text_or_empty key)) ;;
          ret (<["GIT_SSH_COMMAND" := git_ssh_command (text_or_empty key)]> (environ w))
     else ret (environ w)) w = (Ok env, w0) /\ grows w w0 pre) as (w0 & Henv & Hg0).
  { subst env pre. destruct (truthy_str key).
    - eexists. split; [reflexivity|]. reflexivity.
    - eexists. split; [reflexivity|]. apply grows_refl. }
  rewrite Henv in Hrun. clear Henv.
  fold rm add in Hrun.
  replace (Argv (if force
                 then list_insert_at 2 "--force"
                        ["git"; "push"; remote_name; "HEAD:refs/heads/" +:+ branch]
                 else ["git"; "push"; remote_name; "HEAD:refs/heads/" +:+ branch]))
    with push in Hrun by (subst push; by destruct force).
  eapply step_run in Hrun; [|exact Hg0].
  destruct Hrun as [(r1 & w1 & Hg1 & _ & _ & _ & _ & Hrun)|[(rc & out & err & _ & _ & Hbad & _)|[Hbad _]]];
    try discriminate.
  eapply step_run in Hrun; [|exact Hg1].
  destruct Hrun as [(r2 & w2 & Hg2 & Hz2 & _ & _ & _ & Hrun)|[(rc & out & err & _ & _ & Hbad & _)|[Hbad _]]];
    try discriminate.
  eapply step_run in Hrun; [|exact Hg2].
  destruct Hrun as [(r3 & w3 & Hg3 & Hz3 & _ & _ & _ & Hrun)|[(rc & out & err & _ & _ & Hbad & _)|[Hbad _]]];
    try discriminate.
  eapply step_run in Hrun; [|exact Hg3].
  destruct Hrun as [(r4 & w4 & Hg4 & _ & _ & _ & _ & Hrun)|[(rc & out & err & _ & _ & Hbad & _)|[Hbad _]]];
    try discriminate.
  unfold ret in Hrun. inversion Hrun; subst w4. clear Hrun.
  rewrite (grows_new_events _ _ _ Hg4). rewrite (Hz2 eq_refl), (Hz3 eq_refl).
  exists (returncode r1), (returncode r4). rewrite <- !app_assoc. reflexivity.
Qed.

Lemma direct_head_success_trace_witness :
  let w := Sample.start ∅ ∅ Sample.calm in
  let w' := (git_push_current_head "git@backend.im:org/app.git" "main"
               (Some "/tmp/git_deploy_key_k3y") true w).2 in
  let env := <["GIT_SSH_COMMAND" := git_ssh_command "/tmp/git_deploy_key_k3y"]> (environ w) in
  exists rc1 rc4,
    new_events w w'
    = [EvPrint [Lit "Using GIT_SSH_COMMAND=ssh -i /tmp/git_deploy_key_k3y -o StrictHostKeyChecking=no";
                Lit nl];
       EvPrint [Lit "$ git remote remove backend_im_deploy"; Lit nl];
       EvRun (Argv ["git"; "remote"; "remove"; "backend_im_deploy"]) None None false rc1;
       EvPrint [Lit "$ git remote add backend_im_deploy git@backend.im:org/app.git"; Lit nl];
       EvRun (Argv ["git"; "remote"; "add"; "backend_im_deploy"; "git@backend.im:org/app.git"])
         None (Some env) false 0;
       EvPrint [Lit "$ git push --force backend_im_deploy HEAD:refs/heads/main"; Lit nl];
       EvRun (Argv ["git"; "push"; "--force"; "backend_im_deploy"; "HEAD:refs/heads/main"])
         None (Some env) false 0;
       EvPrint [Lit "$ git remote remove backend_im_deploy"; Lit nl];
       EvRun (Argv ["git"; "remote"; "remove"; "backend_im_deploy"]) None None false rc4].
Proof.
  intros w w' env.
  apply (direct_head_success_trace "git@backend.im:org/app.git" "main"
           (Some "/tmp/git_deploy_key_k3y") true w w').
  vm_compute. reflexivity.
Defined.

End DirectHeadSuccess.

(** ** ArtifactDir mode, when it succeeds *)

Section ArtifactDirSuccess.
Import Py Trace DeployAdapter.

(** When [git_push_artifact_dir] returns, it has run exactly five
    commands, in this order: the clone into the temporary directory, the
    checkout of the branch, [git add -A], the commit with the given
    message (whatever its exit code) and the push to [origin] (with
    [--force] as its first option when asked); all but the commit exited
    with zero.  The last thing done is the call of [rmtree] on the
    temporary directory, which is gone unless the operating system
    refused the removal of it or of something in it. *)
Theorem artifact_dir_success_commands
    (remote_url branch artifact_dir : string) (key : option string) (msg : string)
    (force : bool) (w w' : World) :
  git_push_artifact_dir remote_url branch artifact_dir key msg force w = (Ok tt, w') ->
  exists tmp rc,
    runs (new_events w w')
    = [(Argv ["git"; "clone"; remote_url; tmp], 0%Z);
       (Argv ["git"; "checkout"; "-B"; branch], 0%Z);
       (Argv ["git"; "add"; "-A"], 0%Z);
       (Argv ["git"; "commit"; "-m"; msg], rc);
       (Argv (["git"; "push"] ++ (if force then ["--force"] else [])
              ++ ["origin"; "HEAD:refs/heads/" +:+ branch])%list, 0%Z)]
    /\ last (new_events w w') = Some (EvRmtree (Path tmp) true)
    /\ (removable (ext w') (pred (length (log w'))) (Path tmp) ->
        fs w' !! Path tmp <> Some Dir).
Proof.
  unfold git_push_artifact_dir. intros Hrun.
  unfold bind at 1 in Hrun. unfold environ_copy in Hrun.
  eapply step_quiet in Hrun;
    [|apply emits_git_env; intros; reflexivity|apply grows_refl].
  destruct Hrun as (pre & Hpre & [(env & w0 & _ & Hg0 & Hrun)|(Hg & Hne)]).
  2: { by destruct (Hne tt). }
  eapply step_quiet in Hrun; [|apply emits_mkdtemp; intros; reflexivity|exact Hg0].
  destruct Hrun as (e1 & He1 & [(tmp & w1 & _ & Hg1 & Hrun)|(Hg & Hne)]).
  2: { by destruct (Hne tt). }
  unfold print_line at 1 in Hrun.
  eapply step_print in Hrun; [|exact Hg1].
  destruct Hrun as (w2 & Hg2 & _ & _ & _ & Hrun).
  apply artifact_finally_inv in Hrun as (wb & fevs & Hb & Hgf & Hfq & Hend).
  destruct (Hend ltac:(done)) as [Hgone ->].
  unfold prepare_and_push in Hb.
  eapply step_run in Hb; [|exact Hg2].
  destruct Hb as [(res1 & w3 & Hg3 & Hz1 & _ & _ & _ & Hb)|[(? & ? & ? & _ & _ & Hbad & _)|(Hbad & _)]];
    try discriminate.
  eapply step_run in Hb; [|exact Hg3].
  destruct Hb as [(res2 & w4 & Hg4 & Hz2 & _ & _ & _ & Hb)|[(? & ? & ? & _ & _ & Hbad & _)|(Hbad & _)]];
    try discriminate.
  eapply step_quiet in Hb; [|apply emits_iterdir; intros; reflexivity|exact Hg4].
  destruct Hb as (e2 & He2 & [(names & w5 & _ & Hg5 & Hb)|(Hg & Hne)]).
  2: { by destruct (Hne tt). }
  eapply step_quiet in Hb;
    [|apply emits_for_each; intros; apply emits_clean_entry; intros; reflexivity|exact Hg5].
  destruct Hb as (e3 & He3 & [([] & w6 & _ & Hg6 & Hb)|(Hg & Hne)]).
  2: { by destruct (Hne tt). }
  unfold bind at 1 in Hb. unfold path_exists at 1 in Hb.
  destruct (negb (bool_decide (is_Some (fs w6 !! Path artifact_dir)))); [discriminate|].
  unfold print_line at 1 in Hb.
  eapply step_print in Hb; [|exact Hg6].
  destruct Hb as (w7 & Hg7 & _ & _ & _ & Hb).
  eapply step_quiet in Hb; [|apply emits_iterdir; intros; reflexivity|exact Hg7].
  destruct Hb as (e4 & He4 & [(items & w8 & _ & Hg8 & Hb)|(Hg & Hne)]).
  2: { by destruct (Hne tt). }
  eapply step_quiet in Hb;
    [|apply emits_for_each; intros; apply emits_copy_entry; intros; reflexivity|exact Hg8].
  destruct Hb as (e5 & He5 & [([] & w9 & _ & Hg9 & Hb)|(Hg & Hne)]).
  2: { by destruct (Hne tt). }
  eapply step_run in Hb; [|exact Hg9].
  destruct Hb as [(res3 & w10 & Hg10 & Hz3 & _ & _ & _ & Hb)|[(? & ? & ? & _ & _ & Hbad & _)|(Hbad & _)]];
    try discriminate.
  eapply step_run in Hb; [|exact Hg10].
  destruct Hb as [(res4 & w11 & Hg11 & _ & _ & _ & _ & Hb)|[(? & ? & ? & _ & _ & Hbad & _)|(Hbad & _)]];
    try discriminate.
  eapply step_run in Hb; [|exact Hg11].
  destruct Hb as [(res5 & w12 & Hg12 & Hz5 & _ & _ & _ & Hb)|[(? & ? & ? & _ & _ & Hbad & _)|(Hbad & _)]];
    try discriminate.
  unfold ret in Hb. inversion Hb; subst w12. clear Hb.
  exists tmp, (returncode res4). split_and!; [| |exact Hgone].
  - whole_trace. rewrite (Hz1 eq_refl), (Hz2 eq_refl), (Hz3 eq_refl), (Hz5 eq_refl).
    by destruct force.
  - rewrite (grows_new_events _ _ _ (grows_trans _ _ _ _ _ Hg12 Hgf)).
    rewrite last_app. reflexivity.
Qed.

Lemma artifact_dir_success_commands_witness :
  let w := Sample.start ∅ Sample.dist_files Sample.cloning in
  let w' := (git_push_artifact_dir "git@backend.im:org/app.git" "main" "dist" None
               "deploy" true w).2 in
  exists tmp rc,
    runs (new_events w w')
    = [(Argv ["git"; "clone"; "git@backend.im:org/app.git"; tmp], 0%Z);
       (Argv ["git"; "checkout"; "-B"; "main"], 0%Z);
       (Argv ["git"; "add"; "-A"], 0%Z);
       (Argv ["git"; "commit"; "-m"; "deploy"], rc);
       (Argv ["git"; "push"; "--force"; "origin"; "HEAD:refs/heads/main"], 0%Z)]
    /\ last (new_events w w') = Some (EvRmtree (Path tmp) true)
    /\ (removable (ext w') (pred (length (log w'))) (Path tmp) ->
        fs w' !! Path tmp <> Some Dir).
Proof.
  intros w w'.
  apply (artifact_dir_success_commands "git@backend.im:org/app.git" "main" "dist" None
           "deploy" true w w').
  vm_compute. reflexivity.
Defined.

End ArtifactDirSuccess.

(** ** What the requests carry *)

Section Requests.
Import Py Trace DeployAdapter Order Polling.

Lemma emits_poll_once P url headers last :
  P (EvGet url headers) -> (forall t, P (EvPrint t)) -> emits P (poll_once url headers last).
Proof.
  intros Hg Hp. unfold poll_once, raise_for_status, response_json, poll_decide.
  apply emits_try_except.
  - apply emits_bind; [by apply emits_requests_get|]. intros r.
    apply emits_bind; [destruct (_ && _); first [apply emits_raise | apply emits_ret]|].
    intros _.
    apply emits_bind; [destruct (body r); first [apply emits_raise | apply emits_ret]|].
    intros j.
    repeat first
      [ apply emits_ret | apply emits_raise
      | apply emits_print_line; apply Hp | apply emits_print; apply Hp
      | apply emits_resolve_status | apply emits_status_in
      | apply emits_bind; [|intros ?]
      | match goal with |- emits _ (if ?b then _ else _) => destruct b end ].
  - intros e. apply emits_bind; [apply emits_print; apply Hp | intros; apply emits_ret].
Qed.

Lemma emits_poll_loop P fuel url headers interval deadline last :
  P (EvGet url headers) -> (forall t, P (EvPrint t)) -> P (EvSleep interval) ->
  emits P (poll_loop fuel url headers interval deadline last).
Proof.
  intros Hg Hp Hs. revert last.
  induction fuel as [|fuel IH]; intros last; simpl; [apply emits_pure|].
  unfold time_time. apply emits_bind; [apply emits_pure|]. intros t.
  destruct (negb (Qle_bool deadline t)).
  - apply emits_bind; [by apply emits_poll_once|]. intros [j|last']; [apply emits_ret|].
    apply emits_bind; [by apply emits_time_sleep|]. intros _. apply IH.
  - apply emits_bind; [apply emits_print; apply Hp | intros; apply emits_ret].
Qed.

(** Every request of the poller goes to the status URL, and carries the
    token as a bearer authorization when there is a token that is not
    empty, and no header otherwise; between requests the poller sleeps
    for the interval it was given. *)
Theorem requests_carry_the_token
    (fuel : nat) (url : string) (token : option string) (interval timeout : Z) (w : World) :
  Forall (fun e =>
            match e with
            | EvGet u h =>
                u = url
                /\ h = match token with
                       | Some t =>
                           if String.eqb t EmptyString then ∅
                           else {["Authorization" := "Bearer " +:+ t]}
                       | None => ∅
                       end
            | EvSleep secs => secs = interval
            | e => is_print e = true
            end)
    (new_events w (poll_status_url fuel url token interval timeout w).2).
Proof.
  set (P := fun e : Event => match e with EvGet _ _ => _ | _ => _ end).
  assert (emits P (poll_status_url fuel url token interval timeout)) as Hm.
  { unfold poll_status_url, time_time.
    apply emits_bind; [by apply emits_print_line|]. intros _.
    apply emits_bind; [apply emits_pure|]. intros t.
    apply emits_poll_loop; try done.
    split; [done|]. destruct token as [tok|]; [|done]. simpl.
    by destruct (String.eqb tok EmptyString). }
  destruct (Hm w) as (evs & Hg & Hf). by rewrite (grows_new_events _ _ _ Hg).
Qed.

End Requests.

(** ** Which key is written *)

Section KeyPrecedence.
Import Py Trace DeployAdapter Order.

(** The key file receives the material of [GIT_SSH_KEY] when that
    variable is set and not empty, whatever [GIT_SSH_KEY_BASE64] holds, and
    the material of [GIT_SSH_KEY_BASE64] otherwise; either is decoded or
    kept raw by the same rule, and nothing else is ever written. *)
Theorem key_variable_precedence (fuel : nat) (args : Args) (w : World) (p : path)
    (data : list byte) :
  In (EvWrite p data) (new_events w (main fuel args w).2) ->
  exists k,
    k <> EmptyString /\ data = key_bytes_of (strip k)
    /\ (environ w !! "GIT_SSH_KEY" = Some k
        \/ (truthy_str (environ w !! "GIT_SSH_KEY") = false
            /\ environ w !! "GIT_SSH_KEY_BASE64" = Some k)).
Proof.
  rewrite main_unfold.
  set (P := fun e : Event =>
              match e with
              | EvWrite _ d => d = key_bytes_of (strip (text_or_empty (git_ssh_key w)))
                               /\ truthy_str (git_ssh_key w) = true
              | _ => True
              end).
  assert (emits P (if truthy_str (git_ssh_key w) then write_ssh_key_if_provided (git_ssh_key w)
                   else ret None)) as Hpre.
  { destruct (truthy_str (git_ssh_key w)) eqn:Hk; [|apply emits_ret].
    unfold write_ssh_key_if_provided. rewrite Hk. simpl negb. cbv iota.
    apply emits_bind; [by apply emits_mkstemp|]. intros path.
    apply emits_bind; [by apply emits_os_write|]. intros _.
    apply emits_bind; [apply emits_ret|]. intros _.
    apply emits_bind; [by apply emits_os_chmod|]. intros _.
    apply emits_bind; [by apply emits_print_line | intros; apply emits_ret]. }
  assert (forall key, emits P (try_finally (main_body fuel args key) (main_cleanup key))) as Hrest.
  { intros key. eapply emits_mono; [|apply ordered_events, body_and_cleanup_ordered].
    intros [] He; try exact I. exfalso.
    change (existsb (Nat.eqb 1) (body_phases args ++ [7%nat]) = true) in He.
    apply existsb_exists in He as (q & [Hq%body_phases_range|Hq]%in_app_or & Heq%Nat.eqb_eq);
      simpl in *; lia. }
  destruct (emits_bind P _ _ Hpre Hrest w) as (evs & Hg & Hf).
  rewrite (grows_new_events _ _ _ Hg). intros Hin.
  rewrite List.Forall_forall in Hf. destruct (Hf _ Hin) as [-> Hk].
  unfold git_ssh_key, or_str in *.
  destruct (truthy_str (environ w !! "GIT_SSH_KEY")) eqn:H1.
  - destruct (environ w !! "GIT_SSH_KEY") as [k|]; [|discriminate].
    exists k. split_and!; [|done|by left]. intros ->. discriminate.
  - destruct (environ w !! "GIT_SSH_KEY_BASE64") as [k|]; [|discriminate].
    exists k. split_and!; [|done|by right]. intros ->. discriminate.
Qed.

Lemma key_variable_precedence_witness :
  let w := Sample.start (<["GIT_SSH_KEY_BASE64" := Sample.key_raw]> Runs.with_key) ∅ Sample.calm in
  exists k,
    k <> EmptyString /\ bytes_lit "-----BEGIN KEY-----" = key_bytes_of (strip k)
    /\ (environ w !! "GIT_SSH_KEY" = Some k
        \/ (truthy_str (environ w !! "GIT_SSH_KEY") = false
            /\ environ w !! "GIT_SSH_KEY_BASE64" = Some k)).
Proof.
  intros w.
  apply (key_variable_precedence 0 Runs.direct_head w ["/"; "tmp"; "git_deploy_key_k3y"]).
  vm_compute. right. left. reflexivity.
Defined.

End KeyPrecedence.

(** ** Polling follows a successful push *)

Section PollAfterPush.
Import Py Trace DeployAdapter Order Polling Before More.

Lemma emits_anything {A} P (m : M A) : emits P m -> emits anything m.
Proof. apply emits_mono. by intros. Qed.

Lemma achieves_bind_l {A B} P (m : M A) (k : A -> M B) :
  achieves P m -> emits anything m -> (forall a, emits anything (k a)) ->
  achieves P (bind m k).
Proof.
  intros Hm Hem Hek w b w' H. unfold bind in H.
  destruct (Hem w) as (e1 & Hg1 & _).
  destruct (m w) as [[a|e|] w1] eqn:Hmw; try discriminate.
  destruct (Hek a w1) as (e2 & Hg2 & _). rewrite H in Hg2. simpl in Hg1, Hg2.
  specialize (Hm w a w1 Hmw). rewrite (grows_new_events _ _ _ Hg1) in Hm.
  rewrite (grows_new_events _ _ _ (grows_trans _ _ _ _ _ Hg1 Hg2)).
  apply Exists_app. by left.
Qed.

Lemma achieves_bind_r {A B} P (m : M A) (k : A -> M B) :
  emits anything m -> (forall a, achieves P (k a)) -> (forall a, emits anything (k a)) ->
  achieves P (bind m k).
Proof.
  intros Hem Hk Hek w b w' H. unfold bind in H.
  destruct (Hem w) as (e1 & Hg1 & _).
  destruct (m w) as [[a|e|] w1] eqn:Hmw; try discriminate.
  destruct (Hek a w1) as (e2 & Hg2 & _). rewrite H in Hg2. simpl in Hg1, Hg2.
  specialize (Hk a w1 b w' H). rewrite (grows_new_events _ _ _ Hg2) in Hk.
  rewrite (grows_new_events _ _ _ (grows_trans _ _ _ _ _ Hg1 Hg2)).
  apply Exists_app. by right.
Qed.

Lemma achieves_try_finally {A} P (body : M A) (fin : M unit) :
  achieves P body -> emits anything body -> emits anything fin ->
  achieves P (try_finally body fin).
Proof.
  intros Hb Heb Hef w a w' H.
  apply try_finally_inv in H as (rb & wb & Hbw & [(_ & ? & _)|(_ & rf & Hf & Hr)]);
    [discriminate|].
  destruct (Heb w) as (e1 & Hg1 & _). destruct (Hef wb) as (e2 & Hg2 & _).
  rewrite Hbw in Hg1. rewrite Hf in Hg2. simpl in Hg1, Hg2.
  destruct rf as [[]|e|]; try discriminate. subst rb.
  specialize (Hb w a wb Hbw). rewrite (grows_new_events _ _ _ Hg1) in Hb.
  rewrite (grows_new_events _ _ _ (grows_trans _ _ _ _ _ Hg1 Hg2)).
  apply Exists_app. by left.
Qed.

Lemma achieves_run P cmd cwd capture env :
  P (EvRun cmd cwd env capture 0) -> achieves P (run cmd cwd true capture env).
Proof.
  intros HP w res w' H. pose proof (run_cases cmd cwd true capture env w) as Hc.
  rewrite H in Hc. simpl in Hc. inversion Hc; subst.
  erewrite new_events_app by reflexivity.
  match goal with Hz : _ \/ _ |- _ => destruct Hz as [Hzero|Hzero]; [|discriminate] end.
  rewrite Hzero. apply Exists_cons. right. apply Exists_cons. by left.
Qed.

End PollAfterPush.

Ltac emits_all :=
  repeat first
    [ apply emits_ret | apply emits_raise | apply emits_pure
    | apply emits_print_line; exact I
    | apply emits_print; exact I
    | apply emits_run; intros; exact I
    | apply emits_mkdtemp; intros; exact I
    | apply emits_iterdir; intros; exact I
    | apply emits_rmtree; exact I
    | apply emits_path_exists
    | apply emits_git_env; intros; exact I
    | apply emits_for_each; intros;
        first [apply emits_clean_entry; intros; exact I
              | apply emits_copy_entry; intros; exact I]
    | apply emits_bind; [|intros ?]
    | apply emits_try_finally
    | match goal with |- emits _ (if ?b then _ else _) => destruct b end ].

Section PushThenPoll.
Import Py Trace DeployAdapter Order Polling Before More.

Lemma push_head_achieves remote_url branch key force :
  achieves pushed (git_push_current_head remote_url branch key force).
Proof.
  unfold git_push_current_head, environ_copy.
  apply achieves_bind_r; [apply emits_pure| |]; intros env0; [|destruct force; emits_all].
  apply achieves_bind_r; [emits_all| |]; intros env; [|destruct force; emits_all].
  apply achieves_bind_r; [emits_all| |]; intros _; [|destruct force; emits_all].
  apply achieves_bind_r; [emits_all| |]; intros _; [|destruct force; emits_all].
  apply achieves_bind_l; [|destruct force; emits_all|intros; emits_all].
  apply achieves_run. destruct force; by eexists _, _, _.
Qed.

Lemma prepare_and_push_achieves remote_url branch artifact_dir tmp env msg force :
  achieves pushed (prepare_and_push remote_url branch artifact_dir tmp env msg force).
Proof.
  unfold prepare_and_push.
  apply achieves_bind_r; [emits_all| |]; intros _; [|destruct force; emits_all].
  apply achieves_bind_r; [emits_all| |]; intros _; [|destruct force; emits_all].
  apply achieves_bind_r; [emits_all| |]; intros names; [|destruct force; emits_all].
  apply achieves_bind_r; [emits_all| |]; intros _; [|destruct force; emits_all].
  apply achieves_bind_r; [emits_all| |]; intros present; [|destruct force; emits_all].
  destruct (negb present); [intros w a w' H; discriminate|].
  apply achieves_bind_r; [emits_all| |]; intros _; [|destruct force; emits_all].
  apply achieves_bind_r; [emits_all| |]; intros items; [|destruct force; emits_all].
  apply achieves_bind_r; [emits_all| |]; intros _; [|destruct force; emits_all].
  apply achieves_bind_r; [emits_all| |]; intros _; [|destruct force; emits_all].
  apply achieves_bind_r; [emits_all| |]; intros _; [|destruct force; emits_all].
  apply achieves_bind_l; [|destruct force; emits_all|intros; emits_all].
  apply achieves_run. destruct force; by eexists _, _, _.
Qed.

Lemma artifact_dir_achieves remote_url branch artifact_dir key msg force :
  achieves pushed (git_push_artifact_dir remote_url branch artifact_dir key msg force).
Proof.
  unfold git_push_artifact_dir, environ_copy.
  apply achieves_bind_r; [apply emits_pure| |]; intros env0; [|destruct force; emits_all].
  apply achieves_bind_r; [emits_all| |]; intros env; [|destruct force; emits_all].
  apply achieves_bind_r; [emits_all| |]; intros tmp; [|destruct force; emits_all].
  apply achieves_bind_r; [emits_all| |]; intros _; [|destruct force; emits_all].
  apply achieves_try_finally; [apply prepare_and_push_achieves| |emits_all].
  unfold prepare_and_push. destruct force; emits_all.
Qed.

End PushThenPoll.

Section PollingFollowsPush.
Import Py Trace DeployAdapter Order Polling Before More.

Lemma phase_within (ps : list nat) (evs : list Event) (e : Event) (q : nat) :
  Forall (fun e => in_phases ps e = true) evs -> In e evs -> phase e = Some q -> In q ps.
Proof.
  intros Hf Hin Hq. rewrite List.Forall_forall in Hf. apply Hf in Hin.
  unfold in_phases in Hin. rewrite Hq in Hin.
  apply existsb_exists in Hin as (x & Hx & ->%Nat.eqb_eq). exact Hx.
Qed.

Lemma push_part_achieves args key :
  achieves pushed
    (if negb (truthy_str (artifact_dir args)) then
       ensure_clean_worktree (allow_dirty args) ;;
       print_line ("Pushing current HEAD to " +:+ remote args +:+ " branch " +:+ branch args) ;;
       git_push_current_head (remote args) (branch args) key (force args)
     else
       msg <- (if truthy_str (commit_msg args) then ret (text_or_empty (commit_msg args))
               else stamp <- strftime_now ;; ret ("deploy: " +:+ stamp)) ;;
       git_push_artifact_dir (remote args) (branch args) (text_or_empty (artifact_dir args))
         key msg (force args)).
Proof.
  destruct (negb (truthy_str (artifact_dir args))).
  - apply achieves_bind_r.
    + eapply emits_anything, clean_worktree_events.
    + intros _. apply achieves_bind_r; [emits_all| |];
        intros _; [apply push_head_achieves|eapply emits_anything, push_head_events].
    + intros _. apply emits_bind; [emits_all|]. intros _.
      eapply emits_anything, push_head_events.
  - apply achieves_bind_r.
    + unfold strftime_now. emits_all.
    + intros msg. apply artifact_dir_achieves.
    + intros msg. eapply emits_anything, ordered_events, artifact_dir_ordered.
Qed.

(** Within the [try] block of [main], whatever the poller does comes
    after a push that exited with zero. *)
Lemma main_body_polls_after_push fuel args key w e :
  phase e = Some 6%nat ->
  In e (new_events w (main_body fuel args key w).2) ->
  exists before after,
    new_events w (main_body fuel args key w).2 = (before ++ e :: after)%list
    /\ Exists pushed before.
Proof.
  intros Hq. destruct (main_body fuel args key w) as [r w'] eqn:H. simpl.
  unfold main_body in H.
  eapply (step_emits (fun e => in_phases [2; 3; 4; 5]%nat e = true)) in H;
    [| |apply grows_refl].
  2: { eapply emits_mono; [|apply ordered_events, push_part_ordered].
       intros e0. apply in_phases_incl. destruct (truthy_str (artifact_dir args)); side_conditions. }
  destruct H as (evs & Hf & [(a & w1 & Hpush & Hg & Hk)|(Hg & _)]); simpl in Hg.
  2: { rewrite (grows_new_events _ _ _ Hg). intros Hin.
       pose proof (phase_within _ _ _ _ Hf Hin Hq) as Hbad. simpl in Hbad. lia. }
  pose proof (push_part_achieves args key w a w1 Hpush) as Hpushed.
  rewrite (grows_new_events _ _ _ Hg) in Hpushed.
  assert (exists rest, grows w1 w' rest) as [rest Hgr].
  { assert (emits anything
              (print_line ("Push to " +:+ remote args +:+ " branch " +:+ branch args
                           +:+ " complete.") ;;
               if truthy_str (status_url args) && negb (skip_poll args) then
                 token <- environ_get "BACKEND_IM_TOKEN" ;;
                 poll_status_url fuel (text_or_empty (status_url args)) token 3
                   (status_timeout args) ;;
                 ret tt
               else
                 (if truthy_str (status_url args) then
                    print_line "Status URL provided but polling skipped (--skip-poll set)"
                  else ret tt) ;;
                 print_line "Done — check Backend.im dashboard or logs for deployment status if available."))
      as Hem.
    { apply emits_bind; [emits_all|]. intros _. destruct (_ && _).
      - unfold environ_get. apply emits_bind; [apply emits_pure|]. intros token.
        apply emits_bind; [eapply emits_anything, poll_events|]. intros; apply emits_ret.
      - emits_all. }
    destruct (Hem w1) as (rest & Hgr & _). rewrite Hk in Hgr. eauto. }
  rewrite (grows_new_events _ _ _ (grows_trans _ _ _ _ _ Hg Hgr)).
  intros [Hin|Hin]%in_app_or.
  - pose proof (phase_within _ _ _ _ Hf Hin Hq) as Hbad. simpl in Hbad. lia.
  - apply in_split in Hin as (l1 & l2 & ->).
    exists (evs ++ l1)%list, l2. split; [by rewrite <- app_assoc|].
    apply Exists_app. by left.
Qed.

(** A run of [main] sends a request to the status URL only after a push
    that exited with zero: in either mode, when the push fails or is not
    reached, nothing is polled. *)
Theorem polling_follows_a_successful_push (fuel : nat) (args : Args) (w : World)
    (url : string) (headers : gmap string string) :
  In (EvGet url headers) (new_events w (main fuel args w).2) ->
  exists before after,
    new_events w (main fuel args w).2 = (before ++ EvGet url headers :: after)%list
    /\ Exists pushed before.
Proof.
  rewrite main_unfold. unfold bind.
  assert (emits (fun e => in_phases [1%nat] e = true)
            (if truthy_str (git_ssh_key w) then write_ssh_key_if_provided (git_ssh_key w)
             else ret None)) as Hpre.
  { destruct (truthy_str (git_ssh_key w)); [apply write_key_events|apply emits_ret]. }
  destruct (Hpre w) as (evs1 & Hg1 & Hf1).
  destruct ((if truthy_str (git_ssh_key w) then write_ssh_key_if_provided (git_ssh_key w)
             else ret None) w) as [[key|e|] w1]; simpl in Hg1.
  2, 3: simpl; rewrite (grows_new_events _ _ _ Hg1); intros Hin;
        pose proof (phase_within _ _ _ 6%nat Hf1 Hin eq_refl) as Hbad; simpl in Hbad; lia.
  unfold try_finally.
  pose proof (main_body_polls_after_push fuel args key w1 (EvGet url headers) eq_refl) as Hb.
  destruct (main_body_ordered fuel args key w1) as (evsb & Hgb & _).
  rewrite (grows_new_events _ _ _ Hgb) in Hb.
  destruct (main_body fuel args key w1) as [rb wb]; simpl in Hb, Hgb.
  destruct (cleanup_events key wb) as (evsc & Hgc & Hfc).
  assert (In (EvGet url headers) (evs1 ++ evsb ++ evsc) ->
          exists before after,
            (evs1 ++ evsb ++ evsc)%list = (before ++ EvGet url headers :: after)%list
            /\ Exists pushed before) as Hall.
  { intros [Hin|[Hin|Hin]%in_app_or]%in_app_or.
    - pose proof (phase_within _ _ _ 6%nat Hf1 Hin eq_refl) as Hbad. simpl in Hbad. lia.
    - destruct (Hb Hin) as (b0 & a0 & -> & Hp).
      exists (evs1 ++ b0)%list, (a0 ++ evsc)%list. split; [by rewrite <- !app_assoc|].
      apply Exists_app. by right.
    - pose proof (phase_within _ _ _ 6%nat Hfc Hin eq_refl) as Hbad. simpl in Hbad. lia. }
  assert (In (EvGet url headers) (evs1 ++ evsb) ->
          exists before after,
            (evs1 ++ evsb)%list = (before ++ EvGet url headers :: after)%list
            /\ Exists pushed before) as Hpart.
  { intros [Hin|Hin]%in_app_or.
    - pose proof (phase_within _ _ _ 6%nat Hf1 Hin eq_refl) as Hbad. simpl in Hbad. lia.
    - destruct (Hb Hin) as (b0 & a0 & -> & Hp).
      exists (evs1 ++ b0)%list, a0. split; [by rewrite <- !app_assoc|].
      apply Exists_app. by right. }
  pose proof (grows_trans _ _ _ _ _ Hg1 Hgb) as Hgwb.
  pose proof (grows_trans _ _ _ _ _ Hgwb Hgc) as Hgwc. rewrite <- app_assoc in Hgwc.
  destruct rb as [[]|e|]; [| |simpl; by rewrite (grows_new_events _ _ _ Hgwb)];
    destruct (main_cleanup key wb) as [[[]|e'|] wc]; simpl in *;
    by rewrite (grows_new_events _ _ _ Hgwc).
Qed.

Lemma polling_follows_a_successful_push_witness :
  let w := Sample.start ∅ ∅ Sample.calm in
  exists before after,
    new_events w (main 3 Runs.polled w).2
    = (before ++ EvGet "https://api.backend.im/v1/deploys/123" ∅ :: after)%list
    /\ Exists pushed before.
Proof.
  intros w.
  apply (polling_follows_a_successful_push 3 Runs.polled w).
  vm_compute. do 13 right. left. reflexivity.
Defined.

End PollingFollowsPush.

(** ** A dirty working tree *)

Section DirtyTree.
Import Py Trace DeployAdapter Order More.

Lemma worktree_refusal (w : World) (o : exit_info) (fs' : fsmap) :
  x_run (ext w) (S (length (log w))) (Argv ["git"; "status"; "--porcelain"]) None None (fs w)
    = (Some o, fs') ->
  x_code o = 0%Z -> strip (x_out o) <> EmptyString ->
  exists w',
    ensure_clean_worktree false w = (Raise refusal, w')
    /\ new_events w w'
       = [echo (Argv ["git"; "status"; "--porcelain"]);
          EvRun (Argv ["git"; "status"; "--porcelain"]) None None true 0;
          EvPrint [Lit ("Working tree has uncommitted changes:" +:+ nl); Lit " ";
                   Lit (strip (x_out o)); Lit nl]].
Proof.
  intros Hx Hz Hd. unfold ensure_clean_worktree.
  destruct (bind (run (Argv ["git"; "status"; "--porcelain"]) None true true None) _ w)
    as [r w'] eqn:H.
  apply bind_run_inv in H as [(res & w1 & Q & Hk)|(e & Q & ->)]; inversion Q; subst; clear Q;
    match goal with Hr : x_run _ _ _ _ _ _ = _ |- _ => rewrite Hx in Hr; inversion Hr; subst end;
    [|congruence].
  simpl in Hk.
  match type of Hk with context [String.eqb ?a EmptyString] =>
    assert (String.eqb a EmptyString = false) as Hne by (by apply String.eqb_neq);
    rewrite Hne in Hk end.
  simpl in Hk. unfold bind, print, raise in Hk. simpl in Hk. inversion Hk; subst.
  eexists. split; [reflexivity|].
  apply new_events_app. simpl. rewrite Hz, <- app_assoc. reflexivity.
Qed.

(** In DirectHead mode without [--allow-dirty], when [git status
    --porcelain] reports a change the [try] block of [main] stops with the
    refusal, and [git status] is the only command it has run: no remote is
    registered and nothing is pushed or polled. *)
Theorem dirty_tree_stops_the_run (fuel : nat) (args : Args) (key : option string)
    (w : World) (o : exit_info) (fs' : fsmap) :
  truthy_str (artifact_dir args) = false -> allow_dirty args = false ->
  x_run (ext w) (S (length (log w))) (Argv ["git"; "status"; "--porcelain"]) None None (fs w)
    = (Some o, fs') ->
  x_code o = 0%Z -> strip (x_out o) <> EmptyString ->
  (main_body fuel args key w).1 = Raise refusal
  /\ runs (new_events w (main_body fuel args key w).2)
     = [(Argv ["git"; "status"; "--porcelain"], 0%Z)]
  /\ Forall (fun e => is_get e = false) (new_events w (main_body fuel args key w).2).
Proof.
  intros Hart Hallow Hx Hz Hd.
  destruct (worktree_refusal w o fs' Hx Hz Hd) as (w' & Hrun & Hev).
  unfold main_body. rewrite Hart, Hallow. simpl negb. cbv iota.
  erewrite bind_raise; [|erewrite bind_raise; [reflexivity|exact Hrun]].
  simpl. rewrite Hev. split; [reflexivity|]. split; [reflexivity|]. by repeat constructor.
Qed.

Lemma dirty_tree_stops_the_run_witness :
  let w := Sample.start ∅ ∅ Runs.dirty_tree in
  (main_body 3 Runs.polled None w).1 = Raise refusal
  /\ runs (new_events w (main_body 3 Runs.polled None w).2)
     = [(Argv ["git"; "status"; "--porcelain"], 0%Z)]
  /\ Forall (fun e => is_get e = false) (new_events w (main_body 3 Runs.polled None w).2).
Proof.
  intros w.
  apply (dirty_tree_stops_the_run 3 Runs.polled None w
           {| x_code := 0; x_out := " M app.js" +:+ nl; x_err := EmptyString |} ∅).
  - reflexivity.
  - reflexivity.
  - reflexivity.
  - reflexivity.
  - vm_compute. discriminate.
Defined.

End DirtyTree.

(** ** dagger.py: the tag of the image *)

Section ImageTag.
Import Py Trace Dagger.

(** How [git_sha_short] can end.  The only exception it lets through is
    the [SystemExit] that [run] raises when [git rev-parse --short HEAD]
    exits with a nonzero code: [except Exception] does not catch it, and
    the workflow stops.  When it returns, the tag is the output of a git
    that exited with zero, without surrounding whitespace, or a
    timestamp; the timestamp it is when git cannot be started. *)
Theorem sha_is_git_output_or_timestamp (w : World) :
  let cmd := Argv ["git"; "rev-parse"; "--short"; "HEAD"] in
  let started := (x_run (ext w) (S (length (log w))) cmd None None (fs w)).1 in
  match (git_sha_short w).1 with
  | Ok tag =>
      (exists o, started = Some o /\ x_code o = 0%Z /\ tag = strip (x_out o))
      \/ (exists t, tag = x_strftime (ext w) t)
  | Raise e =>
      exists o, started = Some o /\ x_code o <> 0%Z
        /\ e = SystemExit (failed_msg cmd (x_code o))
  | Diverge => False
  end
  /\ (started = None -> (git_sha_short w).1 = Ok (x_strftime (ext w) (now w))).
Proof.
  intros cmd started. subst cmd started. unfold git_sha_short, try_except.
  match goal with |- context [match ?m with _ => _ end] =>
    destruct m as [r w'] eqn:H end.
  apply bind_run_inv in H as [(res & w1 & Q & Hk)|(e & Q & ->)]; inversion Q; subst; clear Q;
    match goal with Hr : x_run _ _ _ _ _ _ = _ |- _ => rewrite Hr end; simpl.
  - match goal with Hz : _ \/ _ |- _ => destruct Hz as [Hzero|Hzero]; [|discriminate] end.
    unfold ret in Hk. inversion Hk; subst. simpl. split; [|discriminate].
    left. eauto.
  - split; [|discriminate]. eauto.
  - split; [|reflexivity]. right. eauto.
Qed.

End ImageTag.

(** ** dagger.py: events of the steps *)

Section WorkflowEvents.
Import Py Trace Dagger.

Lemma emits_read_file P p : emits P (read_file p).
Proof.
  apply emits_one. intros w. left. unfold read_file. by destruct (fs w !! Path p) as [[|]|].
Qed.

Lemma emits_json_load P loads data : emits P (json_load loads data).
Proof. unfold json_load. destruct (loads data); [apply emits_ret|apply emits_raise]. Qed.

Lemma emits_get_default P j k d : emits P (get_default j k d).
Proof. destruct j; first [apply emits_ret | apply emits_raise]. Qed.

Lemma emits_contains P s v : emits P (contains s v).
Proof. destruct v; first [apply emits_ret | apply emits_raise]. Qed.

End WorkflowEvents.

Ltac workflow_events :=
  repeat first
    [ apply emits_ret | apply emits_raise | apply emits_pure
    | apply emits_read_file | apply emits_json_load | apply emits_get_default
    | apply emits_contains
    | apply emits_print_line; reflexivity
    | apply emits_print; reflexivity
    | apply emits_run; intros; reflexivity
    | apply emits_bind; [|intros ?]
    | apply emits_try_except; [|intros ?]
    | match goal with |- emits _ (if ?b then _ else _) => destruct b end ].

Section WorkflowFlags.
Import Py Trace Dagger Workflow.

Lemma sha_events (c : Event -> bool) :
  (forall t, c (EvPrint t) = true) ->
  (forall rc, c (EvRun (Argv ["git"; "rev-parse"; "--short"; "HEAD"]) None None true rc) = true) ->
  emits (fun e => c e = true) git_sha_short.
Proof.
  intros Hp Hr. unfold git_sha_short, utcnow_strftime.
  apply emits_try_except; [|intros; apply emits_pure].
  apply emits_bind; [apply emits_run; intros; first [apply Hp | apply Hr]|].
  intros; apply emits_ret.
Qed.

Lemma login_events (c : Event -> bool) image_ref :
  (forall t, c (EvPrint t) = true) ->
  (forall line rc, c (EvRun (Shell line) None None false rc) = true) ->
  emits (fun e => c e = true) (docker_login_if_needed image_ref).
Proof.
  intros Hp Hr. unfold docker_login_if_needed, environ_get.
  repeat first
    [ apply emits_ret | apply emits_pure
    | apply emits_print_line; apply Hp
    | apply emits_run; intros; first [apply Hp | apply Hr]
    | apply emits_bind; [|intros ?]
    | match goal with |- emits _ (if ?b then _ else _) => destruct b end ].
Qed.

Lemma npm_events_no_docker loads dir sub :
  emits (fun e => is_docker sub e = false) (npm_install_and_test loads dir).
Proof. unfold npm_install_and_test, os_path_exists. workflow_events. Qed.

(** The flags of the workflow are honoured: with [--no-push] no
    [docker push] is started, and with [--skip-tests] no npm command. *)
Theorem workflow_flags_are_honoured loads (cwd : string) (args : Args) (w : World) :
  (no_push args = true ->
   Forall (fun e => is_docker "push" e = false) (new_events w (main loads cwd args w).2))
  /\ (skip_tests args = true ->
      Forall (fun e => is_npm e = false) (new_events w (main loads cwd args w).2)).
Proof.
  split; intros Hflag.
  - assert (emits (fun e => negb (is_docker "push" e) = true) (main loads cwd args)) as Hm.
    { unfold main. rewrite Hflag.
      apply emits_bind; [by apply emits_print_line|]. intros _.
      apply emits_bind; [by apply sha_events|]. intros sha.
      apply emits_bind; [by apply login_events|]. intros _.
      apply emits_bind.
      { destruct (negb (skip_tests args)); [|by apply emits_print_line].
        eapply emits_mono; [|apply (npm_events_no_docker loads _ "push")].
        by intros e ->. }
      intros _. workflow_events. }
    destruct (Hm w) as (evs & Hg & Hf). rewrite (grows_new_events _ _ _ Hg).
    eapply Forall_impl; [exact Hf|]. intros e He. by apply negb_true_iff in He.
  - assert (emits (fun e => negb (is_npm e) = true) (main loads cwd args)) as Hm.
    { unfold main. rewrite Hflag. simpl negb. cbv iota.
      apply emits_bind; [by apply emits_print_line|]. intros _.
      apply emits_bind; [by apply sha_events|]. intros sha.
      apply emits_bind; [by apply login_events|]. intros _.
      workflow_events. }
    destruct (Hm w) as (evs & Hg & Hf). rewrite (grows_new_events _ _ _ Hg).
    eapply Forall_impl; [exact Hf|]. intros e He. by apply negb_true_iff in He.
Qed.

Lemma workflow_flags_are_honoured_witness :
  Forall (fun e => is_docker "push" e = false)
    (new_events (Sample.start ∅ project_files in_repository)
       (main loads "/srv/app" build_only (Sample.start ∅ project_files in_repository)).2)
  /\ Forall (fun e => is_npm e = false)
       (new_events (Sample.start ∅ project_files in_repository)
          (main loads "/srv/app" build_only (Sample.start ∅ project_files in_repository)).2).
Proof.
  destruct (workflow_flags_are_honoured loads "/srv/app" build_only
              (Sample.start ∅ project_files in_repository)) as [H1 H2].
  split; [apply H1|apply H2]; reflexivity.
Defined.

End WorkflowFlags.

(** ** dagger.py: install, test, build *)

Section NpmSteps.
Import Py Trace Dagger Workflow.

Lemma step_pure {A B} (f : World -> result A) (k : A -> M B) w0 r w' :
  bind (fun w => (f w, w)) k w0 = (r, w') ->
  (exists a, f w0 = Ok a /\ k a w0 = (r, w'))
  \/ (w' = w0 /\ forall b, r <> Ok b).
Proof.
  unfold bind. destruct (f w0) as [a|e|]; [eauto|..]; intros H; inversion H; subst; by right.
Qed.

Lemma read_file_inv {B} p (k : list byte -> M B) w0 r w' :
  bind (read_file p) k w0 = (r, w') ->
  (exists data mode, fs w0 !! Path p = Some (File data mode) /\ k data w0 = (r, w'))
  \/ (w' = w0 /\ forall b, r <> Ok b).
Proof.
  unfold bind, read_file. destruct (fs w0 !! Path p) as [[data mode|]|]; [eauto|..];
    intros H; inversion H; subst; by right.
Qed.

Lemma bind_ret_r {A} (m : M A) w : bind m ret w = m w.
Proof. unfold bind, ret. by destruct (m w) as [[a|e|] w1]. Qed.

Lemma bind_assoc {A B C} (m : M A) (f : A -> M B) (g : B -> M C) w :
  bind (bind m f) g w = bind m (fun a => bind (f a) g) w.
Proof. unfold bind. by destruct (m w) as [[a|e|] w1]. Qed.

(** An announcement followed by a checked command, when what follows
    returns. *)
Lemma step_announced_run {B} line cmd cwd (k : unit -> M B) w w0 E (b : B) w' :
  grows w w0 E ->
  bind (print_line line ;; Dagger.run cmd cwd true false None ;; ret tt) k w0 = (Ok b, w') ->
  exists w1,
    grows w w1 (E ++ [EvPrint [Lit line; Lit nl]; echo cmd; EvRun cmd cwd None false 0])
    /\ k tt w1 = (Ok b, w').
Proof.
  intros Hg H. rewrite bind_assoc in H. unfold print_line at 1 in H.
  eapply step_print in H; [|exact Hg]. destruct H as (w1 & Hg1 & _ & _ & _ & H).
  rewrite bind_assoc in H. eapply step_run in H; [|exact Hg1].
  destruct H as [(r & w2 & Hg2 & Hz & _ & _ & _ & H)|[(? & ? & ? & _ & _ & Hbad & _)|[Hbad _]]];
    try discriminate.
  exists w2. rewrite (Hz eq_refl) in Hg2. rewrite <- app_assoc in Hg2. split; [exact Hg2|].
  exact H.
Qed.

(** When [npm_install_and_test] returns, it has run [npm ci], then [npm
    test] if [package.json] has a test script, then [npm run build] if it
    has a build script, each in the project directory and each exiting
    with zero.  [package.json] is read after [npm ci] has run, as [npm
    ci] left it. *)
Theorem npm_steps_when_it_returns loads (dir : string) (w w' : World) :
  npm_install_and_test loads dir w = (Ok tt, w') ->
  let ci := Argv ["npm"; "ci"] in
  let fs1 := (x_run (ext w) (S (S (length (log w)))) ci (Some dir) None (fs w)).2 in
  exists data mode pj scripts (test build : bool),
    fs1 !! Path (path_join dir "package.json") = Some (File data mode)
    /\ loads data = Some pj
    /\ get_default pj "scripts" (VDict []) w = (Ok scripts, w)
    /\ contains "test" scripts w = (Ok test, w)
    /\ contains "build" scripts w = (Ok build, w)
    /\ new_events w w'
       = ([EvPrint [Lit "Installing npm dependencies (npm ci)..."; Lit nl];
           echo ci; EvRun ci (Some dir) None false 0]
          ++ (if test
              then [EvPrint [Lit "Running npm test..."; Lit nl];
                    echo (Argv ["npm"; "test"]);
                    EvRun (Argv ["npm"; "test"]) (Some dir) None false 0]
              else [EvPrint [Lit "No `test` script found in package.json — skipping tests";
                             Lit nl]])
          ++ (if build
              then [EvPrint [Lit "Running npm run build..."; Lit nl];
                    echo (Argv ["npm"; "run"; "build"]);
                    EvRun (Argv ["npm"; "run"; "build"]) (Some dir) None false 0]
              else [EvPrint [Lit "No `build` script found in package.json — skipping build step";
                             Lit nl]]))%list.
Proof.
  intros H ci fs1. unfold npm_install_and_test in H.
  unfold bind at 1, os_path_exists in H.
  destruct (negb (bool_decide (is_Some (fs w !! Path (path_join dir "package.json")))));
    [discriminate|].
  unfold print_line at 1 in H.
  eapply step_print in H; [|apply grows_refl].
  destruct H as (w0 & Hg0 & Hfs0 & Hext0 & _ & H). simpl in Hg0.
  eapply step_run in H; [|exact Hg0].
  destruct H as [(r1 & w1 & Hg1 & Hz1 & Hfs1 & _ & _ & H)|[(? & ? & ? & _ & _ & Hbad & _)|[Hbad _]]];
    try discriminate.
  assert (fs w1 = fs1) as Hfs.
  { rewrite Hfs1, Hext0, Hfs0. unfold grows in Hg0. rewrite Hg0, length_app. simpl.
    by rewrite Nat.add_1_r. }
  apply read_file_inv in H as [(data & mode & Hfile & H)|[_ Hbad]]; [|by destruct (Hbad tt)].
  rewrite Hfs in Hfile.
  unfold bind at 1 in H. unfold json_load at 1 in H.
  destruct (loads data) as [pj|] eqn:Hload; [|discriminate].
  cbn [ret] in H. unfold bind at 1 in H.
  assert (exists scripts, forall v : World, get_default pj "scripts" (VDict []) v = (Ok scripts, v))
    as [scripts Hscripts].
  { destruct pj; try discriminate. eexists. reflexivity. }
  rewrite Hscripts in H. unfold bind at 1 in H.
  assert (exists test, forall v : World, contains "test" scripts v = (Ok test, v)) as [test Htest].
  { destruct scripts; try discriminate; eexists; reflexivity. }
  assert (exists build, forall v : World, contains "build" scripts v = (Ok build, v))
    as [build Hbuild].
  { destruct scripts; try discriminate; eexists; reflexivity. }
  rewrite Htest in H.
  exists data, mode, pj, scripts, test, build.
  split; [exact Hfile|]. split; [exact Hload|]. split; [apply Hscripts|].
  split; [apply Htest|]. split; [apply Hbuild|].
  rewrite (Hz1 eq_refl) in Hg1.
  assert (exists w2,
            grows w w2
              (([EvPrint [Lit "Installing npm dependencies (npm ci)..."; Lit nl]] ++
                [echo ci; EvRun ci (Some dir) None false 0]) ++
               (if test
                then [EvPrint [Lit "Running npm test..."; Lit nl];
                      echo (Argv ["npm"; "test"]);
                      EvRun (Argv ["npm"; "test"]) (Some dir) None false 0]
                else [EvPrint [Lit "No `test` script found in package.json — skipping tests";
                               Lit nl]]))
            /\ (has_build <- contains "build" scripts ;;
                if has_build then
                  print_line "Running npm run build..." ;;
                  Dagger.run (Argv ["npm"; "run"; "build"]) (Some dir) true false None ;;
                  ret tt
                else print_line "No `build` script found in package.json — skipping build step")
                 w2 = (Ok tt, w')) as (w2 & Hg2 & H2).
  { destruct test.
    - eapply step_announced_run in H; [|exact Hg1]. destruct H as (w2 & Hg2 & H).
      exists w2. by split.
    - unfold print_line at 1 in H. eapply step_print in H; [|exact Hg1].
      destruct H as (w2 & Hg2 & _ & _ & _ & H). exists w2. by split. }
  clear H. unfold bind at 1 in H2. rewrite Hbuild in H2.
  destruct build.
  - rewrite <- (bind_ret_r _ w2) in H2.
    eapply step_announced_run in H2; [|exact Hg2]. destruct H2 as (w3 & Hg3 & H3).
    unfold ret in H3. inversion H3; subst w3.
    rewrite (grows_new_events _ _ _ Hg3). destruct test; reflexivity.
  - unfold print_line, print in H2. inversion H2; subst w'.
    apply new_events_app. simpl. unfold grows in Hg2. rewrite Hg2.
    destruct test; simpl; rewrite <- !app_assoc; reflexivity.
Qed.

Lemma npm_steps_when_it_returns_witness :
  let w := Sample.start ∅ project_files in_repository in
  let w' := (npm_install_and_test loads "/srv/app" w).2 in
  let ci := Argv ["npm"; "ci"] in
  let fs1 := (x_run (ext w) (S (S (length (log w)))) ci (Some "/srv/app") None (fs w)).2 in
  exists data mode pj scripts (test build : bool),
    fs1 !! Path (path_join "/srv/app" "package.json") = Some (File data mode)
    /\ loads data = Some pj
    /\ get_default pj "scripts" (VDict []) w = (Ok scripts, w)
    /\ contains "test" scripts w = (Ok test, w)
    /\ contains "build" scripts w = (Ok build, w)
    /\ new_events w w'
       = ([EvPrint [Lit "Installing npm dependencies (npm ci)..."; Lit nl];
           echo ci; EvRun ci (Some "/srv/app") None false 0]
          ++ (if test
              then [EvPrint [Lit "Running npm test..."; Lit nl];
                    echo (Argv ["npm"; "test"]);
                    EvRun (Argv ["npm"; "test"]) (Some "/srv/app") None false 0]
              else [EvPrint [Lit "No `test` script found in package.json — skipping tests";
                             Lit nl]])
          ++ (if build
              then [EvPrint [Lit "Running npm run build..."; Lit nl];
                    echo (Argv ["npm"; "run"; "build"]);
                    EvRun (Argv ["npm"; "run"; "build"]) (Some "/srv/app") None false 0]
              else [EvPrint [Lit "No `build` script found in package.json — skipping build step";
                             Lit nl]]))%list.
Proof.
  intros w w'.
  apply (npm_steps_when_it_returns loads "/srv/app" w w').
  vm_compute. reflexivity.
Defined.

(** The run of the sample: the tests run, there is nothing to build. *)
Example npm_runs_of_the_sample :
  runs (new_events (Sample.start ∅ project_files in_repository)
          (npm_install_and_test loads "/srv/app"
             (Sample.start ∅ project_files in_repository)).2)
  = [(Argv ["npm"; "ci"], 0%Z); (Argv ["npm"; "test"], 0%Z)].
Proof. vm_compute. reflexivity. Qed.

End NpmSteps.

(** ** dagger.py: the workflow, when it succeeds *)

Section WorkflowSuccess.
Import Py Trace Dagger Workflow.

Lemma npm_events_before_docker loads dir :
  emits (fun e => no_docker e = true) (npm_install_and_test loads dir).
Proof. unfold npm_install_and_test, os_path_exists. workflow_events. Qed.

(** When the workflow returns: the tag is what [git_sha_short] returned
    right after the first line was printed; nothing before the build
    starts docker's build or push; the image built is [<image>:<tag>], in
    the absolute project directory, and the build exited with zero; the
    same reference is then pushed (unless [--no-push]) and printed last,
    as [artifact:<image>:<tag>]. *)
Theorem workflow_success_trace loads (cwd : string) (args : Args) (w w' : World) :
  main loads cwd args w = (Ok tt, w') ->
  exists sha pre,
    let ref := image args +:+ ":" +:+ sha in
    let project := abspath cwd (project_dir args) in
    let build := Argv ["docker"; "build"; "-t"; ref; "."] in
    let push := Argv ["docker"; "push"; ref] in
    (git_sha_short
       (emit (EvPrint [Lit "Starting Dagger-style local workflow"; Lit nl]) w)).1 = Ok sha
    /\ Forall (fun e => no_docker e = true) pre
    /\ new_events w w'
       = (EvPrint [Lit "Starting Dagger-style local workflow"; Lit nl] :: pre
          ++ [echo build; EvRun build (Some project) None false 0]
          ++ (if no_push args
              then [EvPrint [Lit ("Built image " +:+ ref +:+ " (not pushed, --no-push set)");
                             Lit nl]]
              else [EvPrint [Lit "Pushing image to registry..."; Lit nl];
                    echo push; EvRun push None None false 0])
          ++ [EvPrint [Lit "Workflow complete."; Lit nl];
              EvPrint [Lit ("artifact:" +:+ ref); Lit nl]])%list.
Proof.
  intros H. unfold main in H.
  unfold bind at 1, print_line at 1, print at 1 in H. cbv beta iota in H.
  set (w0 := emit (EvPrint [Lit "Starting Dagger-style local workflow"; Lit nl]) w) in *.
  assert (grows w w0 [EvPrint [Lit "Starting Dagger-style local workflow"; Lit nl]]) as Hg0
    by reflexivity.
  eapply (step_emits (fun e => no_docker e = true)) in H; [|by apply sha_events|exact Hg0].
  destruct H as (e1 & Hf1 & [(sha & w1 & Hsha & Hg1 & H)|(_ & [(? & Hbad & _)|(Hbad & _)])]);
    try discriminate.
  eapply (step_emits (fun e => no_docker e = true)) in H; [|by apply login_events|exact Hg1].
  destruct H as (e2 & Hf2 & [([] & w2 & _ & Hg2 & H)|(_ & [(? & Hbad & _)|(Hbad & _)])]);
    try discriminate.
  eapply (step_emits (fun e => no_docker e = true)) in H; [| |exact Hg2].
  2: { destruct (negb (skip_tests args)); [apply npm_events_before_docker|by apply emits_print_line]. }
  destruct H as (e3 & Hf3 & [([] & w3 & _ & Hg3 & H)|(_ & [(? & Hbad & _)|(Hbad & _)])]);
    try discriminate.
  eapply step_run in H; [|exact Hg3].
  destruct H as [(r4 & w4 & Hg4 & Hz4 & _ & _ & _ & H)|[(? & ? & ? & _ & _ & Hbad & _)|[Hbad _]]];
    try discriminate.
  rewrite (Hz4 eq_refl) in Hg4.
  exists sha, (e1 ++ e2 ++ e3)%list. cbv zeta.
  split; [by rewrite Hsha|]. split; [by rewrite !Forall_app|].
  destruct (no_push args).
  - unfold print_line at 1 in H. eapply step_print in H; [|exact Hg4].
    destruct H as (w5 & Hg5 & _ & _ & _ & H).
    unfold bind, print_line, print in H. inversion H; subst w'.
    apply new_events_app. cbn [log emit]. unfold grows in Hg5. rewrite Hg5.
    rewrite <- !app_assoc. reflexivity.
  - eapply step_announced_run in H; [|exact Hg4]. destruct H as (w5 & Hg5 & H).
    unfold bind, print_line, print in H. inversion H; subst w'.
    apply new_events_app. cbn [log emit]. unfold grows in Hg5. rewrite Hg5.
    rewrite <- !app_assoc. reflexivity.
Qed.

Lemma workflow_success_trace_witness :
  let w := Sample.start ∅ project_files in_repository in
  let w' := (main loads "/srv/app" full w).2 in
  exists sha pre,
    let ref := image full +:+ ":" +:+ sha in
    let project := abspath "/srv/app" (project_dir full) in
    let build := Argv ["docker"; "build"; "-t"; ref; "."] in
    let push := Argv ["docker"; "push"; ref] in
    (git_sha_short
       (emit (EvPrint [Lit "Starting Dagger-style local workflow"; Lit nl]) w)).1 = Ok sha
    /\ Forall (fun e => no_docker e = true) pre
    /\ new_events w w'
       = (EvPrint [Lit "Starting Dagger-style local workflow"; Lit nl] :: pre
          ++ [echo build; EvRun build (Some project) None false 0]
          ++ (if no_push full
              then [EvPrint [Lit ("Built image " +:+ ref +:+ " (not pushed, --no-push set)");
                             Lit nl]]
              else [EvPrint [Lit "Pushing image to registry..."; Lit nl];
                    echo push; EvRun push None None false 0])
          ++ [EvPrint [Lit "Workflow complete."; Lit nl];
              EvPrint [Lit ("artifact:" +:+ ref); Lit nl]])%list.
Proof.
  intros w w'.
  apply (workflow_success_trace loads "/srv/app" full w w').
  vm_compute. reflexivity.
Defined.

(** The sample: the tag is the commit git printed, without the line
    end, and the last line names the image pushed. *)
Example workflow_of_the_sample :
  let w := Sample.start ∅ project_files in_repository in
  (main loads "/srv/app" full w).1 = Ok tt
  /\ runs (new_events w (main loads "/srv/app" full w).2)
     = [(Argv ["git"; "rev-parse"; "--short"; "HEAD"], 0%Z);
        (Argv ["npm"; "ci"], 0%Z); (Argv ["npm"; "test"], 0%Z);
        (Argv ["docker"; "build"; "-t"; "registry.example/app:abc1234"; "."], 0%Z);
        (Argv ["docker"; "push"; "registry.example/app:abc1234"], 0%Z)]
  /\ last (new_events w (main loads "/srv/app" full w).2)
     = Some (EvPrint [Lit "artifact:registry.example/app:abc1234"; Lit nl]).
Proof. vm_compute. repeat split. Qed.

(** [docker_login_if_needed] starts no process unless the image is on
    ghcr.io and both [GHCR_USER] and [GHCR_TOKEN] are set and not empty:
    it returns after at most one line of advice. *)
Theorem login_needs_registry_and_credentials (image_ref : string) (w : World) :
  String.prefix "ghcr.io/" image_ref
    && truthy_str (environ w !! "GHCR_USER") && truthy_str (environ w !! "GHCR_TOKEN") = false ->
  (docker_login_if_needed image_ref w).1 = Ok tt
  /\ Forall (fun e => is_print e = true) (new_events w (docker_login_if_needed image_ref w).2)
  /\ (length (new_events w (docker_login_if_needed image_ref w).2) <= 1)%nat.
Proof.
  intros H. unfold docker_login_if_needed, bind, environ_get.
  destruct (String.prefix "ghcr.io/" image_ref); simpl in H |- *.
  - destruct (truthy_str (environ w !! "GHCR_USER") && truthy_str (environ w !! "GHCR_TOKEN"));
      [discriminate|].
    simpl. erewrite new_events_app by reflexivity. split_and!; [done|by repeat constructor|done].
  - destruct (str_contains ":" image_ref || str_contains "/" image_ref); simpl.
    + erewrite new_events_app by reflexivity. split_and!; [done|by repeat constructor|done].
    + unfold new_events. rewrite drop_all. split_and!; [done|constructor|simpl; lia].
Qed.

Lemma login_needs_registry_and_credentials_witness :
  (docker_login_if_needed "ghcr.io/org/app" (Sample.start ∅ ∅ Sample.calm)).1 = Ok tt
  /\ Forall (fun e => is_print e = true)
       (new_events (Sample.start ∅ ∅ Sample.calm)
          (docker_login_if_needed "ghcr.io/org/app" (Sample.start ∅ ∅ Sample.calm)).2)
  /\ (length (new_events (Sample.start ∅ ∅ Sample.calm)
               (docker_login_if_needed "ghcr.io/org/app" (Sample.start ∅ ∅ Sample.calm)).2)
      <= 1)%nat.
Proof.
  apply (login_needs_registry_and_credentials "ghcr.io/org/app" (Sample.start ∅ ∅ Sample.calm)).
  reflexivity.
Defined.

End WorkflowSuccess.

(** ** How a run is given up *)

Section ExitsOfSteps.
Import Py Trace DeployAdapter Exits.

Lemma exits_well_quiet {A} own (m : M A) P : emits P m -> no_exit m -> exits_well own m.
Proof.
  intros Hm Hn w. destruct (Hm w) as (evs & Hg & _). exists evs. split; [done|].
  intros msg H. by destruct (Hn w msg).
Qed.

Lemma exits_well_ret {A} own (a : A) : exits_well own (ret a).
Proof. intros w. exists []. split; [apply grows_refl|]. intros msg H. discriminate. Qed.

Lemma exits_well_own {A} own msg : own msg -> exits_well own (@raise A (SystemExit msg)).
Proof.
  intros Ho w. exists []. split; [apply grows_refl|]. intros msg' H. inversion H; subst. by left.
Qed.

Lemma exits_well_error {A} own name : exits_well own (@raise A (Error name)).
Proof. intros w. exists []. split; [apply grows_refl|]. intros msg H. discriminate. Qed.

Lemma last_runs_app (e1 e2 : list Event) cr :
  last (runs e2) = Some cr -> last (runs (e1 ++ e2)) = Some cr.
Proof. intros H. unfold runs in *. rewrite omap_app, last_app, H. reflexivity. Qed.

Lemma exits_well_bind {A B} own (m : M A) (k : A -> M B) :
  exits_well own m -> (forall a, exits_well own (k a)) -> exits_well own (bind m k).
Proof.
  intros Hm Hk w. unfold bind. destruct (Hm w) as (e1 & Hg1 & H1).
  destruct (m w) as [[a|e|] w1]; simpl in *.
  - destruct (Hk a w1) as (e2 & Hg2 & H2). exists (e1 ++ e2)%list.
    split; [eapply grows_trans; eauto|]. intros msg H.
    destruct (H2 msg H) as [Ho|(c & rc & -> & Hl & Hrc)]; [by left|]. right.
    exists c, rc. split; [done|]. split; [by apply last_runs_app|done].
  - exists e1. split; [done|]. intros msg H. apply H1. by inversion H.
  - exists e1. split; [done|]. intros msg H. discriminate.
Qed.

Lemma exits_well_run own cmd cwd check capture env :
  exits_well own (run cmd cwd check capture env).
Proof.
  intros w. pose proof (run_cases cmd cwd check capture env w) as Hc.
  destruct (run cmd cwd check capture env w) as [r w']; simpl in *.
  inversion Hc; subst; eexists; (split; [reflexivity|]); intros msg Hmsg; try discriminate.
  inversion Hmsg; subst. right. eexists _, _. split; [reflexivity|]. split; [reflexivity|done].
Qed.

Lemma exits_well_for_each {A} own (l : list A) (f : A -> M unit) :
  (forall x, exits_well own (f x)) -> exits_well own (for_each l f).
Proof.
  intros Hf. induction l as [|x l IH]; simpl; [apply exits_well_ret|].
  apply exits_well_bind; [apply Hf|intros _; apply IH].
Qed.

(** A [finally] block that always returns and starts no command. *)
Lemma exits_well_try_finally {A} own (body : M A) (fin : M unit) :
  exits_well own body -> emits not_a_run fin -> (forall w, (fin w).1 = Ok tt) ->
  exits_well own (try_finally body fin).
Proof.
  intros Hb Hf Hok w. unfold try_finally. destruct (Hb w) as (e1 & Hg1 & H1).
  destruct (body w) as [rb wb]; simpl in *.
  destruct (Hf wb) as (e2 & Hg2 & Hq). specialize (Hok wb).
  destruct (fin wb) as [rf wf]; simpl in *; subst rf.
  assert (runs (e1 ++ e2) = runs e1) as Hruns.
  { unfold runs. rewrite omap_app.
    assert (omap run_of e2 = []) as ->; [|by rewrite app_nil_r].
    clear -Hq. induction Hq as [|e l He _ IH]; [done|]. simpl. by rewrite He. }
  destruct rb as [a|e|].
  - exists (e1 ++ e2)%list. split; [eapply grows_trans; eauto|]. intros msg H. discriminate.
  - exists (e1 ++ e2)%list. split; [eapply grows_trans; eauto|]. intros msg H.
    destruct (H1 msg H) as [Ho|(c & rc & -> & Hl & Hrc)]; [by left|]. right.
    exists c, rc. by rewrite Hruns.
  - exists e1. split; [done|]. intros msg H. discriminate.
Qed.

(** An [except] clause that does not catch [SystemExit], with a handler
    that does not raise it. *)
Lemma exits_well_try_except {A} own catches (body : M A) (handler : exn -> M A) P :
  (forall msg, catches (SystemExit msg) = false) ->
  exits_well own body -> (forall e, emits P (handler e)) -> (forall e, no_exit (handler e)) ->
  exits_well own (try_except catches body handler).
Proof.
  intros Hc Hb Hh Hn w. unfold try_except. destruct (Hb w) as (e1 & Hg1 & H1).
  destruct (body w) as [[a|e|] wb]; simpl in *.
  - exists e1. split; [done|]. intros msg H. discriminate.
  - destruct (catches e) eqn:He.
    + destruct (Hh e wb) as (e2 & Hg2 & _). exists (e1 ++ e2)%list.
      split; [eapply grows_trans; eauto|]. intros msg H. by destruct (Hn e wb msg).
    + exists e1. split; [done|]. exact H1.
  - exists e1. split; [done|]. intros msg H. discriminate.
Qed.

End ExitsOfSteps.

Ltac no_exit_by_cases :=
  intros ? ?; cbv beta delta [mkstemp mkdtemp os_write os_close os_chmod os_path_exists
    os_remove path_exists path_is_dir iterdir rmtree unlink copytree copy2 time_time
    time_sleep strftime_now requests_get environ_get environ_copy print print_line ret raise
    get_method lower_method raise_for_status response_json];
  repeat first
    [ progress cbv beta zeta iota
    | match goal with
      | |- context [match ?x with _ => _ end] => destruct x
      | |- context [if ?b then _ else _] => destruct b
      end ];
  simpl; intros Hbad; discriminate Hbad.

Section ExitsOfLibrary.
Import Py Trace DeployAdapter Exits.

Lemma no_exit_print t : no_exit (print t).
Proof. no_exit_by_cases. Qed.
Lemma no_exit_mkstemp p : no_exit (mkstemp p).
Proof. no_exit_by_cases. Qed.
Lemma no_exit_mkdtemp p : no_exit (mkdtemp p).
Proof. no_exit_by_cases. Qed.
Lemma no_exit_os_write p d : no_exit (os_write p d).
Proof. no_exit_by_cases. Qed.
Lemma no_exit_os_chmod p m : no_exit (os_chmod p m).
Proof. no_exit_by_cases. Qed.
Lemma no_exit_os_remove p : no_exit (os_remove p).
Proof. no_exit_by_cases. Qed.
Lemma no_exit_iterdir p : no_exit (iterdir p).
Proof. no_exit_by_cases. Qed.
Lemma no_exit_rmtree p b : no_exit (rmtree p b).
Proof. no_exit_by_cases. Qed.
Lemma no_exit_unlink p : no_exit (unlink p).
Proof. no_exit_by_cases. Qed.
Lemma no_exit_copytree a b : no_exit (copytree a b).
Proof. no_exit_by_cases. Qed.
Lemma no_exit_copy2 a b : no_exit (copy2 a b).
Proof. no_exit_by_cases. Qed.
Lemma no_exit_time_sleep s : no_exit (time_sleep s).
Proof. no_exit_by_cases. Qed.
Lemma no_exit_requests_get u h : no_exit (requests_get u h).
Proof. no_exit_by_cases. Qed.
Lemma no_exit_pure {A} (f : World -> A) : no_exit (fun w => (Ok (f w), w)).
Proof. intros w msg. discriminate. Qed.

End ExitsOfLibrary.

Section ExitsOfLeaves.
Import Py Trace DeployAdapter Exits.

Lemma no_exit_bind {A B} (m : M A) (k : A -> M B) :
  no_exit m -> (forall a, no_exit (k a)) -> no_exit (bind m k).
Proof.
  intros Hm Hk w msg. unfold bind. specialize (Hm w msg).
  destruct (m w) as [[a|e|] w1]; simpl in *; [apply Hk| |discriminate].
  intros H. apply Hm. by inversion H.
Qed.

Lemma exits_well_print own t : exits_well own (print t).
Proof.
  eapply exits_well_quiet; [apply (emits_print (fun _ => True)); exact I|apply no_exit_print].
Qed.

Lemma exits_well_print_line own s : exits_well own (print_line s).
Proof. apply exits_well_print. Qed.

Lemma exits_well_pure {A} own (f : World -> A) : exits_well own (fun w => (Ok (f w), w)).
Proof.
  eapply exits_well_quiet; [apply (emits_pure (fun _ => True))|apply no_exit_pure].
Qed.

Lemma exits_well_mkstemp own p : exits_well own (mkstemp p).
Proof.
  eapply exits_well_quiet; [apply (emits_mkstemp (fun _ => True)); by intros|apply no_exit_mkstemp].
Qed.

Lemma exits_well_mkdtemp own p : exits_well own (mkdtemp p).
Proof.
  eapply exits_well_quiet; [apply (emits_mkdtemp (fun _ => True)); by intros|apply no_exit_mkdtemp].
Qed.

Lemma exits_well_os_write own p d : exits_well own (os_write p d).
Proof.
  eapply exits_well_quiet; [apply (emits_os_write (fun _ => True)); by intros|apply no_exit_os_write].
Qed.

Lemma exits_well_os_chmod own p m : exits_well own (os_chmod p m).
Proof.
  eapply exits_well_quiet; [apply (emits_os_chmod (fun _ => True)); by intros|apply no_exit_os_chmod].
Qed.

Lemma exits_well_iterdir own p : exits_well own (iterdir p).
Proof.
  eapply exits_well_quiet; [apply (emits_iterdir (fun _ => True)); by intros|apply no_exit_iterdir].
Qed.

Lemma exits_well_rmtree own p b : exits_well own (rmtree p b).
Proof.
  eapply exits_well_quiet; [apply (emits_rmtree (fun _ => True)); exact I|apply no_exit_rmtree].
Qed.

Lemma exits_well_unlink own p : exits_well own (unlink p).
Proof.
  eapply exits_well_quiet; [apply (emits_unlink (fun _ => True)); exact I|apply no_exit_unlink].
Qed.

Lemma exits_well_copytree own a b : exits_well own (copytree a b).
Proof.
  eapply exits_well_quiet; [apply (emits_copytree (fun _ => True)); exact I|apply no_exit_copytree].
Qed.

Lemma exits_well_copy2 own a b : exits_well own (copy2 a b).
Proof.
  eapply exits_well_quiet; [apply (emits_copy2 (fun _ => True)); exact I|apply no_exit_copy2].
Qed.

Lemma exits_well_time_sleep own s : exits_well own (time_sleep s).
Proof.
  eapply exits_well_quiet; [apply (emits_time_sleep (fun _ => True)); exact I
                           |apply no_exit_time_sleep].
Qed.

Lemma exits_well_requests_get own u h : exits_well own (requests_get u h).
Proof.
  eapply exits_well_quiet; [apply (emits_requests_get (fun _ => True)); exact I
                           |apply no_exit_requests_get].
Qed.

Lemma exits_well_get_method own j k : exits_well own (get_method j k).
Proof. destruct j; first [apply exits_well_ret | apply exits_well_error]. Qed.

Lemma exits_well_lower_method own v : exits_well own (lower_method v).
Proof. destruct v; first [apply exits_well_ret | apply exits_well_error]. Qed.

End ExitsOfLeaves.

Ltac exits_steps :=
  repeat first
    [ apply exits_well_ret | apply exits_well_error
    | apply exits_well_run
    | apply exits_well_print_line | apply exits_well_print
    | apply exits_well_pure
    | apply exits_well_mkstemp | apply exits_well_mkdtemp | apply exits_well_os_write
    | apply exits_well_os_chmod | apply exits_well_iterdir | apply exits_well_rmtree
    | apply exits_well_unlink | apply exits_well_copytree | apply exits_well_copy2
    | apply exits_well_time_sleep | apply exits_well_requests_get
    | apply exits_well_get_method | apply exits_well_lower_method
    | apply exits_well_bind; [|intros ?]
    | apply exits_well_for_each; intros ?
    | match goal with |- Exits.exits_well _ (if ?b then _ else _) => destruct b end ].

Section ExitsOfTheAdapter.
Import Py Trace DeployAdapter Order Exits.

Lemma exits_well_ensure allow : exits_well adapter_exit (ensure_clean_worktree allow).
Proof.
  unfold ensure_clean_worktree. exits_steps.
  apply exits_well_own. by left.
Qed.

Lemma exits_well_write_key key : exits_well adapter_exit (write_ssh_key_if_provided key).
Proof. unfold write_ssh_key_if_provided, os_close. exits_steps. Qed.

Lemma exits_well_push_head remote_url branch key force :
  exits_well adapter_exit (git_push_current_head remote_url branch key force).
Proof. unfold git_push_current_head, environ_copy. exits_steps. Qed.

Lemma exits_well_prepare remote_url branch artifact_dir tmp env msg force :
  exits_well adapter_exit (prepare_and_push remote_url branch artifact_dir tmp env msg force).
Proof.
  unfold prepare_and_push, clean_entry, copy_entry, path_exists, path_is_dir. exits_steps.
  apply exits_well_own. right. left. by eexists.
Qed.

Lemma exits_well_artifact remote_url branch artifact_dir key msg force :
  exits_well adapter_exit (git_push_artifact_dir remote_url branch artifact_dir key msg force).
Proof.
  unfold git_push_artifact_dir, environ_copy.
  apply exits_well_bind; [apply exits_well_pure|]. intros env0.
  apply exits_well_bind; [exits_steps|]. intros env.
  apply exits_well_bind; [exits_steps|]. intros tmp.
  apply exits_well_bind; [exits_steps|]. intros _.
  apply exits_well_try_finally; [apply exits_well_prepare| |].
  - apply emits_bind; [by apply emits_print_line|]. intros _. by apply emits_rmtree.
  - intros w. destruct (clone_cleanup_ok tmp w) as (w' & -> & _). reflexivity.
Qed.

Lemma exits_well_status_in status words : exits_well adapter_exit (status_in status words).
Proof. unfold status_in. exits_steps. Qed.

Lemma exits_well_poll_once url headers last :
  exits_well adapter_exit (poll_once url headers last).
Proof.
  unfold poll_once. eapply (exits_well_try_except _ _ _ _ (fun _ => True)).
  - by intros.
  - unfold raise_for_status, response_json, poll_decide, resolve_status, or_else.
    apply exits_well_bind; [exits_steps|]. intros r.
    apply exits_well_bind; [destruct (_ && _); [|apply exits_well_ret]|].
    { eapply exits_well_quiet; [apply (emits_raise (fun _ => True))|]. intros w msg. discriminate. }
    intros _.
    apply exits_well_bind.
    { destruct (body r); [apply exits_well_ret|].
      eapply exits_well_quiet; [apply (emits_raise (fun _ => True))|]. intros w msg. discriminate. }
    intros j.
    repeat first
      [ apply exits_well_status_in
      | apply exits_well_own; right; right; by eexists
      | progress exits_steps ].
  - intros e. apply emits_bind; [by apply emits_print|]. intros; apply emits_ret.
  - intros e. apply no_exit_bind; [apply no_exit_print|]. intros _ w msg. discriminate.
Qed.

Lemma exits_well_poll_loop fuel url headers interval deadline last :
  exits_well adapter_exit (poll_loop fuel url headers interval deadline last).
Proof.
  revert last. induction fuel as [|fuel IH]; intros last; simpl.
  - intros w. exists []. split; [apply grows_refl|]. intros msg H. discriminate.
  - unfold time_time. apply exits_well_bind; [apply exits_well_pure|]. intros t.
    destruct (negb (Qle_bool deadline t)); [|exits_steps].
    apply exits_well_bind; [apply exits_well_poll_once|]. intros [j|last']; [apply exits_well_ret|].
    apply exits_well_bind; [apply exits_well_time_sleep|]. intros _. apply IH.
Qed.

Lemma exits_well_main_body fuel args key : exits_well adapter_exit (main_body fuel args key).
Proof.
  unfold main_body, strftime_now, environ_get.
  apply exits_well_bind.
  { destruct (negb (truthy_str (artifact_dir args))).
    - apply exits_well_bind; [apply exits_well_ensure|]. intros _.
      apply exits_well_bind; [apply exits_well_print_line|]. intros _. apply exits_well_push_head.
    - apply exits_well_bind; [exits_steps|]. intros msg. apply exits_well_artifact. }
  intros _. apply exits_well_bind; [apply exits_well_print_line|]. intros _.
  destruct (_ && _); [|exits_steps].
  apply exits_well_bind; [apply exits_well_pure|]. intros token.
  apply exits_well_bind; [|intros; apply exits_well_ret].
  unfold poll_status_url, time_time.
  apply exits_well_bind; [apply exits_well_print_line|]. intros _.
  apply exits_well_bind; [apply exits_well_pure|]. intros t. apply exits_well_poll_loop.
Qed.

(** Every [SystemExit] that ends a run of [main] is one the adapter
    raises itself (the refusal of a dirty tree, the missing artifact
    directory, the failed deployment) or it is [Command failed] for the
    last command that was run, which exited with a code other than zero:
    no command is started after one that failed under check. *)
Theorem exits_of_the_adapter (fuel : nat) (args : Args) (w : World) (msg : text) :
  (main fuel args w).1 = Raise (SystemExit msg) ->
  adapter_exit msg \/ command_failed msg (new_events w (main fuel args w).2).
Proof.
  assert (exits_well adapter_exit
            (bind (if truthy_str (git_ssh_key w) then write_ssh_key_if_provided (git_ssh_key w)
                   else ret None)
               (fun key => try_finally (main_body fuel args key) (main_cleanup key)))) as Hm.
  { apply exits_well_bind.
    - destruct (truthy_str (git_ssh_key w)); [apply exits_well_write_key|apply exits_well_ret].
    - intros key. apply exits_well_try_finally; [apply exits_well_main_body| |].
      + unfold main_cleanup, os_path_exists.
        repeat first
          [ apply emits_ret | apply emits_pure
          | apply emits_os_remove; intros; reflexivity
          | apply emits_bind; [|intros ?]
          | apply emits_try_except; [|intros ?]
          | match goal with |- emits _ (if ?b then _ else _) => destruct b end ].
      + intros w0. apply main_cleanup_returns. }
  rewrite main_unfold. destruct (Hm w) as (evs & Hg & H).
  rewrite (grows_new_events _ _ _ Hg). apply H.
Qed.

Lemma exits_of_the_adapter_witness :
  let w := Sample.start Runs.with_key ∅ Sample.push_rejected in
  let msg := failed_msg (Argv ["git"; "push"; "backend_im_deploy"; "HEAD:refs/heads/main"]) 1 in
  adapter_exit msg \/ command_failed msg (new_events w (main 0 Runs.direct_head w).2).
Proof.
  intros w msg.
  apply (exits_of_the_adapter 0 Runs.direct_head w msg).
  vm_compute. reflexivity.
Defined.

End ExitsOfTheAdapter.

Section ExitsOfTheWorkflow.
Import Py Trace Dagger Exits Workflow.

Lemma exits_well_read_file own p : exits_well own (read_file p).
Proof.
  intros w. exists []. unfold read_file.
  destruct (fs w !! Path p) as [[|]|]; simpl; (split; [apply grows_refl|]);
    intros msg H; discriminate.
Qed.

Lemma exits_well_json_load own loads data : exits_well own (json_load loads data).
Proof. unfold json_load. destruct (loads data); [apply exits_well_ret|apply exits_well_error]. Qed.

Lemma exits_well_get_default own j k d : exits_well own (get_default j k d).
Proof. destruct j; first [apply exits_well_ret | apply exits_well_error]. Qed.

Lemma exits_well_contains own s v : exits_well own (contains s v).
Proof. destruct v; first [apply exits_well_ret | apply exits_well_error]. Qed.

Lemma exits_well_sha : exits_well workflow_exit git_sha_short.
Proof.
  unfold git_sha_short. eapply (exits_well_try_except _ _ _ _ (fun _ => True)).
  - by intros.
  - apply exits_well_bind; [apply exits_well_run|]. intros; apply exits_well_ret.
  - intros e. apply emits_pure.
  - intros e w msg. discriminate.
Qed.

Lemma exits_well_login image_ref : exits_well workflow_exit (docker_login_if_needed image_ref).
Proof. unfold docker_login_if_needed, environ_get. exits_steps. Qed.

Lemma exits_well_npm loads dir : exits_well workflow_exit (npm_install_and_test loads dir).
Proof.
  unfold npm_install_and_test, os_path_exists.
  repeat first
    [ apply exits_well_own; reflexivity
    | apply exits_well_read_file | apply exits_well_json_load
    | apply exits_well_get_default | apply exits_well_contains
    | progress exits_steps ].
Qed.

(** Every [SystemExit] that ends the workflow is the one for a missing
    [package.json], or it is [Command failed] for the last command that
    was run, which exited with a code other than zero: the workflow stops
    at the first command that fails. *)
Theorem exits_of_the_workflow loads (cwd : string) (args : Args) (w : World) (msg : text) :
  (main loads cwd args w).1 = Raise (SystemExit msg) ->
  workflow_exit msg \/ command_failed msg (new_events w (main loads cwd args w).2).
Proof.
  assert (exits_well workflow_exit (main loads cwd args)) as Hm.
  { unfold main.
    apply exits_well_bind; [apply exits_well_print_line|]. intros _.
    apply exits_well_bind; [apply exits_well_sha|]. intros sha.
    apply exits_well_bind; [apply exits_well_login|]. intros _.
    apply exits_well_bind.
    { destruct (negb (skip_tests args)); [apply exits_well_npm|apply exits_well_print_line]. }
    intros _. exits_steps. }
  destruct (Hm w) as (evs & Hg & H). rewrite (grows_new_events _ _ _ Hg). apply H.
Qed.

Lemma exits_of_the_workflow_witness :
  let w := Sample.start ∅ project_files tests_fail in
  let msg := failed_msg (Argv ["npm"; "test"]) 1 in
  workflow_exit msg \/ command_failed msg (new_events w (main loads "/srv/app" full w).2).
Proof.
  intros w msg.
  apply (exits_of_the_workflow loads "/srv/app" full w msg).
  vm_compute. reflexivity.
Defined.

End ExitsOfTheWorkflow.
